(* ===== verification/_CoqProject ===== *)
-Q . S2P
Prelude.v
Dom.v
Timers.v
World.v
Pointer.v
Viewport.v
Scroll.v
Form.v
Menu.v
Animate.v
Buttons.v
Easing.v
Page.v
