(* ===== verification/Prelude.v ===== *)
(** * A verification development for the Cloud Portfolio page controller

    The program is [src/app.js]: one class [CloudPortfolio] whose
    constructor (lines 4-11) wires a page up, plus the statements at the
    top level of the script: the global [window.scrollToSection] (lines
    497-506), the [DOMContentLoaded] bootstrap (lines 509-517), the
    injected style sheet (lines 520-577), the service-worker [load]
    listener and the module export (lines 580-590).  Everything runs on the single browser
    event thread: listeners react to events (mousemove, scroll, resize,
    click, submit, touch, intersection) and schedule closures with
    [setTimeout] and [requestAnimationFrame].

    ** Files, in dependency order

    - [Prelude] (this file): the [js_scope] notations, JavaScript number
      helpers on [Q] ([math_min], [math_max], boolean comparisons),
      [for_each_i] ([forEach] with its index), the [js] hint databases
      and the list facts shared by every file.
    - [Dom]: the browser side that the code only calls, modelled from the
      DOM specification: a [document] whose elements live in a store
      [gmap nat elem] (two references to one node alias), the connected
      nodes in tree order, class lists with the [DOMTokenList] semantics
      of [add]/[remove]/[toggle]/[contains], inline styles whose
      [transform] is a list of transform functions (so that
      [style.transform += ...] appends), [getElementById],
      [querySelectorAll], [createElement], [appendChild], [remove] and
      [innerHTML = ''].  [inside] walks up the parents with fuel
      [doc_next], the number of nodes ever created, which bounds any
      chain of distinct ancestors.
    - [Timers]: the two schedulers of the event loop, generic in the
      closure type.  The [setTimeout] queue fires timers by due time and,
      on ties, in registration order; the [requestAnimationFrame] queue
      runs, at each frame, the callbacks registered before that frame.
      Proved: [pop_due] pops the least [(due, id)] timer (a refinement of
      the "earliest deadline, then oldest" choice [earliest]), and
      [run_timers] with fuel drains every due timer and terminates when
      each callback lowers a load measure ([run_timers_total]: fuel equal
      to the load is enough).
    - [World]: the controller record (the fields of [this]), the
      listeners as an inductive [handler] with one constructor per arrow
      function passed to [addEventListener], the closures handed to the
      schedulers as an inductive [task], the window, and the world state
      [page * sched task] threaded through every handler; [dispatch]
      runs the listeners registered when an event starts, in order.
    - [Pointer]: the mousemove listener, [requestTick], its frame
      callback and [updateParallax] (lines 60-64, 171-191).
    - [Viewport]: [init]'s mobile test, [createParticles],
      [setupParallax], [handleResize] and the resize listener (lines
      13-32, 72-75, 105-169, 448-462).
    - [Scroll]: [handleScroll] and [updateActiveNavLink] (lines 66-70,
      375-416).
    - [Form]: [handleFormSubmit] and its two timers (lines 51-56,
      418-446), with the Idle/Sending/Sent phases of the button as a step
      relation.
    - [Menu]: the anchor and hamburger listeners, [scrollToSection],
      [toggleMobileMenu] and the global [window.scrollToSection] (lines
      36-49, 341-373, 497-506).
    - [Animate]: the intersection observer and its callback,
      [animateElement], [animateSkillBar], [animateSkills] and the
      callbacks they schedule (lines 84-103, 193-235).
    - [Buttons]: the project cards' hover and touch listeners, the CTA
      buttons, [animateButton] and [createRipple] (lines 237-339).
    - [Easing]: [easeInOutCubic] and the [addFloatingAnimation] frame
      loop (lines 465-485), two utilities nothing calls.
    - [Page]: the constructor, [setupEventListeners], the
      [DOMContentLoaded] bootstrap and the script's top level (lines
      4-11, 33-82, 509-585), and the two dispatchers [page_handler]
      (a listener run on an event) and [page_task] (a scheduled closure
      run by the event loop).

    Each component is a [Module] of its file; its operations are the
    methods of the class, written as functions from world to world, and
    a handler that other code runs (a timer callback, a listener) is
    related to its runner through a [Section] whose [Variable run] and
    [Hypothesis] state what the page's dispatcher promises.

    ** What the theorems show

    - Pointer: any burst of mousemoves schedules one frame and keeps the
      last position; the frame appends one [translate3d] per binding;
      [ticking] stays in step with the pending frame (C1-C3).
    - Viewport: [createParticles] appends exactly 20 particles with
      their random position, duration and delay in range; resizing keeps
      the particle count at 20 on desktop and 0 on mobile, a round trip
      desktop-mobile-desktop restores 20 particles, and the parallax
      bindings are never cleared (C4-C7).
    - Scroll: the last section containing the scroll position marks its
      link, an [href="#"] link is marked when no section matches, the
      navbar alpha never decreases and is constant from 100 pixels on,
      but has no lower clamp (a negative offset gives less than 0.05),
      and the clouds drift by [y * speed] (C8-C12).
    - Form: the label/disabled timeline of one submission, the TypeError
      without a submit button, and a second submission during the first
      leaving the button stuck on ["Sending..."] (C13-C15).
    - Menu: a toggle flips the menu and the hamburger together and
      registers a close listener on every link when it opens; a click
      toggles once per registered listener, so after the second opening a
      link click leaves the menu open; the bars' transforms as written;
      anchor clicks scroll 80 pixels above their target (C16-C20).
    - Animate: because of the [".skill-item"] test no run of the
      observer and its timers ever touches a skill bar; what the bar
      animation would do, malformed levels included; any interleaving of
      the fade-in with [animateSkills]' hide and show ends visible
      (C21-C23).
    - Buttons: the ripple's geometry and life, and the uncancelled
      [touch-active] timer that clears the class during a held second
      touch (C24-C25); any run of clicks leaves exactly one
      [ripple-styles] sheet (C33).
    - Easing: the cubic is monotone and maps [0, 1] into itself, fixing
      0, 1/2 and 1; the floating loop's progress lies in [0, 1), and the
      loop never ends while the transform grows by one function per
      frame (C26-C28).
    - Page: a page loaded on a phone and widened has parallax bindings
      that no mousemove drives; the page's timer queue always drains
      (C29-C30).
    - The viewport boundary: a resize to width [wd] makes the page
      "mobile" exactly when [wd <= 768] (C31); the normalized pointer of
      a pointer inside the window lies in [-1, 1] (C32).

    Every theorem with hypotheses has a witness that applies it to a
    concrete page evaluated by [vm_compute] or [reflexivity].

    ** Bounds and fuel

    [run_timers] takes fuel; [Page.page_timers_drain] shows that fuel
    equal to the load of the queue (one per pending timer plus one per
    timer a pending callback may schedule: a skill hide its show, a
    "sent" timer its reset) always suffices.  [inside] walks up at most
    [doc_next] parents, the number of nodes ever created.  The particle
    loop is [Nat.iter 20], as the code's [for (i = 0; i < 20; i++)].
    The floating loop has no fuel: it is a step of the frame queue, and
    its theorem holds for any list of frame timestamps.

    ** Numbers

    JavaScript numbers are doubles.  The model computes on exact
    rationals [Q]: the formulas of the code ([clientX / innerWidth * 2 -
    1], [Math.min(scrollTop / 100, 1)], [0.5 + index * 0.1], the easing
    cubic) are written as they are; rounding of the last bit is not
    modelled.  The numeric claims are therefore stated so that they also
    hold of binary64 arithmetic: inequalities and monotonicity, which
    rounding to nearest preserves, and equalities only where every
    intermediate value is exact (0, 1/2 and 1 in the cubic, [Math.min]
    returning its [1]).  Two exact facts of [Q] are not claimed because
    doubles break them: the navbar alpha from 100 pixels on is
    [0.05 + 0.1 = 0.15000000000000002], not 0.15, and the cubic is not
    exactly symmetric ([easeInOutCubic(0.7)] is [0.8919999999999999],
    [1 - easeInOutCubic(0.3)] is [0.892]).  The equation of C11 is exact
    in [Q] only; its bound holds of doubles too.  Times are
    milliseconds in [N], since every delay of the code is an integer
    literal.  [Math.random()] is an input stream of rationals in [0, 1).

    ** What is not modelled

    Console output ([checkPerformance], the service-worker [load]
    listener and the log lines, which change no state), the module
    export, the text of the injected style sheets (only the appended
    element and its id), CSS rendering and layout ([offsetTop],
    [clientHeight] and the bounding box are inputs of each element),
    the browser's smooth-scroll animation (only the requested target),
    when the browser delivers intersection entries (an input of the
    observer's callback), the values of [Math.sin] (a parameter of the
    floating loop), and [FormData]'s encoding (the values are read and
    only logged). *)

From stdpp Require Export base list strings gmap.
From Stdlib Require Export QArith Qminmax Lqa ZArith.

(** [QArith] opens [Q_scope]; numbers default to [nat] here, and [Q]
    formulas carry their [%Q]. *)
Close Scope Q_scope.
#[export] Set Warnings "-clear-no-such-hyp".

Declare Scope js_scope.
Delimit Scope js_scope with js.

Create HintDb js.
Create Rewrite HintDb js_rw.

(** ** Boolean comparisons on numbers, as the code's [<], [<=] and [>=] *)

Definition Qltb (x y : Q) : bool := negb (Qle_bool y x).

Notation "x <=? y" := (Qle_bool x y) : js_scope.
Notation "x <? y" := (Qltb x y) : js_scope.

Open Scope js_scope.

Lemma Qle_bool_spec (x y : Q) : BoolSpec (x <= y)%Q (y < x)%Q (x <=? y).
Proof.
  destruct (x <=? y) eqn:E; constructor.
  - by apply Qle_bool_iff.
  - apply Qnot_le_lt. intros H. apply Qle_bool_iff in H. congruence.
Qed.

Lemma Qltb_spec (x y : Q) : BoolSpec (x < y)%Q (y <= x)%Q (x <? y).
Proof.
  unfold Qltb. destruct (Qle_bool_spec y x); constructor; done.
Qed.

(** [case_q] splits on the first boolean comparison of the goal. *)
Ltac case_q :=
  match goal with
  | |- context [Qle_bool ?x ?y] => destruct (Qle_bool_spec x y)
  | |- context [Qltb ?x ?y] => destruct (Qltb_spec x y)
  end.

(** ** [Math.min] and [Math.max] on non-NaN numbers *)

Definition math_min (x y : Q) : Q := if x <=? y then x else y.
Definition math_max (x y : Q) : Q := if x <=? y then y else x.

Lemma math_min_mono_l x x' y : (x <= x')%Q -> (math_min x y <= math_min x' y)%Q.
Proof. intros H. unfold math_min. do 2 case_q; lra. Qed.

Lemma math_min_le_l x y : (math_min x y <= x)%Q.
Proof. unfold math_min. case_q; lra. Qed.

Lemma math_min_le_r x y : (math_min x y <= y)%Q.
Proof. unfold math_min. case_q; lra. Qed.

Lemma math_min_glb x y z : (z <= x)%Q -> (z <= y)%Q -> (z <= math_min x y)%Q.
Proof. unfold math_min. by case_q. Qed.

Lemma math_min_l x y : (x <= y)%Q -> math_min x y = x.
Proof. unfold math_min. case_q; [done | lra]. Qed.

Lemma math_min_r x y : (y < x)%Q -> math_min x y = y.
Proof. unfold math_min. case_q; [lra | done]. Qed.

Lemma math_max_ge_l x y : (x <= math_max x y)%Q.
Proof. unfold math_max. case_q; lra. Qed.

Lemma math_max_ge_r x y : (y <= math_max x y)%Q.
Proof. unfold math_max. case_q; lra. Qed.

#[export] Hint Resolve math_min_le_l math_min_le_r math_min_glb
  math_max_ge_l math_max_ge_r : js.

(** ** [Array.prototype.forEach] with the index argument, on a state *)

Fixpoint for_each_i {A St : Type} (f : nat -> A -> St -> St) (i : nat)
    (l : list A) (s : St) : St :=
  match l with
  | [] => s
  | x :: l' => for_each_i f (S i) l' (f i x s)
  end.

Lemma for_each_i_app {A St} (f : nat -> A -> St -> St) i l1 l2 s :
  for_each_i f i (l1 ++ l2) s = for_each_i f (i + length l1) l2 (for_each_i f i l1 s).
Proof.
  revert i s. induction l1 as [|x l1 IH]; intros i s; simpl.
  - by rewrite Nat.add_0_r.
  - rewrite IH. f_equal. lia.
Qed.

(** A property kept by every call of the body is kept by the loop. *)
Lemma for_each_i_inv {A St} (P : St -> Prop) (f : nat -> A -> St -> St) i l s :
  (forall j x s', P s' -> P (f j x s')) -> P s -> P (for_each_i f i l s).
Proof.
  intros Hf. revert i s. induction l as [|x l IH]; intros i s Hs; simpl; auto.
Qed.

(** ** Small facts on lists shared by the components *)

Lemma last_app_single {A} (l : list A) (x : A) : last (l ++ [x]) = Some x.
Proof. induction l as [|y [|z l] IH]; simpl in *; auto. Qed.

#[export] Hint Rewrite @length_app @length_map @length_imap : js_rw.

(** Syntactic equality of rationals (numerator and denominator), used to
    compare closures and style values; [Qeq] is the coarser equality. *)
#[export] Instance Q_eq_dec : EqDecision Q.
Proof.
  intros [a b] [c d]. destruct (decide (a = c)) as [->|]; [|right; congruence].
  destruct (decide (b = d)) as [->|]; [by left | right; congruence].
Defined.

(** Two filters that agree on the members of a list. *)
Lemma filter_ext_Forall {A} (P Q : A -> Prop) `{!∀ x, Decision (P x), !∀ x, Decision (Q x)} (l : list A) :
  Forall (fun x => P x <-> Q x) l -> filter P l = filter Q l.
Proof.
  induction 1 as [|x l Hx _ IH]; [done|].
  rewrite !filter_cons. do 2 case_decide; rewrite IH; naive_solver.
Qed.

(** Filtering for one value. *)
Lemma filter_eq_notin `{EqDecision A} (x : A) l : x ∉ l -> filter (fun y => y = x) l = [].
Proof.
  induction l as [|y l IH]; intros Hx; [done|].
  rewrite filter_cons_False by set_solver. apply IH. set_solver.
Qed.

Lemma filter_neq_notin `{EqDecision A} (x : A) (l : list A) : x ∉ l -> filter (fun y => y ≠ x) l = l.
Proof.
  induction l as [|y l IH]; intros Hx; [done|].
  rewrite filter_cons_True by set_solver. rewrite IH; set_solver.
Qed.

(** ** Facts on [Q] *)

Lemma Qltb_compat x y c : (x == y)%Q -> (x <? c) = (y <? c).
Proof. intros H. destruct (Qltb_spec x c), (Qltb_spec y c); try reflexivity; exfalso; lra. Qed.

Lemma Qsq_nonneg x : (0 <= x * x)%Q.
Proof. nra. Qed.

Lemma Qcube_mono a b : (a <= b -> a * a * a <= b * b * b)%Q.
Proof.
  intros H.
  assert (H1 : (0 <= a * a + a * b + b * b)%Q).
  { pose proof (Qsq_nonneg (2 * a + b)). pose proof (Qsq_nonneg b). nra. }
  assert (H2 : (0 <= (b - a) * (a * a + a * b + b * b))%Q)
    by (apply Qmult_le_0_compat; lra).
  assert (E : (b * b * b - a * a * a == (b - a) * (a * a + a * b + b * b))%Q) by ring.
  lra.
Qed.
