(* ===== verification/Dom.v ===== *)
(** * The browser side: elements, class lists, inline styles, the document

    The code only calls the DOM; this file models the part of the DOM
    specification it relies on.  Elements live in a store keyed by node
    numbers ([gmap nat elem]), so that two references to one node alias:
    a cloud that is both a parallax target and a [.floating-cloud]
    accumulates the translations of both paths in one [transform].

    - [tfun], [cssval]: the values the code writes into inline styles;
      a transform is a list of transform functions, so [+=] appends.
    - [class_add], [class_remove], [class_toggle], [class_contains]:
      [DOMTokenList] semantics (no duplicates on add, every occurrence
      removed, toggle reports the new presence, tokens compared exactly,
      so [contains('.skill-item')] looks for the token with the dot).
    - [document]: the store, the connected nodes in tree order, and the
      next fresh node number for [createElement]. *)

From S2P Require Import Prelude.

(** ** Inline style values *)

(** The transform functions the code writes. *)
Inductive tfun :=
| TranslateY (y : Q)            (** [translateY(ypx)] *)
| Translate3d (x y : Q)         (** [translate3d(xpx, ypx, 0)] *)
| Translate (x y : Q)           (** [translate(xpx, ypx)] *)
| Scale (s : Q)                 (** [scale(s)] *)
| Rotate (deg : Q).             (** [rotate(degdeg)] *)

Inductive cssval :=
| CStr (s : string)             (** a value kept as its text *)
| CNum (q : Q)                  (** a bare number: [opacity] *)
| CRgba (r g b : Z) (a : Q)     (** [rgba(r, g, b, a)] *)
| CNone                         (** the keyword [none] *)
| CTransform (fs : list tfun)   (** a non-empty transform list *)
| CTransition (prop : string) (secs : Q)   (** [<prop> <secs>s ease] *)
| CPx (q : Q)                   (** [<q>px] *)
| CPct (q : Q)                  (** [<q>%] *)
| CSecs (q : Q)                 (** [<q>s] *)
| CAnim (name : string) (secs : Q).  (** [<name> <secs>s ...] *)

(** [el.style.transform += ' f']: the serialized value gets [' f']
    appended and is parsed again.  An unset transform becomes [f];
    a transform list grows by [f]; ['none f'] does not parse, so the
    assignment is ignored and [none] stays. *)
Definition append_transform (f : tfun) (v : option cssval) : option cssval :=
  match v with
  | None => Some (CTransform [f])
  | Some (CTransform fs) => Some (CTransform (fs ++ [f]))
  | Some other => Some other
  end.

(** ** Elements *)

Record elem := mk_elem {
  el_tag : string;                     (** [tagName], lower case *)
  el_classes : list string;            (** [classList], in order *)
  el_attrs : gmap string string;       (** [id], [href], [data-level], ... *)
  el_style : gmap string cssval;       (** inline style declarations *)
  el_text : string;                    (** [textContent] *)
  el_disabled : bool;                  (** [disabled] of a button *)
  el_value : string;                   (** [value] of a form field *)
  el_children : list nat;              (** child elements, in order *)
  el_parent : option nat;
  el_offset_top : Q;                   (** [offsetTop], from layout *)
  el_client_height : Q;                (** [clientHeight], from layout *)
  el_rect : Q * Q * Q * Q              (** [getBoundingClientRect()]:
                                           left, top, width, height *)
}.

Definition new_elem : elem :=
  mk_elem "div" [] ∅ ∅ "" false "" [] None 0%Q 0%Q (0%Q, 0%Q, 0%Q, 0%Q).

Definition set_tag (t : string) (e : elem) : elem :=
  mk_elem t (el_classes e) (el_attrs e) (el_style e) (el_text e) (el_disabled e)
    (el_value e) (el_children e) (el_parent e) (el_offset_top e) (el_client_height e)
    (el_rect e).

Definition set_classes (cs : list string) (e : elem) : elem :=
  mk_elem (el_tag e) cs (el_attrs e) (el_style e) (el_text e) (el_disabled e)
    (el_value e) (el_children e) (el_parent e) (el_offset_top e)
    (el_client_height e) (el_rect e).

Definition set_style_map (st : gmap string cssval) (e : elem) : elem :=
  mk_elem (el_tag e) (el_classes e) (el_attrs e) st (el_text e) (el_disabled e)
    (el_value e) (el_children e) (el_parent e) (el_offset_top e)
    (el_client_height e) (el_rect e).

Definition set_text (t : string) (e : elem) : elem :=
  mk_elem (el_tag e) (el_classes e) (el_attrs e) (el_style e) t (el_disabled e)
    (el_value e) (el_children e) (el_parent e) (el_offset_top e)
    (el_client_height e) (el_rect e).

Definition set_disabled (b : bool) (e : elem) : elem :=
  mk_elem (el_tag e) (el_classes e) (el_attrs e) (el_style e) (el_text e) b
    (el_value e) (el_children e) (el_parent e) (el_offset_top e)
    (el_client_height e) (el_rect e).

Definition set_value (v : string) (e : elem) : elem :=
  mk_elem (el_tag e) (el_classes e) (el_attrs e) (el_style e) (el_text e)
    (el_disabled e) v (el_children e) (el_parent e) (el_offset_top e)
    (el_client_height e) (el_rect e).

Definition set_children (cs : list nat) (e : elem) : elem :=
  mk_elem (el_tag e) (el_classes e) (el_attrs e) (el_style e) (el_text e)
    (el_disabled e) (el_value e) cs (el_parent e) (el_offset_top e)
    (el_client_height e) (el_rect e).

Definition set_parent (p : option nat) (e : elem) : elem :=
  mk_elem (el_tag e) (el_classes e) (el_attrs e) (el_style e) (el_text e)
    (el_disabled e) (el_value e) (el_children e) p (el_offset_top e)
    (el_client_height e) (el_rect e).

Definition set_attr (k v : string) (e : elem) : elem :=
  mk_elem (el_tag e) (el_classes e) (<[k:=v]> (el_attrs e)) (el_style e) (el_text e)
    (el_disabled e) (el_value e) (el_children e) (el_parent e)
    (el_offset_top e) (el_client_height e) (el_rect e).

(** ** [DOMTokenList] *)

Definition class_contains (c : string) (e : elem) : bool :=
  bool_decide (c ∈ el_classes e).

Definition class_add (c : string) (e : elem) : elem :=
  if class_contains c e then e else set_classes (el_classes e ++ [c]) e.

Definition class_remove (c : string) (e : elem) : elem :=
  set_classes (filter (fun c' => c' ≠ c) (el_classes e)) e.

(** [toggle] removes the token when present and adds it otherwise. *)
Definition class_toggle (c : string) (e : elem) : elem :=
  if class_contains c e then class_remove c e else class_add c e.

(** ** Inline style writes *)

(** [el.style.p = v]; assigning the empty string removes the declaration. *)
Definition style_set (p : string) (v : cssval) (e : elem) : elem :=
  set_style_map (<[p:=v]> (el_style e)) e.

Definition style_clear (p : string) (e : elem) : elem :=
  set_style_map (delete p (el_style e)) e.

Definition style_get (p : string) (e : elem) : option cssval :=
  el_style e !! p.

Definition transform_append (f : tfun) (e : elem) : elem :=
  match append_transform f (style_get "transform" e) with
  | Some v => style_set "transform" v e
  | None => e
  end.

(** ** The document *)

Record document := mk_doc {
  doc_elems : gmap nat elem;   (** every node created so far *)
  doc_order : list nat;        (** the connected nodes, in tree order;
                                   a node appended by the code goes last *)
  doc_next : nat               (** the number [createElement] gives next *)
}.

Definition get_el (d : document) (n : nat) : option elem := doc_elems d !! n.

(** Apply [f] to node [n]; nothing happens when [n] does not exist. *)
Definition upd_el (n : nat) (f : elem -> elem) (d : document) : document :=
  mk_doc (alter f n (doc_elems d)) (doc_order d) (doc_next d).

(** [el.style.transform += ...] and friends on a nullable reference:
    the code tests the reference before writing. *)
Definition upd_opt (o : option nat) (f : elem -> elem) (d : document) : document :=
  match o with Some n => upd_el n f d | None => d end.

Definition has_class (d : document) (c : string) (n : nat) : bool :=
  match get_el d n with Some e => class_contains c e | None => false end.

(** [document.querySelectorAll('.c1, .c2, ...')]: the connected nodes
    carrying one of the classes, in tree order. *)
Definition query_classes (cs : list string) (d : document) : list nat :=
  filter (fun n => existsb (fun c => has_class d c n) cs = true) (doc_order d).

Definition attr (d : document) (k : string) (n : nat) : option string :=
  get_el d n ≫= fun e => el_attrs e !! k.

(** [document.getElementById(s)]: the first connected node with that
    id; the empty string matches nothing. *)
Definition get_by_id (s : string) (d : document) : option nat :=
  if bool_decide (s = "") then None
  else head (filter (fun n => attr d "id" n = Some s) (doc_order d)).

(** [document.createElement(tag)]: a fresh, unconnected node. *)
Definition create_el (d : document) : nat * document :=
  (doc_next d, mk_doc (<[doc_next d := new_elem]> (doc_elems d)) (doc_order d)
                 (S (doc_next d))).

(** [p.appendChild(c)] for a fresh [c]: [c] becomes the last child of
    [p], and is connected when [p] is. *)
Definition append_child (p c : nat) (d : document) : document :=
  let d1 := upd_el c (set_parent (Some p)) (upd_el p (fun e => set_children (el_children e ++ [c]) e) d) in
  if bool_decide (p ∈ doc_order d)
  then mk_doc (doc_elems d1) (doc_order d1 ++ [c]) (doc_next d1)
  else d1.

Definition children (d : document) (p : nat) : list nat :=
  match get_el d p with Some e => el_children e | None => [] end.

(** [c.remove()]: [c] leaves its parent and the document. *)
Definition remove_el (c : nat) (d : document) : document :=
  let d1 := match get_el d c ≫= el_parent with
            | Some p => upd_el p (fun e => set_children (filter (fun x => x ≠ c) (el_children e)) e) d
            | None => d
            end in
  mk_doc (doc_elems (upd_el c (set_parent None) d1))
    (filter (fun x => x ≠ c) (doc_order d1)) (doc_next d1).

(** [p.innerHTML = '']: every child of [p] leaves it and the document. *)
Definition clear_children (p : nat) (d : document) : document :=
  let cs := children d p in
  let d1 := foldr (fun c d' => upd_el c (set_parent None) d') (upd_el p (set_children []) d) cs in
  mk_doc (doc_elems d1) (filter (fun x => x ∉ cs) (doc_order d1)) (doc_next d1).

(** [document.head.appendChild(c)]: [c] is connected; the head's own
    child list is not tracked, since the code never reads it. *)
Definition append_head (c : nat) (d : document) : document :=
  mk_doc (doc_elems d) (doc_order d ++ [c]) (doc_next d).

(** Every stored node was numbered before [doc_next]. *)
Definition doc_wf (d : document) : Prop :=
  forall m, is_Some (get_el d m) -> m < doc_next d.

(** Every connected node was numbered before [doc_next]. *)
Definition order_wf (d : document) : Prop :=
  Forall (fun m => m < doc_next d) (doc_order d).

(** The connected nodes whose [id] is [s], in tree order: the candidates
    of [getElementById], which returns the first. *)
Definition ids_of (s : string) (d : document) : list nat :=
  filter (fun n => attr d "id" n = Some s) (doc_order d).

(** [n] lies inside [f]: [f] is a proper ancestor of [n].  The
    fuel bounds the walk up the parents by the number of nodes. *)
Fixpoint inside (fuel : nat) (d : document) (f n : nat) : bool :=
  match fuel with
  | O => false
  | S k =>
      match get_el d n ≫= el_parent with
      | Some p => bool_decide (p = f) || inside k d f p
      | None => false
      end
  end.

(** The connected descendants of [f], in tree order: the nodes
    [f.querySelectorAll(...)] searches. *)
Definition descendants (d : document) (f : nat) : list nat :=
  filter (fun n => inside (doc_next d) d f n = true) (doc_order d).

(** [el.querySelectorAll('.c')] *)
Definition query_within (d : document) (el : nat) (c : string) : list nat :=
  filter (fun n => has_class d c n = true) (descendants d el).

(** ** Lemmas on the store *)

Lemma get_upd_eq d n f : get_el (upd_el n f d) n = f <$> get_el d n.
Proof. unfold get_el, upd_el. simpl. apply lookup_alter_eq. Qed.

Lemma get_upd_ne d n m f : n ≠ m -> get_el (upd_el n f d) m = get_el d m.
Proof. intros H. unfold get_el, upd_el. simpl. by apply lookup_alter_ne. Qed.

Lemma upd_el_order d n f : doc_order (upd_el n f d) = doc_order d.
Proof. done. Qed.

Lemma upd_el_next d n f : doc_next (upd_el n f d) = doc_next d.
Proof. done. Qed.

Lemma children_upd_ne d n m f : n ≠ m -> children (upd_el n f d) m = children d m.
Proof. intros H. unfold children. by rewrite get_upd_ne. Qed.

Lemma class_contains_add c e : class_contains c (class_add c e) = true.
Proof.
  unfold class_add. destruct (class_contains c e) eqn:E; [done|].
  unfold class_contains. simpl. apply bool_decide_eq_true_2. set_solver.
Qed.

Lemma class_contains_remove c e : class_contains c (class_remove c e) = false.
Proof.
  unfold class_contains, class_remove. simpl. apply bool_decide_eq_false_2.
  intros [Hne _]%list_elem_of_filter. done.
Qed.

Lemma class_contains_toggle c e :
  class_contains c (class_toggle c e) = negb (class_contains c e).
Proof.
  unfold class_toggle. destruct (class_contains c e) eqn:E; simpl.
  - apply class_contains_remove.
  - apply class_contains_add.
Qed.

#[export] Hint Rewrite get_upd_eq upd_el_order upd_el_next class_contains_add
  class_contains_remove class_contains_toggle : js_rw.

(** ** Reading a transform back *)

(** The transform list of an element: [Some []] when no inline transform
    is set, [None] when it holds something else ([none]). *)
Definition transform_of (e : elem) : option (list tfun) :=
  match style_get "transform" e with
  | None => Some []
  | Some (CTransform fs) => Some fs
  | Some _ => None
  end.

Lemma transform_of_append f e fs :
  transform_of e = Some fs -> transform_of (transform_append f e) = Some (fs ++ [f]).
Proof.
  unfold transform_of, transform_append, style_set, style_get.
  destruct (el_style e !! "transform") as [[]|] eqn:E; intros H; simplify_eq;
    simpl; by rewrite lookup_insert_eq.
Qed.

Lemma transform_of_upd_other (p : string) v e :
  p ≠ "transform" -> transform_of (style_set p v e) = transform_of e.
Proof.
  intros Hp. unfold transform_of, style_set, style_get. simpl.
  by rewrite lookup_insert_ne.
Qed.

Lemma create_el_new d : get_el (create_el d).2 (create_el d).1 = Some new_elem.
Proof. unfold get_el, create_el. simpl. by rewrite lookup_insert_eq. Qed.

Lemma create_el_old d m : m ≠ doc_next d -> get_el (create_el d).2 m = get_el d m.
Proof. intros H. unfold get_el, create_el. simpl. by rewrite lookup_insert_ne. Qed.

Lemma create_el_fresh d : doc_wf d -> get_el d (doc_next d) = None.
Proof.
  intros Hwf. destruct (get_el d (doc_next d)) eqn:E; [|done].
  assert (doc_next d < doc_next d) by (apply Hwf; by rewrite E). lia.
Qed.

Lemma create_el_wf d : doc_wf d -> doc_wf (create_el d).2.
Proof.
  intros Hwf m Hm. simpl. destruct (decide (m = doc_next d)) as [->|Hne]; [lia|].
  rewrite create_el_old in Hm by done. apply Hwf in Hm. lia.
Qed.

Lemma upd_el_wf d n f : doc_wf d -> doc_wf (upd_el n f d).
Proof.
  intros Hwf m Hm. simpl. apply Hwf. unfold get_el, upd_el in *. simpl in Hm.
  by apply lookup_alter_is_Some in Hm.
Qed.

Lemma append_child_wf p c d : doc_wf d -> doc_wf (append_child p c d).
Proof.
  intros Hwf. unfold append_child. pose proof (upd_el_wf _ c (set_parent (Some p))
    (upd_el_wf d p (fun e => set_children (el_children e ++ [c]) e) Hwf)) as H.
  case_bool_decide; [|done]. intros m Hm. by apply H.
Qed.

Lemma append_child_get_other p c d m :
  m ≠ p -> m ≠ c -> get_el (append_child p c d) m = get_el d m.
Proof.
  intros Hp Hc. unfold append_child.
  case_bool_decide; unfold get_el; simpl; rewrite !lookup_alter_ne by done; done.
Qed.

Lemma append_child_get_child p c d :
  p ≠ c -> get_el (append_child p c d) c = set_parent (Some p) <$> get_el d c.
Proof.
  intros Hpc. unfold append_child.
  case_bool_decide; unfold get_el; simpl;
    rewrite lookup_alter_eq, lookup_alter_ne by done; done.
Qed.

Lemma append_child_children p c d :
  p ≠ c -> is_Some (get_el d p) -> children (append_child p c d) p = children d p ++ [c].
Proof.
  intros Hpc [e He]. unfold append_child, children, get_el in *.
  case_bool_decide; simpl; rewrite lookup_alter_ne, lookup_alter_eq, He by done; done.
Qed.

Lemma append_child_next p c d : doc_next (append_child p c d) = doc_next d.
Proof. unfold append_child. by case_bool_decide. Qed.

Lemma append_head_get c d m : get_el (append_head c d) m = get_el d m.
Proof. done. Qed.

Lemma upd_el_is_Some d n f m : is_Some (get_el d m) -> is_Some (get_el (upd_el n f d) m).
Proof. unfold get_el, upd_el. simpl. intros H. by apply lookup_alter_is_Some. Qed.

Lemma append_child_is_Some p c d m :
  is_Some (get_el d m) -> is_Some (get_el (append_child p c d) m).
Proof.
  intros H. unfold append_child.
  assert (H' := upd_el_is_Some _ c (set_parent (Some p)) _
                 (upd_el_is_Some d p (fun e => set_children (el_children e ++ [c]) e) m H)).
  by case_bool_decide.
Qed.

(** Every stored node below [doc_next] other than [n] keeps its record
    when [n] is created, updated and attached to the head. *)
Lemma append_head_fresh_other d f m :
  doc_wf d -> is_Some (get_el d m) ->
  get_el (append_head (doc_next d) (upd_el (doc_next d) f (create_el d).2)) m = get_el d m.
Proof.
  intros Hwf Hm. assert (m < doc_next d) by (by apply Hwf).
  rewrite append_head_get, get_upd_ne by lia. apply create_el_old. lia.
Qed.

(** An update that keeps the child list keeps [children]. *)
Lemma children_upd_keep d c f p :
  (forall e, el_children (f e) = el_children e) -> children (upd_el c f d) p = children d p.
Proof.
  intros Hf. destruct (decide (c = p)) as [->|Hne]; [|by apply children_upd_ne].
  unfold children. rewrite get_upd_eq. destruct (get_el d p); simpl; [apply Hf|done].
Qed.

Lemma foldr_upd_children f cs d p :
  (forall e, el_children (f e) = el_children e) ->
  children (foldr (fun c d' => upd_el c f d') d cs) p = children d p.
Proof.
  intros Hf. induction cs as [|c cs IH]; simpl; [done|]. by rewrite children_upd_keep.
Qed.

Lemma foldr_upd_wf f cs d : doc_wf d -> doc_wf (foldr (fun c d' => upd_el c f d') d cs).
Proof. intros H. induction cs as [|c cs IH]; simpl; [done|]. by apply upd_el_wf. Qed.

Lemma foldr_upd_is_Some f cs d m :
  is_Some (get_el d m) -> is_Some (get_el (foldr (fun c d' => upd_el c f d') d cs) m).
Proof. intros H. induction cs as [|c cs IH]; simpl; [done|]. by apply upd_el_is_Some. Qed.

Lemma foldr_upd_next f cs d : doc_next (foldr (fun c d' => upd_el c f d') d cs) = doc_next d.
Proof. induction cs as [|c cs IH]; simpl; [done|]. done. Qed.

Lemma children_mk_doc d o n p : children (mk_doc (doc_elems d) o n) p = children d p.
Proof. done. Qed.

(** [p.innerHTML = '']: [p] has no children left. *)
Lemma clear_children_children p d :
  is_Some (get_el d p) -> children (clear_children p d) p = [].
Proof.
  intros [e He]. unfold clear_children. cbv zeta. rewrite children_mk_doc.
  rewrite foldr_upd_children by done. unfold children. by rewrite get_upd_eq, He.
Qed.

Lemma get_mk_doc d o n m : get_el (mk_doc (doc_elems d) o n) m = get_el d m.
Proof. done. Qed.

Lemma wf_mk_doc d o : doc_wf d -> doc_wf (mk_doc (doc_elems d) o (doc_next d)).
Proof. done. Qed.

Lemma clear_children_wf p d : doc_wf d -> doc_wf (clear_children p d).
Proof.
  intros H. unfold clear_children. cbv zeta. apply wf_mk_doc.
  by apply foldr_upd_wf, upd_el_wf.
Qed.

Lemma clear_children_is_Some p d m :
  is_Some (get_el d m) -> is_Some (get_el (clear_children p d) m).
Proof.
  intros H. unfold clear_children. cbv zeta. rewrite get_mk_doc.
  by apply foldr_upd_is_Some, upd_el_is_Some.
Qed.

(** An update that keeps the class list keeps every class query. *)
Lemma has_class_upd_keep d n f c m :
  (forall e, el_classes (f e) = el_classes e) -> has_class (upd_el n f d) c m = has_class d c m.
Proof.
  intros Hf. unfold has_class. destruct (decide (n = m)) as [->|Hne].
  - rewrite get_upd_eq. destruct (get_el d m); simpl; [|done].
    unfold class_contains. by rewrite Hf.
  - by rewrite get_upd_ne.
Qed.

Lemma query_classes_upd_keep cs n f d :
  (forall e, el_classes (f e) = el_classes e) -> query_classes cs (upd_el n f d) = query_classes cs d.
Proof.
  intros Hf. unfold query_classes. rewrite upd_el_order. apply list_filter_iff.
  intros m. enough (E : existsb (fun c => has_class (upd_el n f d) c m) cs =
                        existsb (fun c => has_class d c m) cs) by (by rewrite E).
  induction cs as [|c cs IH]; simpl; [done|]. by rewrite has_class_upd_keep, IH.
Qed.

(** An update that keeps the inline style keeps every transform. *)
Lemma transform_of_upd_keep d n f m :
  (forall e, el_style (f e) = el_style e) ->
  transform_of <$> get_el (upd_el n f d) m = transform_of <$> get_el d m.
Proof.
  intros Hf. destruct (decide (n = m)) as [->|Hne].
  - rewrite get_upd_eq. destruct (get_el d m); simpl; [|done].
    unfold transform_of, style_get. by rewrite Hf.
  - by rewrite get_upd_ne.
Qed.

Lemma transform_of_style_set_other d n p v m :
  p ≠ "transform" ->
  transform_of <$> get_el (upd_el n (style_set p v) d) m = transform_of <$> get_el d m.
Proof.
  intros Hp. destruct (decide (n = m)) as [->|Hne].
  - rewrite get_upd_eq. destruct (get_el d m); simpl; [|done].
    by rewrite transform_of_upd_other.
  - by rewrite get_upd_ne.
Qed.

Lemma parent_upd_keep d b g n :
  (forall e, el_parent (g e) = el_parent e) ->
  get_el (upd_el b g d) n ≫= el_parent = get_el d n ≫= el_parent.
Proof.
  intros Hg. destruct (decide (b = n)) as [->|Hne].
  - rewrite get_upd_eq. destruct (get_el d n); simpl; [apply Hg|done].
  - by rewrite get_upd_ne.
Qed.

Lemma inside_upd_keep fuel d b g f n :
  (forall e, el_parent (g e) = el_parent e) -> inside fuel (upd_el b g d) f n = inside fuel d f n.
Proof.
  intros Hg. revert n. induction fuel as [|k IH]; intros n; simpl; [done|].
  rewrite parent_upd_keep by done. destruct (get_el d n ≫= el_parent); [|done]. by rewrite IH.
Qed.


Lemma class_contains_toggle_other c c' e :
  c' ≠ c -> class_contains c' (class_toggle c e) = class_contains c' e.
Proof.
  intros Hne. unfold class_toggle, class_contains, class_remove, class_add.
  destruct (bool_decide (c ∈ el_classes e)); simpl; apply bool_decide_ext.
  - rewrite list_elem_of_filter. naive_solver.
  - unfold class_contains. case_bool_decide; simpl; [done|].
    rewrite elem_of_app, list_elem_of_singleton. naive_solver.
Qed.

Lemma has_class_toggle_eq d n c :
  is_Some (get_el d n) -> has_class (upd_el n (class_toggle c) d) c n = negb (has_class d c n).
Proof.
  intros [e He]. unfold has_class. rewrite get_upd_eq, He. apply class_contains_toggle.
Qed.

Lemma has_class_toggle_other d n c c' m :
  n ≠ m \/ c' ≠ c -> has_class (upd_el n (class_toggle c) d) c' m = has_class d c' m.
Proof.
  intros H. destruct (decide (n = m)) as [->|Hne].
  - unfold has_class. rewrite get_upd_eq. destruct (get_el d m); simpl; [|done].
    apply class_contains_toggle_other. naive_solver.
  - unfold has_class. by rewrite get_upd_ne.
Qed.

Lemma descendants_upd_keep d n f el :
  (forall e, el_parent (f e) = el_parent e) -> descendants (upd_el n f d) el = descendants d el.
Proof.
  intros Hf. unfold descendants. rewrite upd_el_order, upd_el_next.
  apply list_filter_iff. intros m. by rewrite inside_upd_keep.
Qed.

Lemma query_within_upd_keep d n f el c :
  (forall e, el_parent (f e) = el_parent e) ->
  (forall m, has_class (upd_el n f d) c m = has_class d c m) ->
  query_within (upd_el n f d) el c = query_within d el c.
Proof.
  intros Hf Hc. unfold query_within. rewrite descendants_upd_keep by done.
  apply list_filter_iff. intros m. by rewrite Hc.
Qed.

#[export] Hint Rewrite has_class_toggle_other class_contains_toggle_other : js_rw.

Lemma class_toggle_parent c e : el_parent (class_toggle c e) = el_parent e.
Proof. unfold class_toggle, class_add. by repeat case_match. Qed.

Lemma class_toggle_style c e : el_style (class_toggle c e) = el_style e.
Proof. unfold class_toggle, class_add. by repeat case_match. Qed.

Lemma class_contains_add_other c c' e :
  c' ≠ c -> class_contains c' (class_add c e) = class_contains c' e.
Proof.
  intros Hne. unfold class_add. case_match; [done|].
  unfold class_contains. simpl. apply bool_decide_ext.
  rewrite elem_of_app, list_elem_of_singleton. naive_solver.
Qed.

Lemma has_class_add_other d n c c' m :
  c' ≠ c -> has_class (upd_el n (class_add c) d) c' m = has_class d c' m.
Proof.
  intros Hne. unfold has_class. destruct (decide (n = m)) as [->|Hm].
  - rewrite get_upd_eq. destruct (get_el d m); simpl; [|done].
    by apply class_contains_add_other.
  - by rewrite get_upd_ne.
Qed.

Lemma has_class_style_set d n p v c m :
  has_class (upd_el n (style_set p v) d) c m = has_class d c m.
Proof. by apply has_class_upd_keep. Qed.

Lemma style_get_set_eq p v e : style_get p (style_set p v e) = Some v.
Proof. unfold style_get, style_set. simpl. apply lookup_insert_eq. Qed.

Lemma style_get_set_ne p p' v e : p' ≠ p -> style_get p (style_set p' v e) = style_get p e.
Proof. intros H. unfold style_get, style_set. simpl. by apply lookup_insert_ne. Qed.

#[export] Hint Rewrite style_get_set_eq : js_rw.

(** [c.remove()] takes [c] out of its parent's children. *)
Lemma remove_el_children d c p :
  get_el d c ≫= el_parent = Some p -> p ≠ c ->
  children (remove_el c d) p = filter (fun x => x ≠ c) (children d p).
Proof.
  intros Hp Hne. unfold remove_el. rewrite Hp. unfold children.
  rewrite get_mk_doc, get_upd_ne by done. rewrite get_upd_eq. by destruct (get_el d p).
Qed.

(** ** Ids and the order invariant *)

Lemma get_by_id_ids s d : s ≠ "" -> get_by_id s d = head (ids_of s d).
Proof. intros H. unfold get_by_id. by case_bool_decide. Qed.

Lemma attr_upd_keep d n f k m :
  (forall e, el_attrs (f e) = el_attrs e) -> attr (upd_el n f d) k m = attr d k m.
Proof.
  intros Hf. unfold attr. destruct (decide (n = m)) as [->|Hne].
  - rewrite get_upd_eq. destruct (get_el d m); simpl; [by rewrite Hf | done].
  - by rewrite get_upd_ne.
Qed.

Lemma attr_upd_ne d n f k m : n ≠ m -> attr (upd_el n f d) k m = attr d k m.
Proof. intros H. unfold attr. by rewrite get_upd_ne. Qed.

Lemma attr_create_old d k m : m ≠ doc_next d -> attr (create_el d).2 k m = attr d k m.
Proof. intros H. unfold attr. by rewrite create_el_old. Qed.

Lemma attr_create_new d k : attr (create_el d).2 k (doc_next d) = None.
Proof. unfold attr, get_el, create_el. simpl. by rewrite lookup_insert_eq. Qed.

Lemma attr_append_child p c d k m :
  m ≠ c -> attr (append_child p c d) k m = attr d k m.
Proof.
  intros Hm. unfold append_child, attr.
  assert (E : get_el (upd_el c (set_parent (Some p))
            (upd_el p (fun e => set_children (el_children e ++ [c]) e) d)) m ≫=
              (fun e => el_attrs e !! k) = get_el d m ≫= (fun e => el_attrs e !! k)).
  { rewrite get_upd_ne by done. fold (attr (upd_el p (fun e => set_children (el_children e ++ [c]) e) d) k m).
    by apply attr_upd_keep. }
  by case_bool_decide.
Qed.

Lemma append_child_order p c d :
  doc_order (append_child p c d) = doc_order d ++ (if bool_decide (p ∈ doc_order d) then [c] else []).
Proof. unfold append_child. case_bool_decide; [done|]. by rewrite app_nil_r. Qed.

(** A document grown at the end of its order, with the attributes of
    its old nodes kept: the old matches come first, then the new ones. *)
Lemma ids_of_grow s d d' extra :
  doc_order d' = doc_order d ++ extra ->
  Forall (fun m => attr d' "id" m = attr d "id" m) (doc_order d) ->
  ids_of s d' = ids_of s d ++ filter (fun n => attr d' "id" n = Some s) extra.
Proof.
  intros Ho Ha. unfold ids_of. rewrite Ho, filter_app. f_equal.
  apply filter_ext_Forall. eapply Forall_impl; [exact Ha|]. simpl. intros m ->. done.
Qed.

Lemma order_wf_create d : order_wf d -> order_wf (create_el d).2.
Proof. unfold order_wf. simpl. intros H. eapply Forall_impl; [exact H | simpl; lia]. Qed.

Lemma order_wf_upd d n f : order_wf d -> order_wf (upd_el n f d).
Proof. done. Qed.

Lemma order_wf_append_child p c d : c < doc_next d -> order_wf d -> order_wf (append_child p c d).
Proof.
  intros Hc H. unfold order_wf. rewrite append_child_order, append_child_next.
  apply Forall_app. split; [done|]. case_bool_decide; by constructor.
Qed.

Lemma order_wf_append_head c d : c < doc_next d -> order_wf d -> order_wf (append_head c d).
Proof. intros Hc H. unfold order_wf. simpl. apply Forall_app. by split; [|constructor]. Qed.

(** The old connected nodes are not the fresh one. *)
Lemma order_wf_fresh d : order_wf d -> Forall (fun m => m ≠ doc_next d) (doc_order d).
Proof. intros H. eapply Forall_impl; [exact H | simpl; lia]. Qed.

Lemma attr_append_child_child p c d k :
  p ≠ c -> attr (append_child p c d) k c = attr d k c.
Proof. intros H. unfold attr. rewrite append_child_get_child by done. by destruct (get_el d c). Qed.

(** Appending a fresh element that carries no [id] changes no id lookup. *)
Lemma ids_of_append_fresh s d p f :
  order_wf d -> p ≠ doc_next d -> (forall e, el_attrs (f e) = el_attrs e) ->
  ids_of s (append_child p (doc_next d) (upd_el (doc_next d) f (create_el d).2)) = ids_of s d.
Proof.
  intros Ho Hp Hf. pose proof (order_wf_fresh d Ho) as Hfr.
  rewrite (ids_of_grow s d _ (if bool_decide (p ∈ doc_order d) then [doc_next d] else [])).
  - case_bool_decide; rewrite ?app_nil_r; [|done].
    rewrite filter_cons_False; [by rewrite app_nil_r|].
    rewrite attr_append_child_child, attr_upd_keep, attr_create_new by done. done.
  - by rewrite append_child_order.
  - eapply Forall_impl; [exact Hfr|]. intros m Hm. cbv beta.
    rewrite attr_append_child, attr_upd_ne, attr_create_old by done. done.
Qed.

(** Connecting a fresh element with [document.head.appendChild]: it
    joins the id matches when its own [id] is [s]. *)
Lemma ids_of_append_head_new s d f :
  order_wf d ->
  ids_of s (append_head (doc_next d) (upd_el (doc_next d) f (create_el d).2)) =
  ids_of s d ++ (if decide (el_attrs (f new_elem) !! "id" = Some s) then [doc_next d] else []).
Proof.
  intros Ho. pose proof (order_wf_fresh d Ho) as Hfr.
  rewrite (ids_of_grow s d _ [doc_next d]); [| done |].
  - f_equal. unfold filter, list_filter, attr, get_el. simpl.
    rewrite lookup_alter_eq, lookup_insert_eq. simpl. by case_decide.
  - eapply Forall_impl; [exact Hfr|]. intros m Hm. simpl.
    change (attr (upd_el (doc_next d) f (create_el d).2) "id" m = attr d "id" m).
    by rewrite attr_upd_ne, attr_create_old.
Qed.

Lemma append_head_fresh_wf d f :
  doc_wf d -> order_wf d ->
  doc_wf (append_head (doc_next d) (upd_el (doc_next d) f (create_el d).2)) /\
  order_wf (append_head (doc_next d) (upd_el (doc_next d) f (create_el d).2)).
Proof.
  intros Hw Ho. split.
  - apply wf_mk_doc, upd_el_wf, create_el_wf, Hw.
  - apply order_wf_append_head; [simpl; lia|]. by apply order_wf_upd, order_wf_create.
Qed.
