(* ===== verification/Timers.v ===== *)
(** * The event loop's two schedulers: [setTimeout] and [requestAnimationFrame]

    The code hands closures to the browser with [setTimeout(f, d)] (the
    form, the ripple, the entrance animations, the touch feedback, the
    staggered skills, the bootstrap) and [requestAnimationFrame(f)] (the
    pointer throttle, the floating animation).  This file models the two
    queues of the HTML event loop, generic in the type [T] of closures:

    - a timer is due at [now + d] and carries the id [setTimeout]
      returned; timers fire by due time and, on equal due times, in the
      order they were registered;
    - the animation-frame callbacks registered before a frame all run in
      that frame, in registration order; a callback registered while the
      frame runs waits for the next frame.

    [earliest] is the queue's selection; [earliest_least] proves it
    refines the abstract "least (due, id) first" rule.  [run_timers] runs
    every timer due up to a time with fuel; [run_timers_total] proves
    that fuel equal to the load of the queue is enough whenever a
    callback only schedules lighter work than itself, and
    [run_timers_drains] that no due timer is left behind. *)

From S2P Require Import Prelude.

Section Sched.
Context {T : Type}.

Record timer := Timer { t_due : N; t_id : N; t_task : T }.

Record sched := Sched {
  now : N;               (** the current time in ms *)
  next_id : N;           (** the id the next [setTimeout] returns *)
  timers : list timer;   (** pending timers, in registration order *)
  frames : list T        (** callbacks for the next animation frame *)
}.

(** [setTimeout(x, d)] *)
Definition set_timeout (d : N) (x : T) (s : sched) : sched :=
  Sched (now s) (N.succ (next_id s))
    (timers s ++ [Timer (now s + d) (next_id s) x]) (frames s).

(** [requestAnimationFrame(x)] *)
Definition request_animation_frame (x : T) (s : sched) : sched :=
  Sched (now s) (next_id s) (timers s) (frames s ++ [x]).

(** The first of the timers with the least due time, and the others in
    their order. *)
Fixpoint earliest (l : list timer) : option (timer * list timer) :=
  match l with
  | [] => None
  | t :: l' =>
      match earliest l' with
      | Some (u, rest) =>
          if (t_due u <? t_due t)%N then Some (u, t :: rest) else Some (t, l')
      | None => Some (t, [])
      end
  end.

(** The next timer due at or before [limit], removed from the queue;
    the clock moves to its due time. *)
Definition pop_due (limit : N) (s : sched) : option (timer * sched) :=
  match earliest (timers s) with
  | Some (t, rest) =>
      if (t_due t <=? limit)%N
      then Some (t, Sched (N.max (now s) (t_due t)) (next_id s) rest (frames s))
      else None
  | None => None
  end.

(** ** The abstract rule: least (due, id) first *)

Definition timer_lt (t u : timer) : Prop :=
  (t_due t < t_due u)%N \/ (t_due t = t_due u /\ (t_id t < t_id u)%N).

(** Ids increase along the queue: [setTimeout] appends with a fresh,
    larger id. *)
Fixpoint ids_sorted (l : list timer) : Prop :=
  match l with
  | [] => True
  | t :: l' => Forall (fun u => (t_id t < t_id u)%N) l' /\ ids_sorted l'
  end.

Lemma earliest_None l : earliest l = None <-> l = [].
Proof.
  split; [|by intros ->]. destruct l; simpl; [done|].
  by destruct (earliest l) as [[u r]|]; [destruct (_ <? _)%N|].
Qed.

Lemma earliest_perm l t rest :
  earliest l = Some (t, rest) -> l ≡ₚ t :: rest.
Proof.
  revert t rest. induction l as [|x l IH]; intros t rest H; simpl in H; [done|].
  destruct (earliest l) as [[u r]|] eqn:E.
  - destruct (t_due u <? t_due x)%N; simplify_eq.
    + rewrite (IH _ _ eq_refl). apply Permutation_swap.
    + done.
  - apply earliest_None in E. subst. by simplify_eq.
Qed.

(** Refinement: on a queue whose ids increase, [earliest] returns the
    least timer for (due, id), and the rest of the queue. *)
Lemma earliest_least l t rest :
  ids_sorted l -> earliest l = Some (t, rest) ->
  Forall (fun u => timer_lt t u) rest.
Proof.
  unfold timer_lt.
  revert t rest. induction l as [|x l IH]; intros t rest Hs H; simpl in *; [done|].
  destruct Hs as [Hx Hs].
  destruct (earliest l) as [[u r]|] eqn:E.
  - pose proof (earliest_perm _ _ _ E) as Hp.
    pose proof (IH _ _ Hs eq_refl) as Hr.
    rewrite Hp in Hx. apply Forall_cons in Hx as [Hxu Hxr].
    destruct (N.ltb_spec (t_due u) (t_due x)); simplify_eq.
    + constructor; [lia|done].
    + rewrite Hp. constructor; [lia|].
      eapply Forall_impl; [apply Forall_and; split; [exact Hr|exact Hxr]|].
      intros v [Hv1 Hv2]. lia.
  - apply earliest_None in E. subst. by simplify_eq.
Qed.

(** Every other timer is due no earlier than the one selected. *)
Lemma earliest_min l t rest :
  earliest l = Some (t, rest) -> Forall (fun u => (t_due t <= t_due u)%N) rest.
Proof.
  revert t rest. induction l as [|x l IH]; intros t rest H; simpl in H; [done|].
  destruct (earliest l) as [[u r]|] eqn:E.
  - pose proof (IH _ _ eq_refl) as Hr. pose proof (earliest_perm _ _ _ E) as Hp.
    destruct (N.ltb_spec (t_due u) (t_due x)); simplify_eq.
    + constructor; [lia|done].
    + rewrite Hp. constructor; [lia|].
      eapply Forall_impl; [exact Hr|]. intros; simpl in *; lia.
  - apply earliest_None in E. subst. by simplify_eq.
Qed.

(** ** Well-formed schedulers *)

(** Ids increase along the queue and are below [next_id]; nothing
    pending is due in the past. *)
Definition sched_wf (s : sched) : Prop :=
  ids_sorted (timers s) /\
  Forall (fun t => (t_id t < next_id s)%N) (timers s) /\
  Forall (fun t => (now s <= t_due t)%N) (timers s).

Lemma ids_sorted_snoc l t :
  ids_sorted l -> Forall (fun u => (t_id u < t_id t)%N) l -> ids_sorted (l ++ [t]).
Proof.
  induction l as [|x l IH]; simpl; [done|].
  intros [Hx Hl] Hf. apply Forall_cons in Hf as [Hxt Hf].
  split; [|by apply IH]. apply Forall_app. split; [done|]. by constructor.
Qed.

Lemma ids_sorted_perm_earliest l t rest :
  ids_sorted l -> earliest l = Some (t, rest) -> ids_sorted rest.
Proof.
  revert t rest. induction l as [|x l IH]; intros t rest Hs H; simpl in *; [done|].
  destruct Hs as [Hx Hs].
  destruct (earliest l) as [[u r]|] eqn:E.
  - pose proof (earliest_perm _ _ _ E) as Hp.
    destruct (t_due u <? t_due x)%N; simplify_eq; simpl; [|done].
    split; [|by eapply IH]. rewrite Hp in Hx. by apply Forall_cons in Hx as [_ ?].
  - apply earliest_None in E. subst. by simplify_eq.
Qed.

Lemma set_timeout_wf d x s : sched_wf s -> sched_wf (set_timeout d x s).
Proof.
  intros (Hs & Hid & Hnow). unfold set_timeout. split_and!; cbn [timers now next_id t_id t_due].
  - by apply ids_sorted_snoc.
  - apply Forall_app. split; [|constructor; cbn [t_id]; [lia|done]].
    eapply Forall_impl; [exact Hid|]. intros; simpl in *; lia.
  - apply Forall_app. split; [done|]. constructor; cbn [t_due]; [lia|done].
Qed.

Lemma request_animation_frame_wf x s :
  sched_wf s -> sched_wf (request_animation_frame x s).
Proof. done. Qed.

Lemma pop_due_wf limit s t s' :
  sched_wf s -> pop_due limit s = Some (t, s') -> sched_wf s'.
Proof.
  intros (Hs & Hid & Hnow) H. unfold pop_due in H.
  destruct (earliest (timers s)) as [[u rest]|] eqn:E; [|done].
  destruct (t_due u <=? limit)%N; simplify_eq.
  pose proof (earliest_perm _ _ _ E) as Hp. pose proof (earliest_min _ _ _ E) as Hm.
  rewrite Hp in Hid, Hnow. apply Forall_cons in Hid as [_ Hid].
  apply Forall_cons in Hnow as [Hu Hnow].
  split_and!; simpl; [by eapply ids_sorted_perm_earliest|done|].
  eapply Forall_impl; [exact Hm|]. intros; simpl in *; lia.
Qed.

(** The popped timer was pending and due; the others stay. *)
Lemma pop_due_spec limit s t s' :
  pop_due limit s = Some (t, s') ->
  timers s ≡ₚ t :: timers s' /\ (t_due t <= limit)%N /\
  Forall (fun u => (t_due t <= t_due u)%N) (timers s').
Proof.
  unfold pop_due. destruct (earliest (timers s)) as [[u rest]|] eqn:E; [|done].
  destruct (N.leb_spec (t_due u) limit); [|done]. intros; simplify_eq; simpl.
  split_and!; [by apply earliest_perm|done|by eapply earliest_min].
Qed.

(** Nothing is popped exactly when no pending timer is due. *)
Lemma pop_due_None limit s :
  pop_due limit s = None -> Forall (fun u => (limit < t_due u)%N) (timers s).
Proof.
  unfold pop_due. destruct (earliest (timers s)) as [[u rest]|] eqn:E.
  - destruct (N.leb_spec (t_due u) limit); [done|]. intros _.
    rewrite (earliest_perm _ _ _ E). constructor; [done|].
    eapply Forall_impl; [by eapply earliest_min|]. intros; simpl in *; lia.
  - apply earliest_None in E. by rewrite E.
Qed.

(** The clock moving on to [limit] once nothing more is due. *)
Definition clock_to (limit : N) (s : sched) : sched :=
  Sched (N.max (now s) limit) (next_id s) (timers s) (frames s).

Lemma pop_due_single limit s t :
  timers s = [t] ->
  pop_due limit s =
    if (t_due t <=? limit)%N
    then Some (t, Sched (N.max (now s) (t_due t)) (next_id s) [] (frames s)) else None.
Proof. intros H. unfold pop_due. by rewrite H. Qed.

Lemma pop_due_nil limit s : timers s = [] -> pop_due limit s = None.
Proof. intros H. unfold pop_due. by rewrite H. Qed.

(** The first pending timer is popped when none of the others is due
    before it. *)
Lemma pop_due_head limit s t rest :
  timers s = t :: rest -> Forall (fun u => (t_due t <= t_due u)%N) rest ->
  (t_due t <= limit)%N ->
  pop_due limit s = Some (t, Sched (N.max (now s) (t_due t)) (next_id s) rest (frames s)).
Proof.
  intros H Hf Hl. unfold pop_due. rewrite H. simpl.
  destruct (earliest rest) as [[u r]|] eqn:E.
  - pose proof (earliest_perm _ _ _ E) as Hp. rewrite Hp in Hf.
    apply Forall_cons in Hf as [Hu _].
    destruct (N.ltb_spec (t_due u) (t_due t)); [lia|].
    by rewrite (proj2 (N.leb_le _ _) Hl).
  - apply earliest_None in E. subst. by rewrite (proj2 (N.leb_le _ _) Hl).
Qed.

End Sched.

Arguments sched : clear implicits.
Arguments timer : clear implicits.

(** ** Running the loop *)

Section Loop.
Context {T St : Type}.

(** What running one closure does to the page state and the schedulers
    (it may schedule more closures). *)
Variable run : T -> St * sched T -> St * sched T.

(** Run every timer due at or before [limit], least (due, id) first,
    then move the clock to [limit].  [None]: out of fuel. *)
Fixpoint run_timers (fuel : nat) (limit : N) (w : St * sched T)
    : option (St * sched T) :=
  match pop_due limit (snd w) with
  | None => Some (fst w, clock_to limit (snd w))
  | Some (t, s') =>
      match fuel with
      | O => None
      | S f => run_timers f limit (run (t_task t) (fst w, s'))
      end
  end.

Lemma run_timers_step fuel limit w :
  run_timers (S fuel) limit w =
    match pop_due limit (snd w) with
    | None => Some (fst w, clock_to limit (snd w))
    | Some (t, s') => run_timers fuel limit (run (t_task t) (fst w, s'))
    end.
Proof. simpl. by destruct (pop_due limit (snd w)) as [[??]|]. Qed.

Lemma run_timers_empty fuel limit w :
  timers (snd w) = [] -> run_timers fuel limit w = Some (fst w, clock_to limit (snd w)).
Proof. intros H. destruct fuel; simpl; by rewrite pop_due_nil. Qed.

Lemma run_timers_single_late fuel limit w t :
  timers (snd w) = [t] -> (limit < t_due t)%N ->
  run_timers fuel limit w = Some (fst w, clock_to limit (snd w)).
Proof.
  intros H Hl. destruct fuel; simpl; rewrite (pop_due_single _ _ t H);
    by replace (t_due t <=? limit)%N with false by (symmetry; apply N.leb_gt; lia).
Qed.

(** A single pending timer that is due runs, and the clock moves to it. *)
Lemma run_timers_single fuel limit w t :
  timers (snd w) = [t] -> (t_due t <= limit)%N ->
  run_timers (S fuel) limit w =
    run_timers fuel limit
      (run (t_task t) (fst w, Sched (N.max (now (snd w)) (t_due t)) (next_id (snd w)) [] (frames (snd w)))).
Proof.
  intros H Hl. rewrite run_timers_step, (pop_due_single _ _ t H).
  by rewrite (proj2 (N.leb_le _ _) Hl).
Qed.

Lemma run_timers_head fuel limit w t rest :
  timers (snd w) = t :: rest -> Forall (fun u => (t_due t <= t_due u)%N) rest ->
  (t_due t <= limit)%N ->
  run_timers (S fuel) limit w =
    run_timers fuel limit
      (run (t_task t) (fst w, Sched (N.max (now (snd w)) (t_due t)) (next_id (snd w)) rest (frames (snd w)))).
Proof. intros H Hf Hl. by rewrite run_timers_step, (pop_due_head _ _ t rest). Qed.

(** One animation frame: the callbacks registered so far run in order;
    those they register wait for the next frame. *)
Definition run_frame (w : St * sched T) : St * sched T :=
  let s := snd w in
  foldl (fun w' x => run x w') (fst w, Sched (now s) (next_id s) (timers s) [])
    (frames s).

(** A run that stops leaves no due timer behind. *)
Lemma run_timers_drains fuel limit w w' :
  run_timers fuel limit w = Some w' ->
  Forall (fun u => (limit < t_due u)%N) (timers (snd w')).
Proof.
  revert w. induction fuel as [|f IH]; intros w H; simpl in H;
    destruct (pop_due limit (snd w)) as [[t s']|] eqn:E; simplify_eq; simpl;
    first [by eapply IH | by apply pop_due_None].
Qed.

(** An invariant that every callback keeps, when it is popped from a
    state satisfying it, holds after the whole run. *)
Lemma run_timers_inv (I : St * sched T -> Prop) fuel limit w w' :
  (forall x s t s', I (x, s) -> pop_due limit s = Some (t, s') -> I (run (t_task t) (x, s'))) ->
  (forall x s, I (x, s) -> I (x, clock_to limit s)) ->
  I w -> run_timers fuel limit w = Some w' -> I w'.
Proof.
  intros Hrun Hclk. revert w. induction fuel as [|f IH]; intros [x s] Hw H; simpl in H;
    destruct (pop_due limit s) as [[t s']|] eqn:E; simplify_eq; auto.
  apply (IH _ (Hrun x s t s' Hw E) H).
Qed.

(** *** Termination by a load measure *)

(** A closure's weight bounds the work it schedules: its timers, and
    transitively theirs. *)
Variable weight : T -> nat.

Definition load (l : list (timer T)) : nat :=
  sum_list_with (fun t => S (weight (t_task t))) l.

Hypothesis run_load :
  forall x w, load (timers (snd (run x w))) <= load (timers (snd w)) + weight x.

Lemma load_perm l1 l2 : l1 ≡ₚ l2 -> load l1 = load l2.
Proof. induction 1; unfold load in *; simpl; lia. Qed.

Lemma pop_due_load limit s t s' :
  pop_due limit s = Some (t, s') ->
  load (timers s) = S (weight (t_task t)) + load (timers s').
Proof.
  intros H. destruct (pop_due_spec _ _ _ _ H) as [Hp _].
  by rewrite (load_perm _ _ Hp).
Qed.

(** Fuel equal to the load of the pending timers is enough. *)
Theorem run_timers_total fuel limit w :
  load (timers (snd w)) <= fuel -> is_Some (run_timers fuel limit w).
Proof.
  revert w. induction fuel as [|f IH]; intros w Hl; simpl;
    destruct (pop_due limit (snd w)) as [[t s']|] eqn:E; eauto.
  - apply pop_due_load in E. lia.
  - apply IH. pose proof (pop_due_load _ _ _ _ E).
    pose proof (run_load (t_task t) (fst w, s')). simpl in *. lia.
Qed.

End Loop.
