(* ===== verification/World.v ===== *)
(** * The state every handler threads: the controller, the page, the queues

    - [controller]: the fields of [this] in [CloudPortfolio] (set by
      [init], [setupIntersectionObserver] and [setupParallax]).
    - [handler]: the arrow functions the code passes to
      [addEventListener], one constructor each, with the variables they
      capture; [listener]: a registration (target, event type, handler).
    - [task]: the arrow functions passed to [setTimeout] and
      [requestAnimationFrame], with what they capture.
    - [page]: the controller, the document, the window, the listener
      registry and the [Math.random] stream; a [world] is a page with
      its two schedulers, the state of every handler of the program. *)

From S2P Require Import Prelude Dom Timers.

(** [{ el: document.querySelector(...), speed: ... }] of [setupParallax]. *)
Record binding := Binding { b_el : option nat; b_speed : Q }.

Record controller := mk_ctl {
  navbar : option nat;
  hamburger : option nat;
  navMenu : option nat;
  contactForm : option nat;
  particles : option nat;
  mouseX : Q;
  mouseY : Q;
  ticking : bool;
  isMobile : bool;
  observed : list nat;                       (** targets of [this.observer] *)
  parallaxElements : option (list binding)   (** [undefined] until set *)
}.

Definition set_mouse (x y : Q) (c : controller) : controller :=
  mk_ctl (navbar c) (hamburger c) (navMenu c) (contactForm c) (particles c)
    x y (ticking c) (isMobile c) (observed c) (parallaxElements c).

Definition set_ticking (b : bool) (c : controller) : controller :=
  mk_ctl (navbar c) (hamburger c) (navMenu c) (contactForm c) (particles c)
    (mouseX c) (mouseY c) b (isMobile c) (observed c) (parallaxElements c).

Definition set_isMobile (b : bool) (c : controller) : controller :=
  mk_ctl (navbar c) (hamburger c) (navMenu c) (contactForm c) (particles c)
    (mouseX c) (mouseY c) (ticking c) b (observed c) (parallaxElements c).

Definition set_observed (l : list nat) (c : controller) : controller :=
  mk_ctl (navbar c) (hamburger c) (navMenu c) (contactForm c) (particles c)
    (mouseX c) (mouseY c) (ticking c) (isMobile c) l (parallaxElements c).

Definition set_parallax (p : option (list binding)) (c : controller) : controller :=
  mk_ctl (navbar c) (hamburger c) (navMenu c) (contactForm c) (particles c)
    (mouseX c) (mouseY c) (ticking c) (isMobile c) (observed c) p.

(** ** Listeners *)

Inductive target := TWindow | TDocument | TNode (n : nat).

Inductive evtype :=
| EClick | ESubmit | EMouseMove | EScroll | EResize | EMouseEnter
| EMouseLeave | ETouchStart | ETouchEnd | EDOMContentLoaded | ELoad.

Inductive handler :=
| HAnchorClick (anchor : nat)      (** line 37: smooth scroll to the anchor's target *)
| HHamburgerClick                  (** line 46 *)
| HFormSubmit                      (** line 53 *)
| HMouseMove                       (** line 60 *)
| HScroll                          (** line 68 *)
| HResize                          (** line 73 *)
| HCardEnter (card : nat)          (** line 242 *)
| HCardLeave (card : nat)          (** line 252 *)
| HCardTouchStart (card : nat)     (** line 261 *)
| HCardTouchEnd (card : nat)       (** line 265 *)
| HButtonEnter (button : nat)      (** line 278 *)
| HButtonClick (button : nat)      (** line 282 *)
| HNavLinkClose                    (** line 368, added by [toggleMobileMenu] *)
| HDOMContentLoaded                (** line 509 *)
| HWindowLoad.                     (** line 581 *)

(** ** Decidable equality *)

#[export] Instance target_eq_dec : EqDecision target.
Proof. solve_decision. Defined.
#[export] Instance evtype_eq_dec : EqDecision evtype.
Proof. solve_decision. Defined.
#[export] Instance handler_eq_dec : EqDecision handler.
Proof. solve_decision. Defined.

Record listener := Listener { l_target : target; l_event : evtype; l_handler : handler }.

(** ** Closures handed to the schedulers *)

Inductive task :=
| KParallaxFrame                           (** line 185, a frame callback *)
| KSkillHide (item : nat)                  (** line 196, after [index * 200] ms *)
| KSkillShow (item : nat)                  (** line 201, after 100 ms *)
| KEntrance (el : nat)                     (** line 218, after 100 ms *)
| KSkillBar (bar : nat) (level : option string)  (** line 230, after 500 ms *)
| KTouchEnd (card : nat)                   (** line 266, after 150 ms *)
| KGlow (glow : nat)                       (** line 292, after 50 ms *)
| KRippleRemove (ripple : nat)             (** line 321, after 600 ms *)
| KFormSent (btn : nat) (original : string)   (** line 433, after 1500 ms *)
| KFormReset (btn : nat) (original : string)  (** line 437, after 2000 ms *)
| KBodyLoaded                              (** line 514, after 500 ms *)
| KFloat (el : nat) (start : option N) (duration distance : Q).
                                           (** line 473, a frame callback *)

(** ** The page *)

Record window := mk_win {
  innerWidth : Q;
  innerHeight : Q;
  pageYOffset : Q;
  scroll_requests : list Q    (** [window.scrollTo({top})] calls, in order *)
}.

Record page := mk_page {
  ctl : controller;
  doc : document;
  win : window;
  listeners : list listener;   (** registrations, in order *)
  rng : nat -> Q;              (** the values [Math.random()] returns *)
  rng_next : nat               (** how many have been drawn *)
}.

Definition world := (page * sched task)%type.

Definition set_ctl (c : controller) (p : page) : page :=
  mk_page c (doc p) (win p) (listeners p) (rng p) (rng_next p).

Definition set_doc (d : document) (p : page) : page :=
  mk_page (ctl p) d (win p) (listeners p) (rng p) (rng_next p).

Definition set_win (w : window) (p : page) : page :=
  mk_page (ctl p) (doc p) w (listeners p) (rng p) (rng_next p).

Definition set_listeners (l : list listener) (p : page) : page :=
  mk_page (ctl p) (doc p) (win p) l (rng p) (rng_next p).

(** [Math.random()] *)
Definition random (p : page) : Q * page :=
  (rng p (rng_next p), mk_page (ctl p) (doc p) (win p) (listeners p) (rng p) (S (rng_next p))).

(** Updating one part of the world. *)
Definition upd_ctl (f : controller -> controller) (w : world) : world :=
  (set_ctl (f (ctl w.1)) w.1, w.2).

Definition upd_doc (f : document -> document) (w : world) : world :=
  (set_doc (f (doc w.1)) w.1, w.2).

(** [target.addEventListener(type, handler)]: every call of the code
    passes a fresh arrow function, so a registration is never merged with
    an earlier one. *)
Definition add_listener (t : target) (e : evtype) (h : handler) (w : world) : world :=
  (set_listeners (listeners w.1 ++ [Listener t e h]) w.1, w.2).

Definition set_timeout_w (d : N) (k : task) (w : world) : world :=
  (w.1, set_timeout d k w.2).

Definition request_frame_w (k : task) (w : world) : world :=
  (w.1, request_animation_frame k w.2).

(** The handlers a dispatch of [e] at [t] runs: those registered before
    the dispatch starts, in registration order. *)
Definition listeners_for (t : target) (e : evtype) (ls : list listener) : list handler :=
  l_handler <$> filter (fun l => l_target l = t /\ l_event l = e) ls.

(** An event of type [e] at [t]: the handlers registered when the
    dispatch starts run in registration order; a handler registered
    during the dispatch waits for the next event. *)
Definition dispatch (run : handler -> world -> world) (t : target) (e : evtype)
    (w : world) : world :=
  foldl (fun w' h => run h w') w (listeners_for t e (listeners w.1)).

(** [window.scrollTo({top, behavior: 'smooth'})]: the request is
    recorded; the scroll itself is the browser's. *)
Definition scroll_to (top : Q) (w : world) : world :=
  let ww := win w.1 in
  (set_win (mk_win (innerWidth ww) (innerHeight ww) (pageYOffset ww)
              (scroll_requests ww ++ [top])) w.1, w.2).

#[export] Instance task_eq_dec : EqDecision task.
Proof. solve_decision. Defined.

(** ** A page with no elements, for concrete runs *)

Definition blank_doc : document := mk_doc ∅ [] 0.

Definition blank_ctl : controller :=
  mk_ctl None None None None None 0%Q 0%Q false false [] None.

Definition blank_world (width height : Q) : world :=
  (mk_page blank_ctl blank_doc (mk_win width height 0%Q []) [] (fun _ => 0%Q) 0,
   Sched 0%N 0%N [] []).

(** A document whose nodes [0 .. n-1] are the given elements, in tree
    order. *)
Definition doc_of (es : list elem) : document :=
  mk_doc (map_seq 0 es) (seq 0 (length es)) (length es).

Definition world_of (c : controller) (es : list elem) (width height : Q) : world :=
  (mk_page c (doc_of es) (mk_win width height 0%Q []) [] (fun _ => 0%Q) 0,
   Sched 0%N 0%N [] []).

Lemma doc_of_get es m : get_el (doc_of es) m = es !! m.
Proof. apply lookup_map_seq_0. Qed.

Lemma doc_of_wf es : doc_wf (doc_of es).
Proof.
  intros m Hm. rewrite doc_of_get in Hm. apply lookup_lt_is_Some in Hm. done.
Qed.

Lemma doc_of_order_wf es : order_wf (doc_of es).
Proof. unfold order_wf. simpl. apply Forall_forall. intros m Hm%elem_of_seq. lia. Qed.

Lemma listeners_for_app t e ls1 ls2 :
  listeners_for t e (ls1 ++ ls2) = listeners_for t e ls1 ++ listeners_for t e ls2.
Proof. unfold listeners_for. by rewrite filter_app, fmap_app. Qed.

(** ** Operations that only register listeners *)

(** [f] changes nothing but the registry, to which it appends
    registrations satisfying [P]. *)
Definition only_adds (P : listener -> Prop) (f : world -> world) : Prop :=
  forall w, exists extra, f w = (set_listeners (listeners w.1 ++ extra) w.1, w.2) /\ Forall P extra.

Lemma set_listeners_id (p : page) : set_listeners (listeners p) p = p.
Proof. by destruct p. Qed.

Lemma only_adds_id P : only_adds P (fun w => w).
Proof. intros [p s]. exists []. rewrite app_nil_r, set_listeners_id. done. Qed.

Lemma only_adds_add P t e h : P (Listener t e h) -> only_adds P (add_listener t e h).
Proof. intros H w. exists [Listener t e h]. by split; [|constructor]. Qed.

Lemma only_adds_comp P f g : only_adds P f -> only_adds P g -> only_adds P (fun w => g (f w)).
Proof.
  intros Hf Hg w. destruct (Hf w) as (e1 & -> & H1).
  destruct (Hg (set_listeners (listeners w.1 ++ e1) w.1, w.2)) as (e2 & -> & H2).
  exists (e1 ++ e2). split; [|by apply Forall_app_2]. simpl. by rewrite app_assoc.
Qed.

Lemma only_adds_foldl {A} P (step : A -> world -> world) (l : list A) :
  (forall x, only_adds P (step x)) -> only_adds P (fun w => foldl (fun w' x => step x w') w l).
Proof.
  intros Hs. induction l as [|x l IH]; [apply only_adds_id|].
  exact (only_adds_comp P (step x) (fun w => foldl (fun w' x => step x w') w l) (Hs x) IH).
Qed.

Lemma listeners_for_extra t e ls extra :
  Forall (fun l => l_target l ≠ t) extra -> listeners_for t e (ls ++ extra) = listeners_for t e ls.
Proof.
  intros H. rewrite listeners_for_app.
  enough (E : listeners_for t e extra = []) by (by rewrite E, app_nil_r).
  induction H as [|l extra Hl _ IH]; [done|]. unfold listeners_for in *.
  rewrite filter_cons_False by naive_solver. done.
Qed.

Lemma dispatch_none run t e w : listeners_for t e (listeners w.1) = [] -> dispatch run t e w = w.
Proof. unfold dispatch. by intros ->. Qed.

Lemma upd_doc_listeners f w : listeners (upd_doc f w).1 = listeners w.1.
Proof. done. Qed.

Lemma upd_ctl_listeners f w : listeners (upd_ctl f w).1 = listeners w.1.
Proof. done. Qed.

Lemma set_timeout_w_page d k w : (set_timeout_w d k w).1 = w.1.
Proof. done. Qed.
