(* ===== verification/Pointer.v ===== *)
(** * Pointer-driven parallax: the mousemove listener and its frame throttle

    [src/app.js] lines 60-64 (the mousemove listener), 171-181
    ([updateParallax]) and 183-191 ([requestTick] and its frame
    callback).  A mousemove stores the normalized pointer in
    [this.mouseX]/[this.mouseY] and asks for a frame unless one is
    pending ([this.ticking]); the frame translates every parallax target
    by [mouse * speed * 20] pixels, appended to its transform.

    Proved here: the normalized pointer lies in [-1, 1] for a pointer in
    the window; any burst of moves before a frame schedules exactly one
    frame, which reads the last position; the frame appends exactly one
    translation per binding to each target's transform (two bindings on
    one node append two); [ticking] and the pending frames stay in step. *)

From S2P Require Import Prelude Dom Timers World.

Module Pointer.

(** [(e.clientX / window.innerWidth) * 2 - 1] *)
Definition normalize (client inner : Q) : Q := (client / inner * 2 - 1)%Q.

(** [requestTick()], lines 183-191. *)
Definition requestTick (w : world) : world :=
  if ticking (ctl w.1) then w
  else upd_ctl (set_ticking true) (request_frame_w KParallaxFrame w).

(** The mousemove listener, lines 60-64. *)
Definition onMouseMove (clientX clientY : Q) (w : world) : world :=
  let ww := win w.1 in
  requestTick
    (upd_ctl (set_mouse (normalize clientX (innerWidth ww))
                        (normalize clientY (innerHeight ww))) w).

(** The body of the [forEach] of [updateParallax] for one binding. *)
Definition parallax_step (mx my : Q) (d : document) (b : binding) : document :=
  upd_opt (b_el b)
    (transform_append (Translate3d (mx * b_speed b * 20) (my * b_speed b * 20))) d.

(** [updateParallax()], lines 171-181. *)
Definition updateParallax (w : world) : world :=
  let c := ctl w.1 in
  if isMobile c then w
  else match parallaxElements c with
       | None => w
       | Some bs => upd_doc (fun d => foldl (parallax_step (mouseX c) (mouseY c)) d bs) w
       end.

(** The frame callback of [requestTick], lines 185-188. *)
Definition parallaxFrame (w : world) : world :=
  upd_ctl (set_ticking false) (updateParallax w).

(** A burst of mousemove events, in order. *)
Definition mouse_moves (ms : list (Q * Q)) (w : world) : world :=
  foldl (fun w' m => onMouseMove m.1 m.2 w') w ms.

(** Pending parallax frames. *)
Definition frame_count (w : world) : nat :=
  length (filter (fun k => k = KParallaxFrame) (frames w.2)).

(** [ticking] is set exactly when one parallax frame is pending. *)
Definition tick_inv (w : world) : Prop :=
  frame_count w = if ticking (ctl w.1) then 1 else 0.

(** The translation one binding contributes. *)
Definition shift (mx my : Q) (b : binding) : tfun :=
  Translate3d (mx * b_speed b * 20) (my * b_speed b * 20).

(** ** Lemmas *)

Lemma onMouseMove_ticking x y w :
  ticking (ctl w.1) = true ->
  onMouseMove x y w =
    upd_ctl (set_mouse (normalize x (innerWidth (win w.1)))
                       (normalize y (innerHeight (win w.1)))) w.
Proof. intros H. unfold onMouseMove, requestTick. simpl. by rewrite H. Qed.

(** Once a frame is pending, a burst of moves only records the last
    position. *)
Lemma mouse_moves_ticking ms x y w :
  ticking (ctl w.1) = true ->
  mouse_moves (ms ++ [(x, y)]) w =
    upd_ctl (set_mouse (normalize x (innerWidth (win w.1)))
                       (normalize y (innerHeight (win w.1)))) w.
Proof.
  revert w. induction ms as [|[x' y'] ms IH]; intros w Ht; simpl.
  - by apply onMouseMove_ticking.
  - rewrite onMouseMove_ticking by done. by rewrite IH.
Qed.

(** C32: a pointer inside the window ([0 <= clientX <= innerWidth],
    likewise vertically) is stored as a coordinate in [-1, 1]. *)
Theorem normalize_bounds c inner :
  (0 < inner)%Q -> (0 <= c <= inner)%Q -> (-1 <= normalize c inner <= 1)%Q.
Proof.
  intros Hi [H0 H1]. unfold normalize.
  assert (0 <= c / inner)%Q by (apply Qle_shift_div_l; lra).
  assert (c / inner <= 1)%Q by (apply Qle_shift_div_r; lra).
  lra.
Qed.

(** The parallax fold on one node: it appends the shifts of the bindings
    that point at that node, in binding order. *)
Lemma parallax_fold_transform mx my bs d n e fs :
  get_el d n = Some e -> transform_of e = Some fs ->
  exists e', get_el (foldl (parallax_step mx my) d bs) n = Some e' /\
    transform_of e' =
      Some (fs ++ (shift mx my <$> filter (fun b => b_el b = Some n) bs)).
Proof.
  revert d e fs. induction bs as [|b bs IH]; intros d e fs He Hf; simpl.
  - exists e. by rewrite app_nil_r.
  - change (parallax_step mx my d b) with
      (upd_opt (b_el b) (transform_append (shift mx my b)) d).
    destruct (b_el b) as [m|] eqn:Hb; simpl.
    + destruct (decide (m = n)) as [->|Hne].
      * rewrite filter_cons_True by done. simpl.
        destruct (IH (upd_el n (transform_append (shift mx my b)) d)
                    (transform_append (shift mx my b) e) (fs ++ [shift mx my b]))
          as (e' & H1 & H2).
        { by rewrite get_upd_eq, He. }
        { by apply transform_of_append. }
        exists e'. split; [done|]. by rewrite H2, <- app_assoc.
      * rewrite filter_cons_False by congruence.
        apply (IH _ e); [by rewrite get_upd_ne | done].
    + rewrite filter_cons_False by congruence. by apply (IH _ e).
Qed.

Lemma frame_count_app (l : list task) k :
  length (filter (fun k' => k' = KParallaxFrame) (l ++ [k])) =
  length (filter (fun k' => k' = KParallaxFrame) l) +
    (if decide (k = KParallaxFrame) then 1 else 0).
Proof.
  rewrite filter_app, length_app. f_equal.
  unfold filter, list_filter. by case_decide.
Qed.

(** ** Properties *)

(** C1: the frame throttle.  From a state with no frame pending, any
    burst of mousemove events schedules exactly one animation frame and
    no timer, leaves the document alone, sets [ticking], and the stored
    pointer is the normalized position of the last event. *)
Theorem mousemove_burst_one_frame ms x y w :
  ticking (ctl w.1) = false ->
  let w' := mouse_moves (ms ++ [(x, y)]) w in
  frames w'.2 = frames w.2 ++ [KParallaxFrame] /\
  timers w'.2 = timers w.2 /\ doc w'.1 = doc w.1 /\
  ticking (ctl w'.1) = true /\
  mouseX (ctl w'.1) = normalize x (innerWidth (win w.1)) /\
  mouseY (ctl w'.1) = normalize y (innerHeight (win w.1)).
Proof.
  intros Ht. simpl. destruct ms as [|[x0 y0] ms]; simpl.
  - unfold onMouseMove, requestTick. simpl. by rewrite Ht.
  - assert (Hw : onMouseMove x0 y0 w =
      upd_ctl (set_ticking true) (request_frame_w KParallaxFrame
        (upd_ctl (set_mouse (normalize x0 (innerWidth (win w.1)))
                            (normalize y0 (innerHeight (win w.1)))) w))).
    { unfold onMouseMove, requestTick. simpl. by rewrite Ht. }
    rewrite Hw, mouse_moves_ticking by done. done.
Qed.

(** The witness: three moves over a 1000x800 window schedule one frame
    and keep the last position (300, 200) as (-2/5, -1/2). *)
Lemma mousemove_burst_one_frame_witness :
  ticking (ctl (blank_world 1000 800).1) = false /\
  frames (mouse_moves ([(10, 10); (500, 400)] ++ [(300, 200)])%Q (blank_world 1000 800)).2
    = [KParallaxFrame] /\
  (mouseX (ctl (mouse_moves ([(10, 10); (500, 400)] ++ [(300, 200)])%Q
                 (blank_world 1000 800)).1) == -2 # 5)%Q.
Proof.
  pose proof (mousemove_burst_one_frame [(10, 10); (500, 400)]%Q 300%Q 200%Q
                (blank_world 1000 800) eq_refl) as H.
  cbv zeta in H. destruct H as (H1 & _ & _ & _ & H5 & _).
  split; [reflexivity|]. split; [exact H1|]. rewrite H5. reflexivity.
Defined.

(** C2: the frame reads the pointer stored last and appends to every
    target, in binding order, one [translate3d(mouseX * speed * 20px,
    mouseY * speed * 20px, 0)] per binding that names it (so a node named
    twice drifts twice), on desktop; it then clears [ticking]. *)
Theorem parallaxFrame_transform w bs n e fs :
  isMobile (ctl w.1) = false -> parallaxElements (ctl w.1) = Some bs ->
  get_el (doc w.1) n = Some e -> transform_of e = Some fs ->
  ticking (ctl (parallaxFrame w).1) = false /\
  exists e', get_el (doc (parallaxFrame w).1) n = Some e' /\
    transform_of e' =
      Some (fs ++ (shift (mouseX (ctl w.1)) (mouseY (ctl w.1)) <$>
                     filter (fun b => b_el b = Some n) bs)).
Proof.
  intros Hm Hb He Hf. unfold parallaxFrame, updateParallax.
  rewrite Hm, Hb. simpl. split; [done|]. by eapply parallax_fold_transform.
Qed.

(** Two bindings on node 0 (speeds 1/2 and -3/10), pointer at (1, -1/2):
    the node gets [translate3d(10px, -5px, 0)] then [translate3d(-6px, 3px, 0)]. *)
Definition parallax_demo : world :=
  world_of (set_parallax (Some [Binding (Some 0) (1 # 2); Binding (Some 0) (-3 # 10)])
              (set_mouse 1 (-1 # 2) blank_ctl)) [new_elem] 1000 800.

Lemma parallaxFrame_transform_witness :
  exists e', get_el (doc (parallaxFrame parallax_demo).1) 0 = Some e' /\
    transform_of e' =
      Some ([] ++ (shift 1 (-1 # 2) <$> [Binding (Some 0) (1 # 2); Binding (Some 0) (-3 # 10)])).
Proof.
  destruct (parallaxFrame_transform parallax_demo
              [Binding (Some 0) (1 # 2); Binding (Some 0) (-3 # 10)] 0 new_elem []
              eq_refl eq_refl eq_refl eq_refl) as [_ H].
  exact H.
Defined.

(** On a phone, or before [setupParallax] ran, the frame leaves the
    document as it is. *)
Lemma parallaxFrame_inert w :
  isMobile (ctl w.1) = true \/ parallaxElements (ctl w.1) = None ->
  doc (parallaxFrame w).1 = doc w.1.
Proof.
  intros [H|H]; unfold parallaxFrame, updateParallax; simpl; rewrite H;
    [done | by destruct (isMobile _)].
Qed.

(** C3: a mousemove keeps [ticking] in step with the pending parallax
    frames: set exactly when one frame is pending. *)
Theorem onMouseMove_tick_inv x y w : tick_inv w -> tick_inv (onMouseMove x y w).
Proof.
  unfold tick_inv, onMouseMove, requestTick. simpl.
  destruct (ticking (ctl w.1)) eqn:Ht; simpl; intros H.
  - by rewrite Ht.
  - unfold frame_count in *. simpl. by rewrite frame_count_app, H.
Qed.

Lemma onMouseMove_tick_inv_witness :
  tick_inv (onMouseMove 300 200 (blank_world 1000 800)).
Proof. apply onMouseMove_tick_inv. reflexivity. Defined.

Lemma normalize_bounds_witness : (-1 <= normalize 300 1000 <= 1)%Q.
Proof. apply normalize_bounds; lra. Defined.

End Pointer.
