(* ===== verification/Viewport.v ===== *)
(** * Viewport class, decorative particles and parallax bindings

    [src/app.js] lines 13-32 ([init]), 105-155 ([createParticles]),
    157-169 ([setupParallax]) and 448-462 ([handleResize]).  A viewport
    at most 768 pixels wide is "mobile".  On desktop the controller puts
    20 particles into the [#particles] container, each with a random
    position, duration and delay drawn from [Math.random()], injects the
    [particle-styles] sheet once, and binds seven decorative elements to
    parallax speeds.  A resize that crosses the boundary rebuilds (to
    desktop) or empties (to mobile) the container.

    Proved here: the boundary is inclusive on the mobile side; one
    [createParticles] appends exactly 20 particles whose fields lie in
    the ranges the spec gives; the style sheet is injected at most once;
    a desktop-mobile-desktop round trip leaves exactly 20 particles and
    the same bindings; the particle count follows the viewport class
    along any sequence of resizes; and the bindings survive a switch to
    mobile (the code never clears them). *)

From S2P Require Import Prelude Dom Timers World.

Module Viewport.

(** [window.innerWidth <= 768], lines 29 and 450. *)
Definition mobile_width (width : Q) : bool := width <=? 768.

(** [init()], lines 13-32: the element references, the pointer, the
    throttle flag and the viewport class. *)
Definition init (w : world) : world :=
  let d := doc w.1 in
  upd_ctl (fun c => mk_ctl (get_by_id "navbar" d) (get_by_id "hamburger" d)
                      (get_by_id "nav-menu" d) (get_by_id "contact-form" d)
                      (get_by_id "particles" d) 0 0 false
                      (mobile_width (innerWidth (win w.1)))
                      (observed c) (parallaxElements c)) w.

(** The inline style [createParticles] writes with [style.cssText]
    (lines 112-125), given the four random draws. *)
Definition particle_style (left top dur delay : Q) : list (string * cssval) :=
  [("position", CStr "absolute"); ("width", CPx 4); ("height", CPx 4);
   ("background", CStr "#00ccff"); ("border-radius", CPct 50);
   ("box-shadow", CStr "0 0 10px #00ccff"); ("opacity", CNum (7 # 10));
   ("pointer-events", CStr "none"); ("left", CPct left); ("top", CPct top);
   ("animation", CAnim "particleFloat" dur); ("animation-delay", CSecs delay)].

(** The four [Math.random()] calls of the template literal, in order. *)
Definition draw4 (p : page) : Q * Q * Q * Q * page :=
  let '(a, p) := random p in
  let '(b, p) := random p in
  let '(c, p) := random p in
  let '(d, p) := random p in
  (a, b, c, d, p).

(** One iteration of the loop of lines 109-127. *)
Definition create_particle (cont : nat) (w : world) : world :=
  let '(n, d1) := create_el (doc w.1) in
  let '(r1, r2, r3, r4, pg) := draw4 (set_doc d1 w.1) in
  let st := particle_style (r1 * 100) (r2 * 100) (5 + r3 * 5) (r4 * 2) in
  let d2 := upd_el n (fun e => set_style_map (list_to_map st)
                                 (set_classes ["data-particle"] e)) (doc pg) in
  (set_doc (append_child cont n d2) pg, w.2).

(** Lines 130-154: the keyframes sheet, added when no node has its id. *)
Definition inject_particle_styles (w : world) : world :=
  match get_by_id "particle-styles" (doc w.1) with
  | Some _ => w
  | None =>
      let '(n, d1) := create_el (doc w.1) in
      upd_doc (fun _ => append_head n
                          (upd_el n (fun e => set_attr "id" "particle-styles" (set_tag "style" e)) d1)) w
  end.

(** [createParticles()], lines 105-155. *)
Definition createParticles (w : world) : world :=
  match particles (ctl w.1) with
  | None => w
  | Some cont =>
      if isMobile (ctl w.1) then w
      else inject_particle_styles (Nat.iter 20 (create_particle cont) w)
  end.

(** The seven targets of [setupParallax] and their speeds. *)
Definition parallax_targets : list (string * Q) :=
  [("cloud-1", 1 # 2); ("cloud-2", -3 # 10); ("cloud-3", 7 # 10);
   ("cloud-4", -2 # 5); ("server-1", 1 # 5); ("server-2", -1 # 5);
   ("hero-visual", 1 # 10)]%Q.

(** [document.querySelector('.c')]. *)
Definition query_first (c : string) (d : document) : option nat :=
  head (query_classes [c] d).

(** [setupParallax()], lines 157-169. *)
Definition setupParallax (w : world) : world :=
  if isMobile (ctl w.1) then w
  else upd_ctl (set_parallax (Some ((fun cs => Binding (query_first cs.1 (doc w.1)) cs.2)
                                      <$> parallax_targets))) w.

(** [handleResize()], lines 448-462. *)
Definition handleResize (w : world) : world :=
  let wasMobile := isMobile (ctl w.1) in
  let w1 := upd_ctl (set_isMobile (mobile_width (innerWidth (win w.1)))) w in
  let w2 := if wasMobile && negb (isMobile (ctl w1.1))
            then setupParallax (createParticles w1) else w1 in
  if negb wasMobile && isMobile (ctl w2.1)
  then match particles (ctl w2.1) with
       | Some p => upd_doc (clear_children p) w2
       | None => w2
       end
  else w2.

(** The browser resizing the window to [width] by [height]. *)
Definition resize_window (width height : Q) (w : world) : world :=
  let ww := win w.1 in
  (set_win (mk_win width height (pageYOffset ww) (scroll_requests ww)) w.1, w.2).

(** A resize event: the window changes, then the listener of line 73. *)
Definition onResize (width height : Q) (w : world) : world :=
  handleResize (resize_window width height w).

(** ** Particles *)

(** A particle as [createParticles] builds it, with the ranges of the
    spec: position in [0, 100), duration in [5, 10), delay in [0, 2). *)
Definition particle_ok (e : elem) : Prop :=
  el_classes e = ["data-particle"] /\
  exists l t du de, el_style e = list_to_map (particle_style l t du de) /\
    (0 <= l < 100)%Q /\ (0 <= t < 100)%Q /\ (5 <= du < 10)%Q /\ (0 <= de < 2)%Q.

(** [Math.random()] returns values in [0, 1). *)
Definition rng_ok (p : page) : Prop := forall n, (0 <= rng p n < 1)%Q.

Lemma children_create_el_old d m :
  m ≠ doc_next d -> children (create_el d).2 m = children d m.
Proof. intros H. unfold children. by rewrite create_el_old. Qed.

Lemma particle_ok_build cont r1 r2 r3 r4 :
  (0 <= r1 < 1)%Q -> (0 <= r2 < 1)%Q -> (0 <= r3 < 1)%Q -> (0 <= r4 < 1)%Q ->
  particle_ok (set_parent (Some cont)
    (set_style_map (list_to_map (particle_style (r1 * 100) (r2 * 100) (5 + r3 * 5) (r4 * 2)))
       (set_classes ["data-particle"] new_elem))).
Proof.
  intros H1 H2 H3 H4. split; [done|].
  eexists _, _, _, _. split; [reflexivity|]. split_and!; lra.
Qed.

(** One iteration of the loop: a fresh node numbered [doc_next] becomes
    the last child of the container and is a well-formed particle; no
    other node that existed changes, and four random values are drawn. *)
Lemma create_particle_spec cont w :
  doc_wf (doc w.1) -> is_Some (get_el (doc w.1) cont) -> rng_ok w.1 ->
  let n := doc_next (doc w.1) in
  let w' := create_particle cont w in
  doc_next (doc w'.1) = S n /\ doc_wf (doc w'.1) /\ ctl w'.1 = ctl w.1 /\
  rng w'.1 = rng w.1 /\ rng_next w'.1 = 4 + rng_next w.1 /\ w'.2 = w.2 /\
  children (doc w'.1) cont = children (doc w.1) cont ++ [n] /\
  (exists e, get_el (doc w'.1) n = Some e /\ particle_ok e) /\
  (forall m, m ≠ cont -> m ≠ n -> get_el (doc w'.1) m = get_el (doc w.1) m) /\
  is_Some (get_el (doc w'.1) cont).
Proof.
  intros Hwf Hc Hr n w'. subst n w'.
  assert (Hne : cont ≠ doc_next (doc w.1)).
  { intros ->. destruct Hc as [e He]. by rewrite create_el_fresh in He. }
  unfold create_particle, draw4, random, create_el. cbn -[append_child particle_style].
  set (d1 := {| doc_elems := _ ; doc_order := _ ; doc_next := _ |}).
  assert (Hd1 : d1 = (create_el (doc w.1)).2) by done.
  assert (Hn : doc_next d1 = S (doc_next (doc w.1))) by done.
  split_and!.
  - by rewrite append_child_next.
  - apply append_child_wf, upd_el_wf. rewrite Hd1. by apply create_el_wf.
  - done.
  - done.
  - lia.
  - done.
  - rewrite append_child_children by
      (done || (rewrite get_upd_ne by done; rewrite Hd1, create_el_old by done; done)).
    rewrite children_upd_ne by done. rewrite Hd1, children_create_el_old by done. done.
  - eexists. rewrite append_child_get_child by done.
    rewrite get_upd_eq, Hd1, create_el_new. simpl. split; [reflexivity|].
    apply particle_ok_build; apply Hr.
  - intros m Hm1 Hm2. rewrite append_child_get_other by done.
    rewrite get_upd_ne by done. rewrite Hd1, create_el_old by done. done.
  - apply append_child_is_Some, upd_el_is_Some. rewrite Hd1, create_el_old by done. done.
Qed.

(** [k] iterations: the nodes [n0 .. n0+k-1] are the new last children
    of the container, all well-formed particles. *)
Lemma create_particles_iter k cont w :
  doc_wf (doc w.1) -> is_Some (get_el (doc w.1) cont) -> rng_ok w.1 ->
  let n0 := doc_next (doc w.1) in
  let w' := Nat.iter k (create_particle cont) w in
  doc_next (doc w'.1) = n0 + k /\ doc_wf (doc w'.1) /\ ctl w'.1 = ctl w.1 /\
  rng w'.1 = rng w.1 /\ w'.2 = w.2 /\ is_Some (get_el (doc w'.1) cont) /\
  children (doc w'.1) cont = children (doc w.1) cont ++ seq n0 k /\
  Forall (fun n => exists e, get_el (doc w'.1) n = Some e /\ particle_ok e) (seq n0 k) /\
  (forall m, m ≠ cont -> m < n0 -> get_el (doc w'.1) m = get_el (doc w.1) m).
Proof.
  intros Hwf Hc Hr n0 w'. subst n0 w'.
  assert (Hlt : cont < doc_next (doc w.1)) by (by apply Hwf).
  induction k as [|k IH].
  - cbn [seq]. rewrite Nat.add_0_r, app_nil_r. split_and!; auto.
  - change (Nat.iter (S k) (create_particle cont) w)
      with (create_particle cont (Nat.iter k (create_particle cont) w)).
    destruct IH as (Hn & Hwf' & Hctl & Hrng & H2 & Hc' & Hch & Hall & Hold).
    assert (Hr' : rng_ok (Nat.iter k (create_particle cont) w).1) by (unfold rng_ok; by rewrite Hrng).
    destruct (create_particle_spec cont _ Hwf' Hc' Hr')
      as (Hn2 & Hwf2 & Hctl2 & Hrng2 & Hrn2 & H22 & Hch2 & Hnew & Hold2 & Hc2).
    rewrite Hn in *. split_and!.
    + lia.
    + done.
    + by rewrite Hctl2.
    + by rewrite Hrng2.
    + by rewrite H22.
    + done.
    + by rewrite Hch2, Hch, seq_S, app_assoc.
    + rewrite seq_S. apply Forall_app. split; [|constructor; [exact Hnew|constructor]].
      rewrite Forall_forall in *. intros m Hm. apply elem_of_seq in Hm as Hm'.
      rewrite Hold2 by lia. by apply Hall.
    + intros m Hm1 Hm2. rewrite Hold2 by lia. by apply Hold.
Qed.

Lemma inject_particle_styles_get w m :
  doc_wf (doc w.1) -> is_Some (get_el (doc w.1) m) ->
  get_el (doc (inject_particle_styles w).1) m = get_el (doc w.1) m.
Proof.
  intros Hwf Hm. unfold inject_particle_styles.
  destruct (get_by_id _ _); [done|]. by apply append_head_fresh_other.
Qed.

Lemma inject_particle_styles_wf w : doc_wf (doc w.1) -> doc_wf (doc (inject_particle_styles w).1).
Proof.
  intros Hwf. unfold inject_particle_styles. destruct (get_by_id _ _); [done|].
  simpl. apply upd_el_wf, create_el_wf, Hwf.
Qed.

Lemma inject_particle_styles_ctl w :
  ctl (inject_particle_styles w).1 = ctl w.1 /\ rng (inject_particle_styles w).1 = rng w.1.
Proof. unfold inject_particle_styles. by destruct (get_by_id _ _). Qed.

Lemma children_inject w p :
  doc_wf (doc w.1) -> is_Some (get_el (doc w.1) p) ->
  children (doc (inject_particle_styles w).1) p = children (doc w.1) p.
Proof. intros Hwf Hp. unfold children. by rewrite inject_particle_styles_get. Qed.

(** C4: on desktop, with the container present, [createParticles]
    appends exactly 20 new children to it, each a particle whose left
    and top lie in [0, 100), whose duration lies in [5, 10) seconds and
    whose delay lies in [0, 2) seconds. *)
Theorem createParticles_twenty w cont :
  particles (ctl w.1) = Some cont -> isMobile (ctl w.1) = false ->
  is_Some (get_el (doc w.1) cont) -> doc_wf (doc w.1) -> rng_ok w.1 ->
  exists new, length new = 20 /\
    children (doc (createParticles w).1) cont = children (doc w.1) cont ++ new /\
    Forall (fun n => exists e, get_el (doc (createParticles w).1) n = Some e /\ particle_ok e) new.
Proof.
  intros Hp Hm Hc Hwf Hr. unfold createParticles. rewrite Hp, Hm.
  destruct (create_particles_iter 20 cont w Hwf Hc Hr)
    as (_ & Hwf' & _ & _ & _ & Hc' & Hch & Hall & _).
  exists (seq (doc_next (doc w.1)) 20). split; [apply length_seq|]. split.
  - by rewrite children_inject, Hch.
  - rewrite Forall_forall in *. intros n Hn. destruct (Hall n Hn) as [e [He Hok]].
    exists e. split; [|done]. rewrite inject_particle_styles_get; [done|done|by rewrite He].
Qed.

(** A desktop page with an empty particle container as node 0. *)
Definition particles_demo : world :=
  world_of (mk_ctl None None None None (Some 0) 0 0 false false [] None)
    [new_elem] 1280 800.

Lemma createParticles_twenty_witness :
  exists new, length new = 20 /\
    children (doc (createParticles particles_demo).1) 0 =
      children (doc particles_demo.1) 0 ++ new /\
    Forall (fun n => exists e, get_el (doc (createParticles particles_demo).1) n = Some e
                               /\ particle_ok e) new.
Proof.
  apply (createParticles_twenty particles_demo 0); [reflexivity | reflexivity | | |];
    unfold particles_demo, world_of; simpl.
  - by rewrite doc_of_get.
  - apply doc_of_wf.
  - intros n. simpl. lra.
Defined.

(** ** Resizing *)

Lemma create_particle_keeps cont w :
  doc_wf (doc w.1) ->
  ctl (create_particle cont w).1 = ctl w.1 /\ rng (create_particle cont w).1 = rng w.1 /\
  (create_particle cont w).2 = w.2 /\ doc_wf (doc (create_particle cont w).1) /\
  (forall m, is_Some (get_el (doc w.1) m) -> is_Some (get_el (doc (create_particle cont w).1) m)).
Proof.
  intros Hwf. unfold create_particle, draw4, random, create_el. cbn -[append_child particle_style].
  set (d1 := {| doc_elems := _ ; doc_order := _ ; doc_next := _ |}).
  assert (Hd1 : d1 = (create_el (doc w.1)).2) by done.
  split_and!; [done|done|done| |].
  - apply append_child_wf, upd_el_wf. rewrite Hd1. by apply create_el_wf.
  - intros m Hm. apply append_child_is_Some, upd_el_is_Some.
    assert (m < doc_next (doc w.1)) by (by apply Hwf).
    by rewrite Hd1, create_el_old by lia.
Qed.

Lemma createParticles_keeps w :
  doc_wf (doc w.1) -> ctl (createParticles w).1 = ctl w.1 /\
  rng (createParticles w).1 = rng w.1 /\ doc_wf (doc (createParticles w).1) /\
  (forall m, is_Some (get_el (doc w.1) m) -> is_Some (get_el (doc (createParticles w).1) m)).
Proof.
  intros Hwf. unfold createParticles.
  destruct (particles (ctl w.1)) as [cont|] eqn:Hp; [|done].
  destruct (isMobile (ctl w.1)); [done|].
  assert (H : forall k, let w' := Nat.iter k (create_particle cont) w in
    ctl w'.1 = ctl w.1 /\ rng w'.1 = rng w.1 /\ doc_wf (doc w'.1) /\
    (forall m, is_Some (get_el (doc w.1) m) -> is_Some (get_el (doc w'.1) m))).
  { induction k as [|k (IH1 & IH2 & IH3 & IH4)]; [done|].
    change (Nat.iter (S k) (create_particle cont) w)
      with (create_particle cont (Nat.iter k (create_particle cont) w)).
    destruct (create_particle_keeps cont (Nat.iter k (create_particle cont) w) IH3)
      as (H1 & H2 & _ & H3 & H4).
    split_and!; [congruence|congruence|done|auto]. }
  destruct (H 20) as (H1 & H2 & H3 & H4). cbv zeta in *.
  destruct (inject_particle_styles_ctl (Nat.iter 20 (create_particle cont) w)) as [H5 H6].
  split_and!; [congruence|congruence|by apply inject_particle_styles_wf|].
  intros m Hm. rewrite inject_particle_styles_get; auto.
Qed.

Lemma setupParallax_doc w : doc (setupParallax w).1 = doc w.1 /\ rng (setupParallax w).1 = rng w.1.
Proof. unfold setupParallax. by destruct (isMobile _). Qed.

Lemma setupParallax_ctl w :
  particles (ctl (setupParallax w).1) = particles (ctl w.1) /\
  isMobile (ctl (setupParallax w).1) = isMobile (ctl w.1).
Proof. unfold setupParallax. destruct (isMobile (ctl w.1)) eqn:E; simpl; auto. Qed.

Lemma handleResize_to_mobile w :
  isMobile (ctl w.1) = false -> mobile_width (innerWidth (win w.1)) = true ->
  handleResize w =
    match particles (ctl w.1) with
    | Some p => upd_doc (clear_children p) (upd_ctl (set_isMobile true) w)
    | None => upd_ctl (set_isMobile true) w
    end.
Proof. intros Hm Hw. unfold handleResize. rewrite Hm, Hw. reflexivity. Qed.

Lemma handleResize_to_desktop w :
  isMobile (ctl w.1) = true -> mobile_width (innerWidth (win w.1)) = false ->
  handleResize w = setupParallax (createParticles (upd_ctl (set_isMobile false) w)).
Proof. intros Hm Hw. unfold handleResize. rewrite Hm, Hw. reflexivity. Qed.

Lemma handleResize_same w :
  isMobile (ctl w.1) = mobile_width (innerWidth (win w.1)) ->
  handleResize w = upd_ctl (set_isMobile (isMobile (ctl w.1))) w.
Proof.
  intros H. unfold handleResize. rewrite <- H.
  by destruct (isMobile (ctl w.1)).
Qed.

(** The particle count follows the viewport class. *)
Definition viewport_inv (w : world) : Prop :=
  doc_wf (doc w.1) /\ rng_ok w.1 /\
  forall cont, particles (ctl w.1) = Some cont ->
    is_Some (get_el (doc w.1) cont) /\
    length (children (doc w.1) cont) = if isMobile (ctl w.1) then 0 else 20.

(** C5: along any resize, the [#particles] container holds exactly 20
    children on desktop and none on mobile, provided it did before. *)
Theorem onResize_viewport_inv wd ht w : viewport_inv w -> viewport_inv (onResize wd ht w).
Proof.
  intros (Hwf & Hr & Hp). unfold onResize.
  set (w0 := resize_window wd ht w).
  assert (Hw0 : ctl w0.1 = ctl w.1 /\ doc w0.1 = doc w.1 /\ rng w0.1 = rng w.1
                /\ innerWidth (win w0.1) = wd) by done.
  destruct Hw0 as (Hc0 & Hd0 & Hr0 & Hi0).
  destruct (isMobile (ctl w.1)) eqn:Hm, (mobile_width wd) eqn:Hw.
  - rewrite handleResize_same by congruence. unfold viewport_inv. simpl.
    rewrite ?Hc0, ?Hd0, ?Hr0, Hm. done.
  - rewrite handleResize_to_desktop by congruence.
    set (w1 := upd_ctl (set_isMobile false) w0).
    assert (Hwf1 : doc_wf (doc w1.1)) by (simpl; rewrite ?Hd0; done).
    destruct (createParticles_keeps w1 Hwf1) as (Hc2 & Hr2 & Hwf2 & Hs2).
    destruct (setupParallax_doc (createParticles w1)) as [Hd3 Hr3].
    destruct (setupParallax_ctl (createParticles w1)) as [Hp3 Hm3].
    unfold viewport_inv, rng_ok. rewrite ?Hd3, ?Hr3, ?Hp3, ?Hm3, ?Hc2, ?Hr2. simpl.
    rewrite ?Hc0, ?Hr0. split_and!; [done|done|]. intros cont Hcont.
    destruct (Hp cont Hcont) as [Hex Hlen]. simpl in Hlen.
    assert (Hex1 : is_Some (get_el (doc w1.1) cont)) by (simpl; rewrite ?Hd0; done).
    split; [by apply Hs2|].
    destruct (createParticles_twenty w1 cont) as (new & Hl & Hch & _);
      [by simpl; rewrite ?Hc0; done | done | done | done | by unfold rng_ok; simpl; rewrite ?Hr0; done |].
    rewrite Hch, length_app, Hl. simpl. rewrite ?Hd0, Hlen. done.
  - rewrite handleResize_to_mobile by congruence. simpl. rewrite ?Hc0.
    destruct (particles (ctl w.1)) as [p|] eqn:Hpp.
    + unfold viewport_inv. simpl. rewrite ?Hc0, ?Hd0, ?Hr0, Hpp.
      destruct (Hp p eq_refl) as [Hex _].
      split_and!; [by apply clear_children_wf|done|]. intros cont [= <-].
      split; [by apply clear_children_is_Some|]. by rewrite clear_children_children.
    + unfold viewport_inv. simpl. rewrite ?Hc0, ?Hd0, ?Hr0, Hpp. done.
  - rewrite handleResize_same by congruence. unfold viewport_inv. simpl.
    rewrite ?Hc0, ?Hd0, ?Hr0, Hm. done.
Qed.

(** A phone-sized page with an empty particle container as node 0. *)
Definition mobile_demo : world :=
  world_of (mk_ctl None None None None (Some 0) 0 0 false true [] None) [new_elem] 375 800.

Lemma onResize_viewport_inv_witness : viewport_inv (onResize 1280 800 mobile_demo).
Proof.
  apply onResize_viewport_inv. unfold viewport_inv, mobile_demo, world_of. simpl.
  split_and!; [apply doc_of_wf | intros n; simpl; lra |].
  intros cont [= <-]. split; [by rewrite doc_of_get | reflexivity].
Defined.

Lemma setupParallax_bindings w :
  isMobile (ctl w.1) = false ->
  exists bs, parallaxElements (ctl (setupParallax w).1) = Some bs /\
             b_speed <$> bs = parallax_targets.*2.
Proof. intros H. unfold setupParallax. rewrite H. by eexists. Qed.

(** C6: a desktop page resized to a phone and back holds exactly 20
    particles, all fresh and well-formed, and one set of seven bindings
    with the speeds of [setupParallax], not a duplicated set. *)
Theorem resize_round_trip w cont wm wd ht1 ht2 :
  isMobile (ctl w.1) = false -> particles (ctl w.1) = Some cont ->
  is_Some (get_el (doc w.1) cont) -> doc_wf (doc w.1) -> rng_ok w.1 ->
  mobile_width wm = true -> mobile_width wd = false ->
  let w' := onResize wd ht2 (onResize wm ht1 w) in
  isMobile (ctl w'.1) = false /\
  length (children (doc w'.1) cont) = 20 /\
  Forall (fun n => exists e, get_el (doc w'.1) n = Some e /\ particle_ok e)
    (children (doc w'.1) cont) /\
  exists bs, parallaxElements (ctl w'.1) = Some bs /\ b_speed <$> bs = parallax_targets.*2.
Proof.
  intros Hm Hp Hc Hwf Hr Hwm Hwd w'.
  set (w0 := upd_doc (clear_children cont) (upd_ctl (set_isMobile true) (resize_window wm ht1 w))).
  assert (Hw0 : onResize wm ht1 w = w0).
  { unfold onResize. rewrite handleResize_to_mobile by done. simpl. by rewrite Hp. }
  set (w1 := upd_ctl (set_isMobile false) (resize_window wd ht2 w0)).
  assert (Hw' : w' = setupParallax (createParticles w1)).
  { subst w'. rewrite Hw0. unfold onResize. by rewrite handleResize_to_desktop. }
  rewrite Hw'.
  destruct (createParticles_twenty w1 cont) as (new & Hl & Hch & Hall);
    [done | done | by apply clear_children_is_Some | by apply clear_children_wf | done |].
  destruct (setupParallax_doc (createParticles w1)) as [Hd3 _].
  destruct (setupParallax_ctl (createParticles w1)) as [_ Hm3].
  destruct (createParticles_keeps w1) as (Hc2 & _); [by apply clear_children_wf|].
  rewrite Hd3, Hm3, Hc2. split; [done|].
  rewrite Hch. simpl. rewrite clear_children_children by done. simpl.
  split_and!; [done | done |]. apply setupParallax_bindings. by rewrite Hc2.
Qed.

Lemma resize_round_trip_witness :
  let w' := onResize 1280 800 (onResize 375 800 particles_demo) in
  isMobile (ctl w'.1) = false /\
  length (children (doc w'.1) 0) = 20 /\
  Forall (fun n => exists e, get_el (doc w'.1) n = Some e /\ particle_ok e)
    (children (doc w'.1) 0) /\
  exists bs, parallaxElements (ctl w'.1) = Some bs /\ b_speed <$> bs = parallax_targets.*2.
Proof.
  apply (resize_round_trip particles_demo 0 375 1280 800 800);
    unfold particles_demo, world_of; simpl; try reflexivity.
  - by rewrite doc_of_get.
  - apply doc_of_wf.
  - intros n. simpl. lra.
Defined.

(** C7: switching to a phone keeps the parallax bindings: [handleResize]
    empties the particle container but never resets
    [this.parallaxElements] (the frame callback checks [isMobile]
    instead). *)
Theorem handleResize_keeps_bindings w wm ht :
  isMobile (ctl w.1) = false -> mobile_width wm = true ->
  isMobile (ctl (onResize wm ht w).1) = true /\
  parallaxElements (ctl (onResize wm ht w).1) = parallaxElements (ctl w.1).
Proof.
  intros Hm Hw. unfold onResize. rewrite handleResize_to_mobile by done.
  simpl. by destruct (particles (ctl w.1)).
Qed.

Lemma handleResize_keeps_bindings_witness :
  isMobile (ctl (onResize 375 800 (setupParallax particles_demo)).1) = true /\
  parallaxElements (ctl (onResize 375 800 (setupParallax particles_demo)).1) =
    parallaxElements (ctl (setupParallax particles_demo).1).
Proof. apply handleResize_keeps_bindings; reflexivity. Defined.

Lemma create_particle_ctl cont w : ctl (create_particle cont w).1 = ctl w.1.
Proof.
  unfold create_particle.
  change (draw4 (set_doc (create_el (doc w.1)).2 w.1))
    with ((rng w.1 (rng_next w.1), rng w.1 (S (rng_next w.1)),
           rng w.1 (S (S (rng_next w.1))), rng w.1 (S (S (S (rng_next w.1)))),
           mk_page (ctl w.1) (create_el (doc w.1)).2 (win w.1) (listeners w.1) (rng w.1)
             (S (S (S (S (rng_next w.1))))))).
  done.
Qed.

Lemma upd_doc_ctl f w : ctl (upd_doc f w).1 = ctl w.1.
Proof. done. Qed.

Lemma createParticles_ctl w : ctl (createParticles w).1 = ctl w.1.
Proof.
  unfold createParticles. destruct (particles (ctl w.1)) as [cont|]; [|done].
  destruct (isMobile (ctl w.1)); [done|].
  assert (H : forall k, ctl (Nat.iter k (create_particle cont) w).1 = ctl w.1).
  { induction k as [|k IH]; [done|].
    change (Nat.iter (S k) (create_particle cont) w)
      with (create_particle cont (Nat.iter k (create_particle cont) w)).
    by rewrite create_particle_ctl. }
  unfold inject_particle_styles. case_match; [apply H|].
  destruct (create_el _). rewrite upd_doc_ctl. apply H.
Qed.

(** [handleResize] leaves the class the new width gives. *)
Lemma handleResize_class w : isMobile (ctl (handleResize w).1) = mobile_width (innerWidth (win w.1)).
Proof.
  unfold handleResize.
  set (w1 := upd_ctl (set_isMobile (mobile_width (innerWidth (win w.1)))) w).
  assert (H1 : isMobile (ctl w1.1) = mobile_width (innerWidth (win w.1))) by reflexivity.
  rewrite H1. destruct (isMobile (ctl w.1)), (mobile_width (innerWidth (win w.1))) eqn:Em;
    cbn [andb negb].
  - exact H1.
  - destruct (setupParallax_ctl (createParticles w1)) as [_ ->].
    by rewrite createParticles_ctl, H1.
  - rewrite H1. by case_match.
  - rewrite H1. exact H1.
Qed.

(** C31: the viewport class after a resize to width [wd] is "mobile"
    exactly when [wd <= 768]: the boundary is inclusive on the mobile
    side (768 is mobile, 769 is a desktop). *)
Theorem onResize_class wd ht w :
  isMobile (ctl (onResize wd ht w).1) = true <-> (wd <= 768)%Q.
Proof. unfold onResize. rewrite handleResize_class. apply Qle_bool_iff. Qed.

End Viewport.
