(* ===== verification/Scroll.v ===== *)
(** * The scroll listener: navbar tint, cloud drift, active navigation link

    [src/app.js] lines 375-395 ([handleScroll]) and 397-416
    ([updateActiveNavLink]).  On every scroll event the navbar background
    gets the alpha [0.05 + min(scrollTop / 100, 1) * 0.1]; on desktop
    every [.floating-cloud] gets [translateY(scrollTop * (0.5 + index *
    0.1))] appended to its transform; then the navigation link whose
    [href] is [#<id>] of the current section is marked [active].

    The current section is computed by a [forEach] that overwrites its
    choice at every section whose range [offsetTop - 100, offsetTop -
    100 + clientHeight) contains the offset.  [current_section_spec]
    proves that this loop refines the declarative rule "the last
    matching section in document order, or the empty string".

    Proved here: the link marking (every nav link is active exactly when
    its [href] is ["#" ++ current]), the spec's example with three
    sections, the alpha bounds for non-negative offsets, the cumulative
    cloud drift, and two departures from the spec: with no matching
    section a link whose [href] is ["#"] is marked active, and a negative
    offset gives an alpha below [0.05] since only the upper end of the
    opacity is clamped. *)

From S2P Require Import Prelude Dom Timers World.

Module Scroll.

(** ** Navbar tint, lines 379-382 *)

(** [Math.min(scrollTop / 100, 1)] *)
Definition navbar_opacity (scrollTop : Q) : Q := math_min (scrollTop / 100)%Q 1.

(** [0.05 + opacity * 0.1] *)
Definition navbar_alpha (scrollTop : Q) : Q := ((5 # 100) + navbar_opacity scrollTop * (1 # 10))%Q.

(** ** Cloud drift, lines 385-391 *)

(** [0.5 + (index * 0.1)] *)
Definition cloud_speed (index : nat) : Q := ((1 # 2) + inject_Z (Z.of_nat index) * (1 # 10))%Q.

Definition cloud_step (scrollTop : Q) (index : nat) (cloud : nat) (d : document) : document :=
  upd_el cloud (transform_append (TranslateY (scrollTop * cloud_speed index)%Q)) d.

(** ** The current section, lines 401-408 *)

Record section_box := SectionBox { s_id : string; s_top : Q; s_height : Q }.

(** [pageYOffset >= sectionTop && pageYOffset < sectionTop + sectionHeight]
    with [sectionTop = offsetTop - 100]. *)
Definition in_section (y : Q) (s : section_box) : bool :=
  (s_top s - 100 <=? y)%Q && (y <? s_top s - 100 + s_height s)%Q.

(** The [forEach] that overwrites [currentSection]. *)
Definition current_section (y : Q) (secs : list section_box) : string :=
  foldl (fun cur s => if in_section y s then s_id s else cur) "" secs.

(** [document.querySelectorAll('section[id]')]. *)
Definition is_section_with_id (d : document) (n : nat) : bool :=
  match get_el d n with
  | Some e => bool_decide (el_tag e = "section") && bool_decide (is_Some (el_attrs e !! "id"))
  | None => false
  end.

Definition query_sections (d : document) : list nat :=
  filter (fun n => is_section_with_id d n = true) (doc_order d).

Definition section_box_of (d : document) (n : nat) : section_box :=
  match get_el d n with
  | Some e => SectionBox (default "" (el_attrs e !! "id")) (el_offset_top e) (el_client_height e)
  | None => SectionBox "" 0 0
  end.

(** ** Marking the links, lines 410-415 *)

Definition link_step (cur : string) (d : document) (n : nat) : document :=
  let d1 := upd_el n (class_remove "active") d in
  if decide (attr d1 "href" n = Some ("#" +:+ cur)) then upd_el n (class_add "active") d1 else d1.

(** [updateActiveNavLink()], lines 397-416. *)
Definition updateActiveNavLink (w : world) : world :=
  let d := doc w.1 in
  let cur := current_section (pageYOffset (win w.1)) (section_box_of d <$> query_sections d) in
  upd_doc (fun d => foldl (link_step cur) d (query_classes ["nav-link"] d)) w.

(** Lines 379-382: the navbar tint, when the navbar exists. *)
Definition navbar_tint (y : Q) (w : world) : world :=
  match navbar (ctl w.1) with
  | Some n => upd_doc (upd_el n (style_set "background" (CRgba 255 255 255 (navbar_alpha y)))) w
  | None => w
  end.

(** [handleScroll()], lines 375-395. *)
Definition handleScroll (w : world) : world :=
  let y := pageYOffset (win w.1) in
  let w1 := navbar_tint y w in
  let w2 := if isMobile (ctl w1.1) then w1
            else upd_doc (fun d => for_each_i (cloud_step y) 0 (query_classes ["floating-cloud"] d) d) w1 in
  updateActiveNavLink w2.

(** The browser scrolling the page to [y], then the listener of line 68. *)
Definition onScroll (y : Q) (w : world) : world :=
  let ww := win w.1 in
  handleScroll (set_win (mk_win (innerWidth ww) (innerHeight ww) y (scroll_requests ww)) w.1, w.2).

(** ** The current section: refinement of the declarative rule *)

(** The id of the last section whose range contains [y], in document
    order; the empty string when none does. *)
Definition current_section_spec (y : Q) (secs : list section_box) : string :=
  match last (filter (fun s => in_section y s = true) secs) with
  | Some s => s_id s
  | None => ""
  end.

Lemma foldl_current y secs cur :
  foldl (fun cur s => if in_section y s then s_id s else cur) cur secs =
  match last (filter (fun s => in_section y s = true) secs) with
  | Some s => s_id s
  | None => cur
  end.
Proof.
  revert cur. induction secs as [|s secs IH]; intros cur; simpl; [done|].
  rewrite IH, filter_cons. destruct (in_section y s) eqn:E.
  - rewrite decide_True by done. rewrite last_cons. by destruct (last _).
  - by rewrite decide_False.
Qed.

Lemma current_section_refines y secs :
  current_section y secs = current_section_spec y secs.
Proof. apply foldl_current. Qed.

(** ** Marking one link *)

(** What [link_step] does to the link's record. *)
Definition mark (cur : string) (e : elem) : elem :=
  if decide (el_attrs e !! "href" = Some ("#" +:+ cur))
  then class_add "active" (class_remove "active" e) else class_remove "active" e.

Lemma mark_attrs cur e : el_attrs (mark cur e) = el_attrs e.
Proof. unfold mark, class_add. case_decide; [case_match|]; done. Qed.

Lemma mark_active cur e :
  class_contains "active" (mark cur e) =
  bool_decide (el_attrs e !! "href" = Some ("#" +:+ cur)).
Proof.
  unfold mark. case_decide.
  - rewrite class_contains_add. by rewrite bool_decide_eq_true_2.
  - rewrite class_contains_remove. by rewrite bool_decide_eq_false_2.
Qed.

Lemma link_step_self cur d n : get_el (link_step cur d n) n = mark cur <$> get_el d n.
Proof.
  unfold link_step, attr. destruct (get_el d n) as [e|] eqn:He.
  - rewrite get_upd_eq, He. simpl. unfold mark.
    case_decide; [rewrite get_upd_eq, get_upd_eq, He|rewrite get_upd_eq, He]; done.
  - assert (H : get_el (upd_el n (class_remove "active") d) n = None)
      by (rewrite get_upd_eq, He; done).
    rewrite H. simpl. by rewrite H.
Qed.

Lemma link_step_other cur d n m : n ≠ m -> get_el (link_step cur d n) m = get_el d m.
Proof.
  intros Hne. unfold link_step. case_decide; rewrite !get_upd_ne by done; done.
Qed.

(** The loop over the links: every link in the list ends with [active]
    exactly when its [href] is ["#" ++ cur]; other nodes are untouched. *)
Lemma links_fold_mark cur l d n e :
  get_el d n = Some e ->
  exists e', get_el (foldl (link_step cur) d l) n = Some e' /\
    el_attrs e' = el_attrs e /\
    (n ∈ l -> class_contains "active" e' =
                bool_decide (el_attrs e !! "href" = Some ("#" +:+ cur))) /\
    (n ∉ l -> e' = e).
Proof.
  revert d e. induction l as [|a l IH]; intros d e He; simpl.
  - exists e. split_and!; [done|done| |done]. intros Hin. by apply not_elem_of_nil in Hin.
  - destruct (decide (a = n)) as [->|Hne].
    + assert (H1 : get_el (link_step cur d n) n = Some (mark cur e))
        by (by rewrite link_step_self, He).
      destruct (IH _ _ H1) as (e' & H2 & H3 & H4 & H5).
      exists e'. rewrite mark_attrs in H3. split_and!; [done|done| |].
      * intros _. destruct (decide (n ∈ l)) as [Hin|Hin].
        -- rewrite H4 by done. by rewrite mark_attrs.
        -- rewrite H5 by done. apply mark_active.
      * intros Hn. exfalso. apply Hn. constructor.
    + assert (H1 : get_el (link_step cur d a) n = Some e) by (by rewrite link_step_other).
      destruct (IH _ _ H1) as (e' & H2 & H3 & H4 & H5).
      exists e'. split_and!; [done|done| |].
      * intros Hin. apply elem_of_cons in Hin as [->|Hin]; [done|]. by apply H4.
      * intros Hn. apply H5. intros Hin. apply Hn. by apply elem_of_cons; right.
Qed.

(** ** Properties *)

(** C8: after a scroll, every navigation link is marked [active] exactly
    when its [href] is ["#" ++ id] for the last section, in document
    order, whose range [offsetTop - 100, offsetTop - 100 + clientHeight)
    contains the scroll offset (the empty id when none does). *)
Theorem updateActiveNavLink_marks w n e :
  n ∈ query_classes ["nav-link"] (doc w.1) -> get_el (doc w.1) n = Some e ->
  exists e', get_el (doc (updateActiveNavLink w).1) n = Some e' /\
    class_contains "active" e' =
      bool_decide (el_attrs e !! "href" =
        Some ("#" +:+ current_section_spec (pageYOffset (win w.1))
                         (section_box_of (doc w.1) <$> query_sections (doc w.1)))).
Proof.
  intros Hin He. unfold updateActiveNavLink. simpl.
  rewrite <- current_section_refines.
  destruct (links_fold_mark (current_section (pageYOffset (win w.1))
             (section_box_of (doc w.1) <$> query_sections (doc w.1)))
             (query_classes ["nav-link"] (doc w.1)) (doc w.1) n e He)
    as (e' & H1 & _ & H3 & _).
  exists e'. split; [done|]. by apply H3.
Qed.

(** The example of the spec: sections whose ranges are [0, 300),
    [300, 700) and [700, 1200) (offsets 100, 400, 800), their three links,
    and a link to ["#"]. *)
Definition section_el (id : string) (top height : Q) : elem :=
  mk_elem "section" [] {["id" := id]} ∅ "" false "" [] None top height (0, 0, 0, 0)%Q.

Definition link_el (href : string) : elem :=
  mk_elem "a" ["nav-link"] {["href" := href]} ∅ "" false "" [] None 0 0 (0, 0, 0, 0)%Q.

Definition sections_demo (y : Q) : world :=
  let w := world_of blank_ctl
             [section_el "home" 100 300; section_el "about" 400 400;
              section_el "projects" 800 500; link_el "#home"; link_el "#about";
              link_el "#projects"; link_el "#"] 1280 800 in
  (set_win (mk_win 1280 800 y []) w.1, w.2).

Lemma updateActiveNavLink_marks_witness :
  exists e', get_el (doc (updateActiveNavLink (sections_demo 650)).1) 4 = Some e' /\
    class_contains "active" e' = true.
Proof.
  destruct (updateActiveNavLink_marks (sections_demo 650) 4 (link_el "#about"))
    as (e' & H1 & H2); [vm_compute; right; left | reflexivity |].
  exists e'. split; [exact H1|]. rewrite H2. vm_compute. reflexivity.
Defined.

Lemma current_section_none y secs :
  Forall (fun s => in_section y s = false) secs -> current_section_spec y secs = "".
Proof.
  intros H. unfold current_section_spec.
  replace (filter (fun s => in_section y s = true) secs) with (@nil section_box); [done|].
  induction H as [|s secs Hs _ IH]; [done|]. rewrite filter_cons, decide_False; congruence.
Qed.

(** C9: when no section contains the scroll offset, [currentSection] is
    the empty string and a navigation link whose [href] is ["#"] is
    marked [active]; the spec says no link is. *)
Theorem no_section_hash_link_active w n e :
  n ∈ query_classes ["nav-link"] (doc w.1) -> get_el (doc w.1) n = Some e ->
  el_attrs e !! "href" = Some "#" ->
  Forall (fun s => in_section (pageYOffset (win w.1)) s = false)
    (section_box_of (doc w.1) <$> query_sections (doc w.1)) ->
  exists e', get_el (doc (updateActiveNavLink w).1) n = Some e' /\
    class_contains "active" e' = true.
Proof.
  intros Hin He Hh Hnone. unfold updateActiveNavLink. simpl.
  rewrite current_section_refines, current_section_none by done.
  destruct (links_fold_mark "" (query_classes ["nav-link"] (doc w.1)) (doc w.1) n e He)
    as (e' & H1 & _ & H3 & _).
  exists e'. split; [done|]. rewrite H3 by done. by apply bool_decide_eq_true_2.
Qed.

Lemma no_section_hash_link_active_witness :
  exists e', get_el (doc (updateActiveNavLink (sections_demo 5000)).1) 6 = Some e' /\
    class_contains "active" e' = true.
Proof.
  apply (no_section_hash_link_active (sections_demo 5000) 6 (link_el "#"));
    [vm_compute; right; right; right; left | reflexivity | reflexivity | vm_compute].
  repeat constructor.
Defined.

(** C10: the navbar alpha of line 381 never decreases as the page
    scrolls down, and it saturates: from 100 pixels on it is the alpha
    at 100 pixels.  Both facts hold of the binary64 computation as well,
    since [/ 100], [Math.min], [* 0.1] and [+ 0.05] are each monotone
    under rounding and [Math.min] returns its [1] exactly. *)
Theorem navbar_alpha_saturates :
  (forall y1 y2, y1 <= y2 -> navbar_alpha y1 <= navbar_alpha y2)%Q /\
  (forall y, 100 <= y -> navbar_alpha y == navbar_alpha 100)%Q.
Proof.
  split.
  - intros y1 y2 H. unfold navbar_alpha, navbar_opacity.
    assert (Hd : (y1 / 100 <= y2 / 100)%Q) by (apply Qmult_le_compat_r; [done | discriminate]).
    pose proof (math_min_mono_l _ _ 1 Hd). lra.
  - intros y H. unfold navbar_alpha, navbar_opacity.
    assert (Hge : (1 <= y / 100)%Q) by (apply Qle_shift_div_l; lra).
    assert (E1 : (math_min (y / 100) 1 == 1)%Q) by (unfold math_min; case_q; lra).
    assert (E2 : (math_min (100 / 100) 1 == 1)%Q) by reflexivity.
    rewrite E1, E2. reflexivity.
Qed.

(** C11: a negative scroll offset (an overscrolled page) gives an alpha
    below 0.05: [Math.min] clamps the opacity from above only, while the
    spec clamps it to [0, 1]. *)
Theorem navbar_alpha_negative y :
  (y < 0)%Q -> (navbar_alpha y == (1 # 20) + y / 1000)%Q /\ (navbar_alpha y < 1 # 20)%Q.
Proof.
  intros Hy. unfold navbar_alpha, navbar_opacity.
  assert (H0 : (y / 100 < 1)%Q) by (apply Qlt_shift_div_r; lra).
  rewrite math_min_l by lra.
  assert (E : (y / 100 * (1 # 10) == y / 1000)%Q) by (field; discriminate).
  assert (H2 : (y / 1000 < 0)%Q) by (apply Qlt_shift_div_r; lra).
  split; lra.
Qed.

Lemma navbar_alpha_negative_witness :
  (navbar_alpha (-50) == (1 # 20) + (-50) / 1000)%Q /\ (navbar_alpha (-50) < 1 # 20)%Q.
Proof. apply navbar_alpha_negative. reflexivity. Defined.

(** ** Cloud drift *)

Lemma cloud_loop_other y j l d n :
  n ∉ l -> get_el (for_each_i (cloud_step y) j l d) n = get_el d n.
Proof.
  revert j d. induction l as [|a l IH]; intros j d Hn; simpl; [done|].
  rewrite IH by (intros H; apply Hn; by right). apply get_upd_ne. intros ->. apply Hn. left.
Qed.

(** The cloud at position [i] of the list, once, gets
    [translateY(y * (0.5 + (j + i) * 0.1))] appended. *)
Lemma cloud_loop_at y j l d i n e fs :
  NoDup l -> l !! i = Some n -> get_el d n = Some e -> transform_of e = Some fs ->
  exists e', get_el (for_each_i (cloud_step y) j l d) n = Some e' /\
    transform_of e' = Some (fs ++ [TranslateY (y * cloud_speed (j + i))%Q]).
Proof.
  revert j d i. induction l as [|a l IH]; intros j d i Hnd Hi He Hf; [done|].
  apply NoDup_cons in Hnd as [Ha Hnd]. simpl.
  destruct i as [|i]; simpl in Hi.
  - simplify_eq. rewrite cloud_loop_other by done. unfold cloud_step.
    rewrite get_upd_eq, He. eexists. split; [reflexivity|].
    rewrite Nat.add_0_r. by apply transform_of_append.
  - assert (Hne : a ≠ n) by (intros ->; apply Ha; by eapply list_elem_of_lookup_2).
    destruct (IH (S j) (cloud_step y j a d) i Hnd Hi) as (e' & H1 & H2).
    { unfold cloud_step. by rewrite get_upd_ne. }
    { done. }
    exists e'. split; [done|]. by rewrite H2, Nat.add_succ_r.
Qed.

Lemma links_fold_transform cur l d m :
  transform_of <$> get_el (foldl (link_step cur) d l) m = transform_of <$> get_el d m.
Proof.
  revert d. induction l as [|a l IH]; intros d; simpl; [done|]. rewrite IH.
  unfold link_step. case_decide.
  - rewrite transform_of_upd_keep by (intros e; unfold class_add; by case_match).
    by apply transform_of_upd_keep.
  - by apply transform_of_upd_keep.
Qed.

Lemma navbar_tint_keeps y w n e fs :
  get_el (doc w.1) n = Some e -> transform_of e = Some fs ->
  ctl (navbar_tint y w).1 = ctl w.1 /\ win (navbar_tint y w).1 = win w.1 /\
  query_classes ["floating-cloud"] (doc (navbar_tint y w).1) =
    query_classes ["floating-cloud"] (doc w.1) /\
  exists e1, get_el (doc (navbar_tint y w).1) n = Some e1 /\ transform_of e1 = Some fs.
Proof.
  intros He Hf. unfold navbar_tint. destruct (navbar (ctl w.1)) as [nb|]; simpl;
    [|split_and!; eauto].
  split_and!; [done|done| |].
  - by apply query_classes_upd_keep.
  - pose proof (transform_of_style_set_other (doc w.1) nb "background"
                 (CRgba 255 255 255 (navbar_alpha y)) n ltac:(done)) as Ht.
    rewrite He in Ht. simpl in Ht.
    destruct (get_el (upd_el nb _ (doc w.1)) n) as [e1|] eqn:E1; [|done].
    exists e1. split; [done|]. simpl in Ht. congruence.
Qed.

(** C12: on desktop every scroll event appends to the [i]-th
    [.floating-cloud] one [translateY(scrollTop * (0.5 + i * 0.1))]: the
    drift accumulates over events instead of being set. *)
Theorem handleScroll_cloud_drift w i n e fs :
  isMobile (ctl w.1) = false -> NoDup (query_classes ["floating-cloud"] (doc w.1)) ->
  query_classes ["floating-cloud"] (doc w.1) !! i = Some n ->
  get_el (doc w.1) n = Some e -> transform_of e = Some fs ->
  exists e', get_el (doc (handleScroll w).1) n = Some e' /\
    transform_of e' = Some (fs ++ [TranslateY (pageYOffset (win w.1) * cloud_speed i)%Q]).
Proof.
  intros Hm Hnd Hi He Hf. unfold handleScroll.
  set (y := pageYOffset (win w.1)).
  pose proof (navbar_tint_keeps y w n e fs He Hf) as H1.
  destruct H1 as (Hc1 & Hw1 & Hq1 & e1 & He1 & Hf1).
  set (w1 := navbar_tint y w) in *.
  rewrite Hc1, Hm. unfold updateActiveNavLink. simpl.
  rewrite Hq1 in *.
  destruct (cloud_loop_at y 0 _ (doc w1.1) i n e1 fs Hnd Hi He1 Hf1) as (e2 & H2 & H3).
  pose proof (links_fold_transform
    (current_section (pageYOffset (win w1.1))
       (section_box_of (for_each_i (cloud_step y) 0 (query_classes ["floating-cloud"] (doc w.1)) (doc w1.1))
          <$> query_sections (for_each_i (cloud_step y) 0 (query_classes ["floating-cloud"] (doc w.1)) (doc w1.1))))
    (query_classes ["nav-link"] (for_each_i (cloud_step y) 0 (query_classes ["floating-cloud"] (doc w.1)) (doc w1.1)))
    (for_each_i (cloud_step y) 0 (query_classes ["floating-cloud"] (doc w.1)) (doc w1.1)) n) as H4.
  rewrite H2 in H4. simpl in H4.
  destruct (get_el (foldl _ _ _) n) as [e3|] eqn:E3; [|done].
  exists e3. split; [done|]. simpl in H3, H4. congruence.
Qed.

Definition cloud_el : elem :=
  mk_elem "div" ["floating-cloud"] ∅ ∅ "" false "" [] None 0 0 (0, 0, 0, 0)%Q.

(** Two clouds on a desktop page scrolled to 200 pixels. *)
Definition clouds_demo : world :=
  let w := world_of blank_ctl [cloud_el; cloud_el] 1280 800 in
  (set_win (mk_win 1280 800 200 []) w.1, w.2).

Lemma handleScroll_cloud_drift_witness :
  exists e', get_el (doc (handleScroll clouds_demo).1) 1 = Some e' /\
    transform_of e' = Some ([] ++ [TranslateY (200 * cloud_speed 1)%Q]).
Proof.
  apply (handleScroll_cloud_drift clouds_demo 1 1 cloud_el []);
    [reflexivity | vm_compute; repeat constructor; set_solver | reflexivity | reflexivity | reflexivity].
Defined.

End Scroll.
