(* ===== verification/Form.v ===== *)
(** * The simulated contact-form submission

    [src/app.js] lines 418-446 ([handleFormSubmit]) and the two closures
    it schedules (lines 433-443 and 437-442).  A submit event finds the
    form's [button[type="submit"]], remembers its label, shows
    ["Sending..."] and disables it; 1500 ms later the label becomes
    ["Message Sent!"] on a green background; 2000 ms after that the
    label is restored, the button enabled, the background cleared and
    the form reset.  Nothing is sent.

    The timeline is proved in a [Section] whose hypotheses say how the
    event loop runs the two closures; [Page] discharges them with its
    dispatcher.  Proved here: the three phases Idle, Sending, Sent
    refine the concrete button states at the times 0, 1500 and 3500 ms
    after the submission; a form without a submit button makes the
    handler throw; a second submission while the first is in flight
    leaves the label stuck at ["Sending..."]. *)

From S2P Require Import Prelude Dom Timers World.

Module Form.

Definition is_submit_button (d : document) (n : nat) : bool :=
  match get_el d n with
  | Some e => bool_decide (el_tag e = "button") && bool_decide (el_attrs e !! "type" = Some "submit")
  | None => false
  end.

(** [this.contactForm.querySelector('button[type="submit"]')] *)
Definition submit_button (d : document) (f : nat) : option nat :=
  head (filter (fun n => is_submit_button d n = true) (descendants d f)).

(** [form.reset()]: every [input] and [textarea] of the form gets back its
    default value (the [value] attribute, empty when absent). *)
Definition reset_control (e : elem) : elem :=
  if bool_decide (el_tag e = "input" \/ el_tag e = "textarea")
  then set_value (default "" (el_attrs e !! "value")) e else e.

Definition form_reset (f : nat) (d : document) : document :=
  foldl (fun d' n => upd_el n reset_control d') d (descendants d f).

(** [handleFormSubmit(e)], lines 418-446.  [None]: the form has no
    submit button and [submitBtn.textContent] throws a [TypeError];
    nothing was changed before the throw ([preventDefault] and the
    [FormData] reads only). *)
Definition handleFormSubmit (w : world) : option world :=
  match contactForm (ctl w.1) with
  | None => Some w
  | Some f =>
      match submit_button (doc w.1) f with
      | None => None
      | Some b =>
          match get_el (doc w.1) b with
          | None => None
          | Some e =>
              let originalText := el_text e in
              Some (set_timeout_w 1500 (KFormSent b originalText)
                      (upd_doc (upd_el b (fun e => set_disabled true (set_text "Sending..." e))) w))
          end
      end
  end.

(** The first closure, lines 433-443. *)
Definition formSent (b : nat) (originalText : string) (w : world) : world :=
  set_timeout_w 2000 (KFormReset b originalText)
    (upd_doc (upd_el b (fun e => style_set "background"
                                   (CStr "linear-gradient(45deg, #00cc66, #00ff88)")
                                   (set_text "Message Sent!" e))) w).

(** The second closure, lines 437-442. *)
Definition formReset (b : nat) (originalText : string) (w : world) : world :=
  let w1 := upd_doc (upd_el b (fun e => style_clear "background"
                                          (set_disabled false (set_text originalText e)))) w in
  match contactForm (ctl w1.1) with
  | Some f => upd_doc (form_reset f) w1
  | None => w1
  end.

(** ** The abstract machine of the spec *)

Inductive phase := Idle | Sending | Sent.

Inductive form_event := Submit | FirstTimer | SecondTimer.

(** Idle, then Sending, then Sent, then Idle again. *)
Inductive form_step : phase -> form_event -> phase -> Prop :=
| step_submit : form_step Idle Submit Sending
| step_sent : form_step Sending FirstTimer Sent
| step_reset : form_step Sent SecondTimer Idle.

(** The phase a button shows by its label and [disabled] flag, given the
    label it had before the submission. *)
Definition phase_of (original : string) (label : string) (disabled : bool) : option phase :=
  if decide (label = "Sending..." /\ disabled = true) then Some Sending
  else if decide (label = "Message Sent!" /\ disabled = true) then Some Sent
  else if decide (label = original /\ disabled = false) then Some Idle
  else None.

Definition phase_at (original : string) (b : nat) (w : world) : option phase :=
  get_el (doc w.1) b ≫= fun e => phase_of original (el_text e) (el_disabled e).

(** ** Lemmas *)

Lemma handleFormSubmit_ok w f b e :
  contactForm (ctl w.1) = Some f -> submit_button (doc w.1) f = Some b ->
  get_el (doc w.1) b = Some e ->
  handleFormSubmit w =
    Some (set_timeout_w 1500 (KFormSent b (el_text e))
            (upd_doc (upd_el b (fun e => set_disabled true (set_text "Sending..." e))) w)).
Proof. intros Hf Hb He. unfold handleFormSubmit. by rewrite Hf, Hb, He. Qed.

(** [form.reset()] changes values only. *)
Lemma form_reset_label f d n :
  (fun e => (el_text e, el_disabled e)) <$> get_el (form_reset f d) n =
  (fun e => (el_text e, el_disabled e)) <$> get_el d n.
Proof.
  unfold form_reset. generalize (descendants d f) as l. intros l. revert d.
  induction l as [|m l IH]; intros d; simpl; [done|]. rewrite IH.
  destruct (decide (m = n)) as [->|Hne]; [|by rewrite get_upd_ne].
  rewrite get_upd_eq. destruct (get_el d n); simpl; [|done].
  unfold reset_control. by case_bool_decide.
Qed.

Lemma phase_at_label o b w w' :
  (fun e => (el_text e, el_disabled e)) <$> get_el (doc w'.1) b =
  (fun e => (el_text e, el_disabled e)) <$> get_el (doc w.1) b ->
  phase_at o b w' = phase_at o b w.
Proof.
  unfold phase_at. destruct (get_el (doc w'.1) b), (get_el (doc w.1) b); simpl;
    intros H; simplify_eq; congruence.
Qed.

Lemma phase_at_upd o b g w :
  phase_at o b (upd_doc (upd_el b g) w) =
  get_el (doc w.1) b ≫= fun e => phase_of o (el_text (g e)) (el_disabled (g e)).
Proof. unfold phase_at. simpl. rewrite get_upd_eq. by destruct (get_el (doc w.1) b). Qed.

Lemma phase_of_sending o : phase_of o "Sending..." true = Some Sending.
Proof. done. Qed.

Lemma phase_of_sent o : phase_of o "Message Sent!" true = Some Sent.
Proof. done. Qed.

Lemma phase_of_idle o :
  o ≠ "Sending..." -> o ≠ "Message Sent!" -> phase_of o o false = Some Idle.
Proof.
  intros H1 H2. unfold phase_of.
  rewrite decide_False by naive_solver. rewrite decide_False by naive_solver.
  by rewrite decide_True.
Qed.

Lemma phase_at_pair o b (p : world) (s : sched task) : phase_at o b (p.1, s) = phase_at o b p.
Proof. done. Qed.

Lemma phase_at_set_timeout o b d k w : phase_at o b (set_timeout_w d k w) = phase_at o b w.
Proof. done. Qed.

Lemma phase_at_formSent o b o' w :
  phase_at o b (formSent b o' w) =
  get_el (doc w.1) b ≫= fun e => phase_of o "Message Sent!" (el_disabled e).
Proof.
  unfold formSent. rewrite phase_at_set_timeout, phase_at_upd.
  by destruct (get_el (doc w.1) b).
Qed.

Lemma phase_at_formReset o b o' w :
  phase_at o b (formReset b o' w) =
  get_el (doc w.1) b ≫= fun e => phase_of o o' false.
Proof.
  unfold formReset. cbv zeta.
  destruct (contactForm _) as [f|].
  - rewrite (phase_at_label o b (upd_doc (upd_el b (fun e => style_clear "background"
               (set_disabled false (set_text o' e)))) w)) by apply form_reset_label.
    rewrite phase_at_upd. by destruct (get_el (doc w.1) b).
  - rewrite phase_at_upd. by destruct (get_el (doc w.1) b).
Qed.

Lemma formReset_timers b o w : (formReset b o w).2 = w.2.
Proof. unfold formReset. simpl. by destruct (contactForm _). Qed.

Lemma formReset_pair b o w : formReset b o w = ((formReset b o w).1, w.2).
Proof. rewrite <- (formReset_timers b o w). apply surjective_pairing. Qed.

(** Writing a label, a flag or a style keeps the submit button. *)
Lemma submit_button_upd_keep d b g f :
  (forall e, el_parent (g e) = el_parent e) -> (forall e, el_tag (g e) = el_tag e) ->
  (forall e, el_attrs (g e) = el_attrs e) ->
  submit_button (upd_el b g d) f = submit_button d f.
Proof.
  intros Hp Ht Ha.
  assert (Hd : descendants (upd_el b g d) f = descendants d f).
  { unfold descendants. rewrite upd_el_order, upd_el_next.
    apply list_filter_iff. intros n. by rewrite inside_upd_keep. }
  unfold submit_button. rewrite Hd. f_equal.
  apply list_filter_iff. intros n. unfold is_submit_button.
  destruct (decide (b = n)) as [->|Hne].
  - rewrite get_upd_eq. destruct (get_el d n); simpl; [by rewrite Ht, Ha|done].
  - by rewrite get_upd_ne.
Qed.

Lemma form_reset_is_Some f d n : is_Some (get_el d n) -> is_Some (get_el (form_reset f d) n).
Proof.
  unfold form_reset. generalize (descendants d f) as l. intros l. revert d.
  induction l as [|m l IH]; intros d H; simpl; [done|]. by apply IH, upd_el_is_Some.
Qed.

Lemma formSent_is_Some b o w n :
  is_Some (get_el (doc w.1) n) -> is_Some (get_el (doc (formSent b o w).1) n).
Proof. intros H. by apply upd_el_is_Some. Qed.

Lemma formReset_is_Some b o w n :
  is_Some (get_el (doc w.1) n) -> is_Some (get_el (doc (formReset b o w).1) n).
Proof.
  intros H. unfold formReset. cbv zeta.
  destruct (contactForm _); simpl; [apply form_reset_is_Some|]; by apply upd_el_is_Some.
Qed.

Lemma formReset_label b o w :
  is_Some (get_el (doc w.1) b) ->
  (fun e => (el_text e, el_disabled e)) <$> get_el (doc (formReset b o w).1) b = Some (o, false).
Proof.
  intros [e He]. unfold formReset. cbv zeta.
  destruct (contactForm _); simpl; [rewrite form_reset_label|]; by rewrite get_upd_eq, He.
Qed.

(** ** The timeline *)

Section Timeline.

(** How the event loop runs the two closures of the form. *)
Variable run : task -> world -> world.
Hypothesis run_sent : forall b o w, run (KFormSent b o) w = formSent b o w.
Hypothesis run_reset : forall b o w, run (KFormReset b o) w = formReset b o w.

(** C13: the submission cycle.  From an idle button and an empty timer
    queue at time [t], a submit event makes the button Sending; it is
    still Sending at [t + 1499], Sent at [t + 1500], and Idle again, with
    its label restored and no timer left, at [t + 3500]. *)
Theorem form_timeline w f b e :
  contactForm (ctl w.1) = Some f -> submit_button (doc w.1) f = Some b ->
  get_el (doc w.1) b = Some e -> el_disabled e = false -> timers w.2 = [] ->
  el_text e ≠ "Sending..." -> el_text e ≠ "Message Sent!" ->
  let o := el_text e in
  let t := now w.2 in
  phase_at o b w = Some Idle /\
  exists w1, handleFormSubmit w = Some w1 /\ phase_at o b w1 = Some Sending /\
    (exists w2, run_timers run 2 (t + 1499) w1 = Some w2 /\ phase_at o b w2 = Some Sending) /\
    (exists w3, run_timers run 2 (t + 1500) w1 = Some w3 /\ phase_at o b w3 = Some Sent) /\
    (exists w4, run_timers run 2 (t + 3500) w1 = Some w4 /\ phase_at o b w4 = Some Idle /\
                timers w4.2 = []).
Proof.
  intros Hf Hb He Hd Ht H1 H2 o t.
  split; [unfold phase_at; rewrite He; simpl; rewrite Hd; by apply phase_of_idle|].
  eexists. split; [by apply (handleFormSubmit_ok w f b e)|].
  set (g := fun e : elem => set_disabled true (set_text "Sending..." e)).
  set (w1 := set_timeout_w 1500 (KFormSent b o) (upd_doc (upd_el b g) w)).
  set (k := Timer (t + 1500) (next_id w.2) (KFormSent b o)).
  assert (Hq : timers w1.2 = [k]) by (simpl; by rewrite Ht).
  assert (Hp1 : phase_at o b w1 = Some Sending).
  { unfold w1, set_timeout_w. change (phase_at o b (upd_doc (upd_el b g) w) = Some Sending).
    by rewrite phase_at_upd, He. }
  split_and!; [done | | |].
  - eexists. split; [apply (run_timers_single_late run _ _ _ k Hq); simpl; lia|]. done.
  - rewrite (run_timers_single run _ _ _ k Hq) by (simpl; lia). simpl t_task. rewrite run_sent.
    eexists. split.
    + apply (run_timers_single_late run _ _ _ (Timer (N.max t (t + 1500) + 2000) (N.succ (next_id w.2))
                                           (KFormReset b o))); [done | simpl; lia].
    + change (phase_at o b (formSent b o (w1.1, Sched (N.max t (t + 1500)) (N.succ (next_id w.2)) []
                                               (frames w.2))) = Some Sent).
      rewrite phase_at_formSent. simpl. rewrite get_upd_eq, He. done.
  - rewrite (run_timers_single run _ _ _ k Hq) by (simpl; lia). simpl t_task. rewrite run_sent.
    rewrite (run_timers_single run _ _ _ (Timer (N.max t (t + 1500) + 2000) (N.succ (next_id w.2))
                                       (KFormReset b o))) by (done || (simpl; lia)).
    simpl t_task. rewrite run_reset. rewrite run_timers_empty by (by rewrite formReset_timers).
    eexists. split; [reflexivity|]. split.
    + rewrite phase_at_pair, phase_at_formReset. simpl.
      rewrite !get_upd_eq, He. simpl. by apply phase_of_idle.
    + by rewrite formReset_timers.
Qed.

(** C15: the handler is not re-entrant.  A second submit event 100 ms
    into the first cycle (the button is disabled, but
    [form.requestSubmit()] or a script still fires [submit]) captures
    ["Sending..."] as the original label; when both cycles have run out,
    at [t + 3600], the enabled button reads ["Sending..."] for good. *)
Theorem double_submit_stuck w f b e :
  contactForm (ctl w.1) = Some f -> submit_button (doc w.1) f = Some b ->
  get_el (doc w.1) b = Some e -> timers w.2 = [] ->
  let t := now w.2 in
  exists w1 w2 w3 w4,
    handleFormSubmit w = Some w1 /\ run_timers run 1 (t + 100) w1 = Some w2 /\
    handleFormSubmit w2 = Some w3 /\ run_timers run 4 (t + 3600) w3 = Some w4 /\
    (fun e => (el_text e, el_disabled e)) <$> get_el (doc w4.1) b = Some ("Sending...", false).
Proof.
  intros Hf Hb He Ht t.
  set (g := fun e : elem => set_disabled true (set_text "Sending..." e)).
  set (w1 := set_timeout_w 1500 (KFormSent b (el_text e)) (upd_doc (upd_el b g) w)).
  assert (Hq : timers w1.2 = [Timer (t + 1500) (next_id w.2) (KFormSent b (el_text e))])
    by (simpl; by rewrite Ht).
  set (w2 := (w1.1, clock_to (t + 100) w1.2)).
  assert (Hb2 : submit_button (doc w2.1) f = Some b) by (simpl; by rewrite submit_button_upd_keep).
  assert (He2 : get_el (doc w2.1) b = Some (g e)) by (simpl; by rewrite get_upd_eq, He).
  set (w3 := set_timeout_w 1500 (KFormSent b (el_text (g e))) (upd_doc (upd_el b g) w2)).
  assert (Hq3 : timers w3.2 = [Timer (t + 1500) (next_id w.2) (KFormSent b (el_text e));
                               Timer (N.max t (t + 100) + 1500) (N.succ (next_id w.2))
                                 (KFormSent b "Sending...")]) by (simpl; by rewrite Ht).
  exists w1, w2, w3. eexists. split_and!.
  - by apply (handleFormSubmit_ok w f b e).
  - apply (run_timers_single_late run _ _ _ _ Hq). simpl. lia.
  - by apply (handleFormSubmit_ok w2 f b (g e)).
  - rewrite (run_timers_head run _ _ _ _ _ Hq3); [| repeat constructor; simpl; lia | simpl; lia].
    simpl t_task. rewrite run_sent.
    erewrite run_timers_head; [| reflexivity | repeat constructor; simpl; lia | simpl; lia].
    simpl t_task. rewrite run_sent.
    erewrite run_timers_head; [| reflexivity | repeat constructor; simpl; lia | simpl; lia].
    simpl t_task. rewrite run_reset, formReset_pair.
    erewrite run_timers_head; [| reflexivity | repeat constructor; simpl; lia | simpl; lia].
    simpl t_task. rewrite run_reset.
    rewrite run_timers_empty by (by rewrite formReset_timers). reflexivity.
  - simpl. apply formReset_label.
    repeat (simpl; first [apply formReset_is_Some | apply formSent_is_Some | apply upd_el_is_Some]).
    simpl. by rewrite He.
Qed.

End Timeline.

(** ** A concrete form *)

(** The event loop restricted to the form's two closures. *)
Definition form_run (k : task) (w : world) : world :=
  match k with
  | KFormSent b o => formSent b o w
  | KFormReset b o => formReset b o w
  | _ => w
  end.

Definition form_el : elem :=
  mk_elem "form" [] {["id" := "contact-form"]} ∅ "" false "" [1; 2] None 0 0 (0, 0, 0, 0)%Q.
Definition input_el : elem :=
  mk_elem "input" [] {["name" := "name"]} ∅ "" false "Ada" [] (Some 0) 0 0 (0, 0, 0, 0)%Q.
Definition button_el : elem :=
  mk_elem "button" [] {["type" := "submit"]} ∅ "Send" false "" [] (Some 0) 0 0 (0, 0, 0, 0)%Q.

(** Node 0 is the form, 1 a filled-in field, 2 its submit button. *)
Definition form_demo : world :=
  world_of (mk_ctl None None None (Some 0) None 0 0 false false [] None)
    [form_el; input_el; button_el] 1280 800.

Lemma form_timeline_witness :
  exists w1 w4, handleFormSubmit form_demo = Some w1 /\
    run_timers form_run 2 (0 + 3500) w1 = Some w4 /\ phase_at "Send" 2 w4 = Some Idle.
Proof.
  destruct (form_timeline form_run (fun _ _ _ => eq_refl) (fun _ _ _ => eq_refl)
              form_demo 0 2 button_el) as [_ (w1 & H1 & _ & _ & _ & (w4 & H4 & H5 & _))];
    [reflexivity | reflexivity | reflexivity | reflexivity | reflexivity | discriminate | discriminate |].
  exists w1, w4. split_and!; [exact H1 | exact H4 | exact H5].
Defined.

Lemma double_submit_stuck_witness :
  exists w1 w2 w3 w4,
    handleFormSubmit form_demo = Some w1 /\ run_timers form_run 1 (0 + 100) w1 = Some w2 /\
    handleFormSubmit w2 = Some w3 /\ run_timers form_run 4 (0 + 3600) w3 = Some w4 /\
    (fun e => (el_text e, el_disabled e)) <$> get_el (doc w4.1) 2 = Some ("Sending...", false).
Proof.
  apply (double_submit_stuck form_run (fun _ _ _ => eq_refl) (fun _ _ _ => eq_refl)
           form_demo 0 2 button_el); reflexivity.
Defined.

(** C14: a contact form without a [button[type="submit"]] makes the
    submit handler throw ([submitBtn] is [null]); the spec says a missing
    element only skips its feature. *)
Theorem handleFormSubmit_no_button w f :
  contactForm (ctl w.1) = Some f -> submit_button (doc w.1) f = None ->
  handleFormSubmit w = None.
Proof. intros Hf Hb. unfold handleFormSubmit. by rewrite Hf, Hb. Qed.

Lemma handleFormSubmit_no_button_witness :
  handleFormSubmit (world_of (mk_ctl None None None (Some 0) None 0 0 false false [] None)
                      [form_el; input_el] 1280 800) = None.
Proof. apply (handleFormSubmit_no_button _ 0); reflexivity. Defined.

End Form.
