(* ===== verification/Menu.v ===== *)
(** * Navigation: anchor smooth-scrolling and the mobile menu

    [src/app.js] lines 36-49 (the anchor and hamburger listeners of
    [setupEventListeners]), 341-350 ([scrollToSection]), 352-373
    ([toggleMobileMenu]) and 497-506 (the global [window.scrollToSection]).

    The menu's state is the class [active] on [this.navMenu] and on
    [this.hamburger], the inline transforms of the hamburger's [.bar]
    children, and the listener registry: every opening registers one more
    click listener on each [.nav-link] of the menu and none is ever
    removed.

    Proved here: a toggle flips the menu and the button together and keeps
    them in step; the bars' transforms as the code writes them (the third
    bar gets [translate(-6px, -6px)]); the number of close listeners grows
    by one per link at each opening; a click on a link toggles the menu
    once per close listener, so after the second opening a click on a
    link leaves the menu open; an anchor click scrolls to 80 pixels above
    its section, and [href="#"] scrolls nowhere. *)

From S2P Require Import Prelude Dom Timers World.

Module Menu.

(** [s.substring(1)] *)
Definition substring1 (s : string) : string :=
  match s with EmptyString => EmptyString | String _ s' => s' end.

(** [scrollToSection(sectionId)], lines 341-350. *)
Definition scrollToSection (sectionId : string) (w : world) : world :=
  match get_by_id sectionId (doc w.1) ≫= get_el (doc w.1) with
  | Some section => scroll_to (el_offset_top section - 80)%Q w
  | None => w
  end.

(** [window.scrollToSection], lines 497-506: a second copy of the body
    of the method, kept as its own definition. *)
Definition scrollToSection_global (sectionId : string) (w : world) : world :=
  match get_by_id sectionId (doc w.1) with
  | Some s =>
      match get_el (doc w.1) s with
      | Some section => scroll_to (el_offset_top section - 80)%Q w
      | None => w
      end
  | None => w
  end.

(** The click listener of an anchor, lines 37-41.  The selector
    [a[href^="#"]] only matched anchors with an [href], so the attribute
    is read back; [preventDefault] cancels the jump, which the model does
    not have. *)
Definition anchorClick (anchor : nat) (w : world) : world :=
  match attr (doc w.1) "href" anchor with
  | Some href => scrollToSection (substring1 href) w
  | None => w
  end.

(** [a[href^="#"]] *)
Definition is_hash_anchor (d : document) (n : nat) : bool :=
  match get_el d n with
  | Some e => bool_decide (el_tag e = "a") &&
              match el_attrs e !! "href" with
              | Some h => String.prefix "#" h
              | None => false
              end
  | None => false
  end.

(** Lines 36-42: a click listener on every hash anchor of the page. *)
Definition setupAnchors (w : world) : world :=
  foldl (fun w' a => add_listener (TNode a) EClick (HAnchorClick a) w') w
    (filter (fun n => is_hash_anchor (doc w.1) n = true) (doc_order (doc w.1))).

(** Lines 45-49. *)
Definition setupHamburger (w : world) : world :=
  match hamburger (ctl w.1), navMenu (ctl w.1) with
  | Some h, Some _ => add_listener (TNode h) EClick HHamburgerClick w
  | _, _ => w
  end.

(** The angle and the offset the template literal writes for
    the bar at [index] (line 360): [index === 1 ? 0 : index === 0 ? 45 : -45], and
    6 in place of 45. *)
Definition bar_angle (index : nat) : Q :=
  match index with 1 => 0%Q | 0 => 45%Q | _ => (-45)%Q end.

Definition bar_offset (index : nat) : Q :=
  match index with 1 => 0%Q | 0 => 6%Q | _ => (-6)%Q end.

Definition bar_transform (open : bool) (index : nat) : cssval :=
  if open then CTransform [Rotate (bar_angle index);
                           Translate (bar_offset index) (bar_offset index)]
  else CNone.

(** The body of [bars.forEach], lines 358-362: the menu's state is read
    at each bar. *)
Definition bar_step (m : nat) (index : nat) (bar : nat) (d : document) : document :=
  upd_el bar (style_set "transform" (bar_transform (has_class d "active" m) index)) d.

(** [toggleMobileMenu()], lines 352-373.  The hamburger listener is only
    registered when both elements exist, and the nav-link listeners only
    by a call that found them, so the method never runs with either of
    them missing. *)
Definition toggleMobileMenu (w : world) : world :=
  match navMenu (ctl w.1), hamburger (ctl w.1) with
  | Some m, Some h =>
      let w1 := upd_doc (upd_el h (class_toggle "active"))
                  (upd_doc (upd_el m (class_toggle "active")) w) in
      let bars := query_within (doc w1.1) h "bar" in
      let w2 := upd_doc (for_each_i (bar_step m) 0 bars) w1 in
      if has_class (doc w2.1) "active" m then
        foldl (fun w' l => add_listener (TNode l) EClick HNavLinkClose w') w2
          (query_within (doc w2.1) m "nav-link")
      else w2
  | _, _ => w
  end.

(** ** The menu's observable state *)

Definition menu_open (w : world) : bool :=
  match navMenu (ctl w.1) with Some m => has_class (doc w.1) "active" m | None => false end.

Definition button_active (w : world) : bool :=
  match hamburger (ctl w.1) with Some h => has_class (doc w.1) "active" h | None => false end.

(** Both elements are present and distinct. *)
Definition menu_ok (w : world) : Prop :=
  exists m h, navMenu (ctl w.1) = Some m /\ hamburger (ctl w.1) = Some h /\ m ≠ h /\
    is_Some (get_el (doc w.1) m) /\ is_Some (get_el (doc w.1) h).

(** The [.nav-link]s of the menu. *)
Definition nav_links (w : world) : list nat :=
  match navMenu (ctl w.1) with Some m => query_within (doc w.1) m "nav-link" | None => [] end.

(** The registration of line 368. *)
Definition close_reg (l : nat) : listener := Listener (TNode l) EClick HNavLinkClose.

(** The handlers of a click a menu can meet, and those that toggle it. *)
Definition menu_handler (h : handler) : bool :=
  match h with HNavLinkClose | HHamburgerClick | HAnchorClick _ => true | _ => false end.

Definition is_toggle (h : handler) : bool :=
  match h with HNavLinkClose | HHamburgerClick => true | _ => false end.

Definition toggles (hs : list handler) : nat := length (filter (fun h => is_toggle h = true) hs).

(** How many of [n] toggles open a menu that starts [open]. *)
Definition openings (open : bool) (n : nat) : nat := (n + if open then 0 else 1) / 2.

(** ** Lemmas *)

Lemma bars_has_class m i bars d c n :
  has_class (for_each_i (bar_step m) i bars d) c n = has_class d c n.
Proof.
  apply (for_each_i_inv (fun d' => has_class d' c n = has_class d c n)); [|done].
  intros j x d' H. unfold bar_step. by rewrite has_class_upd_keep.
Qed.

Lemma bars_query_within m i bars d el c :
  query_within (for_each_i (bar_step m) i bars d) el c = query_within d el c.
Proof.
  apply (for_each_i_inv (fun d' => query_within d' el c = query_within d el c)); [|done].
  intros j x d' H. unfold bar_step. rewrite query_within_upd_keep; [done..|].
  intros n. by rewrite has_class_upd_keep.
Qed.

Lemma bars_is_Some m i bars d n :
  is_Some (get_el d n) -> is_Some (get_el (for_each_i (bar_step m) i bars d) n).
Proof.
  intros H. apply (for_each_i_inv (fun d' => is_Some (get_el d' n))); [|done].
  intros. by apply upd_el_is_Some.
Qed.

Lemma bars_get_other m i bars d b :
  b ∉ bars -> get_el (for_each_i (bar_step m) i bars d) b = get_el d b.
Proof.
  revert i d. induction bars as [|x bars IH]; intros i d Hb; simpl; [done|].
  rewrite IH by set_solver. unfold bar_step. rewrite get_upd_ne; set_solver.
Qed.

(** The bar at position [j] of the loop gets the transform of index
    [i + j], computed from the menu's state before the loop. *)
Lemma bars_get m i bars d j b e :
  NoDup bars -> bars !! j = Some b -> get_el d b = Some e ->
  get_el (for_each_i (bar_step m) i bars d) b =
    Some (style_set "transform" (bar_transform (has_class d "active" m) (i + j)) e).
Proof.
  revert i j d. induction bars as [|x bars IH]; intros i j d Hnd Hj He; [done|].
  apply NoDup_cons in Hnd as [Hx Hnd]. simpl. destruct j as [|j]; simpl in Hj.
  - simplify_eq. rewrite bars_get_other by done. unfold bar_step.
    by rewrite get_upd_eq, He, Nat.add_0_r.
  - assert (x ≠ b) by (intros ->; apply Hx; by eapply list_elem_of_lookup_2).
    rewrite (IH (S i) j) by (unfold bar_step; rewrite ?get_upd_ne; done).
    unfold bar_step. rewrite has_class_upd_keep by done. do 3 f_equal. lia.
Qed.

Lemma add_close_fold ls w :
  foldl (fun w' l => add_listener (TNode l) EClick HNavLinkClose w') w ls =
    (set_listeners (listeners w.1 ++ (close_reg <$> ls)) w.1, w.2).
Proof.
  revert w. induction ls as [|x ls IH]; intros w; simpl.
  - destruct w as [[] ?]. simpl. by rewrite app_nil_r.
  - rewrite IH. simpl. by rewrite <- app_assoc.
Qed.

(** The two class toggles of lines 353-354, read back. *)
Lemma toggles_read d m h :
  m ≠ h -> is_Some (get_el d m) -> is_Some (get_el d h) ->
  let d1 := upd_el h (class_toggle "active") (upd_el m (class_toggle "active") d) in
  has_class d1 "active" m = negb (has_class d "active" m) /\
  has_class d1 "active" h = negb (has_class d "active" h) /\
  (forall el c, c ≠ "active" -> query_within d1 el c = query_within d el c) /\
  is_Some (get_el d1 m) /\ is_Some (get_el d1 h).
Proof.
  intros Hne Hm Hh d1. subst d1. split_and!.
  - rewrite has_class_toggle_other by auto. by rewrite has_class_toggle_eq.
  - rewrite has_class_toggle_eq by (by apply upd_el_is_Some).
    by rewrite has_class_toggle_other by auto.
  - intros el c Hc. rewrite !query_within_upd_keep; try done;
      intros; rewrite ?has_class_toggle_other; auto using class_toggle_parent.
  - by do 2 apply upd_el_is_Some.
  - by do 2 apply upd_el_is_Some.
Qed.

(** The whole effect of [toggleMobileMenu]: the menu and the button flip,
    and an opening registers one close listener per nav link. *)
Lemma toggleMobileMenu_spec w :
  menu_ok w ->
  let w' := toggleMobileMenu w in
  ctl w'.1 = ctl w.1 /\ win w'.1 = win w.1 /\ w'.2 = w.2 /\
  menu_open w' = negb (menu_open w) /\ button_active w' = negb (button_active w) /\
  nav_links w' = nav_links w /\ menu_ok w' /\
  listeners w'.1 = listeners w.1 ++ (close_reg <$> if menu_open w then [] else nav_links w).
Proof.
  intros (m & h & Hm & Hh & Hne & Hsm & Hsh).
  destruct (toggles_read (doc w.1) m h Hne Hsm Hsh) as (H1 & H2 & H3 & H4 & H5).
  unfold toggleMobileMenu, menu_open, button_active, nav_links, menu_ok.
  rewrite Hm, Hh. simpl. rewrite bars_has_class, H1.
  destruct (has_class (doc w.1) "active" m) eqn:E; simpl.
  - rewrite Hm, Hh, !bars_has_class, bars_query_within, H1, H2, (H3 m "nav-link") by done. simpl.
    rewrite app_nil_r. split_and!; try done.
    exists m, h. split_and!; try done; by apply bars_is_Some.
  - rewrite add_close_fold. simpl.
    rewrite Hm, Hh, !bars_has_class, bars_query_within, H1, H2, (H3 m "nav-link") by done.
    split_and!; try done.
    exists m, h. split_and!; try done; by apply bars_is_Some.
Qed.

(** C16: [toggleMobileMenu] flips the menu and the hamburger together;
    an opening registers one click listener on every nav link of the
    menu, and a closing registers none and removes none. *)
Theorem toggleMobileMenu_flips w :
  menu_ok w ->
  let w' := toggleMobileMenu w in
  menu_open w' = negb (menu_open w) /\ button_active w' = negb (button_active w) /\
  listeners w'.1 = listeners w.1 ++ (close_reg <$> if menu_open w then [] else nav_links w).
Proof.
  intros Hok w'. destruct (toggleMobileMenu_spec w Hok) as (_ & _ & _ & Ho & Hb & _ & _ & Hl).
  done.
Qed.

(** The document [toggleMobileMenu] leaves: the two class toggles, then
    the bar loop. *)
Lemma toggleMobileMenu_doc w m h :
  navMenu (ctl w.1) = Some m -> hamburger (ctl w.1) = Some h ->
  let d1 := upd_el h (class_toggle "active") (upd_el m (class_toggle "active") (doc w.1)) in
  doc (toggleMobileMenu w).1 = for_each_i (bar_step m) 0 (query_within d1 h "bar") d1.
Proof.
  intros Hm Hh d1. unfold toggleMobileMenu. rewrite Hm, Hh. simpl.
  case_match; [|done]. by rewrite add_close_fold.
Qed.

(** C19: the bar at position [i] of the hamburger's [.bar]s gets, on
    opening, [rotate(a deg) translate(o px, o px)] with [a], [o] = 45, 6
    for the first bar, 0, 0 for the second and -45, -6 for the others,
    and [none] on closing. *)
Theorem toggleMobileMenu_bar_transform w m h i b e :
  navMenu (ctl w.1) = Some m -> hamburger (ctl w.1) = Some h -> m ≠ h ->
  is_Some (get_el (doc w.1) m) -> is_Some (get_el (doc w.1) h) ->
  NoDup (query_within (doc w.1) h "bar") -> query_within (doc w.1) h "bar" !! i = Some b ->
  b ≠ m -> b ≠ h -> get_el (doc w.1) b = Some e ->
  get_el (doc (toggleMobileMenu w).1) b =
    Some (style_set "transform" (bar_transform (negb (menu_open w)) i) e).
Proof.
  intros Hm Hh Hne Hsm Hsh Hnd Hi Hbm Hbh He.
  destruct (toggles_read (doc w.1) m h Hne Hsm Hsh) as (H1 & _ & H3 & _).
  rewrite (toggleMobileMenu_doc w m h Hm Hh). rewrite H3 in * by done.
  rewrite (bars_get _ _ _ _ i b e); [| done | done |].
  - by rewrite H1; unfold menu_open; rewrite Hm.
  - by rewrite !get_upd_ne by done.
Qed.

(** The global [window.scrollToSection] does what the method does. *)
Lemma scrollToSection_global_eq sectionId w :
  scrollToSection_global sectionId w = scrollToSection sectionId w.
Proof. unfold scrollToSection_global, scrollToSection. by destruct (get_by_id _ _). Qed.

(** C20: a click on an anchor [href="#id"] asks the window to scroll to
    80 pixels above the element with that id, and asks nothing when no
    element has it ([href="#"] looks for the id ""); nothing else of the
    page changes. *)
Theorem anchorClick_scrolls a w id :
  attr (doc w.1) "href" a = Some (String.append "#" id) ->
  let w' := anchorClick a w in
  scroll_requests (win w'.1) = scroll_requests (win w.1) ++
    match get_by_id id (doc w.1) ≫= get_el (doc w.1) with
    | Some s => [(el_offset_top s - 80)%Q]
    | None => []
    end /\
  ctl w'.1 = ctl w.1 /\ doc w'.1 = doc w.1 /\ listeners w'.1 = listeners w.1 /\ w'.2 = w.2.
Proof.
  intros Ha w'. subst w'. unfold anchorClick. rewrite Ha.
  change (substring1 (String.append "#" id)) with id. unfold scrollToSection.
  destruct (get_by_id id (doc w.1) ≫= get_el (doc w.1)); simpl; split_and!; by rewrite ?app_nil_r.
Qed.

Lemma anchorClick_keeps a w :
  ctl (anchorClick a w).1 = ctl w.1 /\ doc (anchorClick a w).1 = doc w.1 /\
  listeners (anchorClick a w).1 = listeners w.1 /\ (anchorClick a w).2 = w.2.
Proof. unfold anchorClick, scrollToSection. by repeat case_match. Qed.

Lemma menu_state_eq w w' :
  ctl w'.1 = ctl w.1 -> doc w'.1 = doc w.1 ->
  menu_open w' = menu_open w /\ nav_links w' = nav_links w /\ (menu_ok w' <-> menu_ok w).
Proof. unfold menu_open, nav_links, menu_ok. intros -> ->. done. Qed.

Lemma openings_succ b n :
  openings b (S n) = (if b then 0 else 1) + openings (negb b) n.
Proof.
  unfold openings. destruct b; cbn [negb].
  - rewrite Nat.add_0_r. replace (n + 1) with (S n) by lia. reflexivity.
  - rewrite Nat.add_0_r. replace (S n + 1) with (n + 1 * 2) by lia.
    rewrite Nat.div_add by lia. lia.
Qed.

Lemma xorb_odd_succ b n : xorb b (Nat.odd (S n)) = xorb (negb b) (Nat.odd n).
Proof. rewrite Nat.odd_succ, <- Nat.negb_odd. by destruct b, (Nat.odd n). Qed.

(** What a run of the handlers [hs] from [w] leaves in [w']. *)
Definition fold_post (w : world) (hs : list handler) (w' : world) : Prop :=
  menu_ok w' /\ ctl w'.1 = ctl w.1 /\ nav_links w' = nav_links w /\
  menu_open w' = xorb (menu_open w) (Nat.odd (toggles hs)) /\
  listeners w'.1 = listeners w.1 ++
    (close_reg <$> mjoin (replicate (openings (menu_open w) (toggles hs)) (nav_links w))).

(** A toggle in front of a run. *)
Lemma fold_post_toggle w hs w' :
  menu_ok w -> fold_post (toggleMobileMenu w) hs w' -> fold_post w (HNavLinkClose :: hs) w'.
Proof.
  intros Hok (Hok' & Hc & Hn & Ho & Hl).
  destruct (toggleMobileMenu_spec w Hok) as (Hc0 & _ & _ & Ho0 & _ & Hn0 & _ & Hl0).
  unfold fold_post, toggles in *. simpl.
  rewrite Hc, Hn, Ho, Hl, Hc0, Hn0, Ho0, Hl0, xorb_odd_succ, openings_succ.
  split_and!; try done. rewrite <- app_assoc, <- fmap_app.
  by destruct (menu_open w).
Qed.

Lemma fold_post_anchor w a hs w' :
  fold_post (anchorClick a w) hs w' -> fold_post w (HAnchorClick a :: hs) w'.
Proof.
  destruct (anchorClick_keeps a w) as (Hc & Hd & Hl & _).
  destruct (menu_state_eq _ _ Hc Hd) as (Ho & Hn & _).
  unfold fold_post, toggles. simpl. by rewrite Hc, Hl, Ho, Hn.
Qed.

(** The close listeners of [x] among [close_reg <$> ns]. *)
Definition count_of (x : nat) (ns : list nat) : nat := length (filter (fun n => n = x) ns).

Lemma listeners_for_close x ns :
  listeners_for (TNode x) EClick (close_reg <$> ns) = replicate (count_of x ns) HNavLinkClose.
Proof.
  unfold count_of. induction ns as [|n ns IH]; [done|]. unfold listeners_for in *.
  change (close_reg <$> n :: ns) with (close_reg n :: (close_reg <$> ns)).
  rewrite !filter_cons. destruct (decide (n = x)) as [->|Hne].
  - rewrite decide_True by done. cbn [length replicate]. rewrite <- IH. done.
  - rewrite decide_False by (intros [? _]; simpl in *; congruence). done.
Qed.

Lemma toggles_app hs1 hs2 : toggles (hs1 ++ hs2) = toggles hs1 + toggles hs2.
Proof. unfold toggles. by rewrite filter_app, length_app. Qed.

Lemma toggles_close k : toggles (replicate k HNavLinkClose) = k.
Proof. induction k as [|k IH]; [done|]. unfold toggles in *. simpl. by rewrite IH. Qed.

Lemma toggles_none hs : Forall (fun x => is_toggle x = false) hs -> toggles hs = 0.
Proof.
  unfold toggles. induction 1 as [|x hs Hx _ IH]; [done|].
  rewrite filter_cons_False by congruence. done.
Qed.

Lemma menu_handler_close k : Forall (fun h => menu_handler h = true) (replicate k HNavLinkClose).
Proof. by apply Forall_replicate. Qed.

Section Clicks.

(** The listener bodies: the dispatcher of the page runs the menu's
    handlers as the code defines them. *)
Variable run : handler -> world -> world.
Hypothesis run_close : forall w, run HNavLinkClose w = toggleMobileMenu w.
Hypothesis run_hamburger : forall w, run HHamburgerClick w = toggleMobileMenu w.
Hypothesis run_anchor : forall a w, run (HAnchorClick a) w = anchorClick a w.

Lemma run_menu_fold hs w :
  menu_ok w -> Forall (fun h => menu_handler h = true) hs ->
  fold_post w hs (foldl (fun w' h => run h w') w hs).
Proof.
  revert w. induction hs as [|x hs IH]; intros w Hok Hf.
  - unfold fold_post, toggles, openings. simpl. rewrite xorb_false_r.
    by destruct (menu_open w); rewrite app_nil_r.
  - apply Forall_cons in Hf as [Hx Hhs]. simpl.
    destruct x as [a| | | | | | | | | | | | | |]; try discriminate.
    + rewrite run_anchor. apply fold_post_anchor, IH; [|done].
      destruct (anchorClick_keeps a w) as (Hc & Hd & _).
      by apply (menu_state_eq _ _ Hc Hd).
    + rewrite run_hamburger. unfold fold_post, toggles. simpl.
      apply (fold_post_toggle w hs), IH; [done| |done]; by apply toggleMobileMenu_spec.
    + rewrite run_close. apply fold_post_toggle, IH; [done| |done]; by apply toggleMobileMenu_spec.
Qed.

(** C17: a click at [t] whose listeners are menu handlers toggles the
    menu once per toggling listener, and each opening among those toggles
    registers one more close listener on every nav link; nothing removes
    one. *)
Theorem menu_click_dispatch t w :
  menu_ok w -> Forall (fun h => menu_handler h = true) (listeners_for t EClick (listeners w.1)) ->
  let hs := listeners_for t EClick (listeners w.1) in
  let w' := dispatch run t EClick w in
  menu_open w' = xorb (menu_open w) (Nat.odd (toggles hs)) /\
  listeners w'.1 = listeners w.1 ++
    (close_reg <$> mjoin (replicate (openings (menu_open w) (toggles hs)) (nav_links w))).
Proof.
  intros Hok Hf hs w'. unfold dispatch in w'.
  destruct (run_menu_fold hs w Hok Hf) as (_ & _ & _ & Ho & Hl). done.
Qed.

Lemma click_post t w :
  menu_ok w -> Forall (fun h => menu_handler h = true) (listeners_for t EClick (listeners w.1)) ->
  fold_post w (listeners_for t EClick (listeners w.1)) (dispatch run t EClick w).
Proof. intros. by apply run_menu_fold. Qed.

(** C18: the close listeners of line 368 pile up.  The menu starts closed,
    the hamburger carries its one listener, and the link [l] appears once
    among the menu's nav links and carries no toggling listener.  Open
    with the hamburger, close with a click on [l], open again: the second
    click on [l] runs two close listeners, which close and reopen the
    menu, so it stays open (the first click on [l] did close it). *)
Theorem second_opening_link_click_keeps_menu_open w h l :
  menu_ok w -> hamburger (ctl w.1) = Some h -> menu_open w = false ->
  listeners_for (TNode h) EClick (listeners w.1) = [HHamburgerClick] ->
  Forall (fun x => menu_handler x = true /\ is_toggle x = false)
    (listeners_for (TNode l) EClick (listeners w.1)) ->
  h ∉ nav_links w -> count_of l (nav_links w) = 1 ->
  let w1 := dispatch run (TNode h) EClick w in
  let w2 := dispatch run (TNode l) EClick w1 in
  let w3 := dispatch run (TNode h) EClick w2 in
  let w4 := dispatch run (TNode l) EClick w3 in
  menu_open w1 = true /\ menu_open w2 = false /\ menu_open w3 = true /\ menu_open w4 = true.
Proof.
  intros Hok Hh Hc HH HL Hhn Hl w1 w2 w3 w4.
  assert (HA : toggles (listeners_for (TNode l) EClick (listeners w.1)) = 0)
    by (apply toggles_none; eapply Forall_impl; [exact HL|]; naive_solver).
  assert (HAm : Forall (fun x => menu_handler x = true) (listeners_for (TNode l) EClick (listeners w.1)))
    by (eapply Forall_impl; [exact HL|]; naive_solver).
  assert (Hh0 : count_of h (nav_links w) = 0) by (unfold count_of; by rewrite filter_eq_notin).
  destruct (click_post (TNode h) w) as (Hok1 & _ & Hn1 & Ho1 & Hl1);
    [done | rewrite HH; by repeat constructor|].
  change (dispatch run (TNode h) EClick w) with w1 in Hok1, Hn1, Ho1, Hl1.
  rewrite HH, Hc in Ho1, Hl1. change (toggles [HHamburgerClick]) with 1 in Ho1, Hl1.
  cbn in Ho1, Hl1. rewrite ?app_nil_r in Hl1.
  assert (Hs2 : listeners_for (TNode l) EClick (listeners w1.1) =
                listeners_for (TNode l) EClick (listeners w.1) ++ replicate 1 HNavLinkClose)
    by (subst w1; by rewrite Hl1, listeners_for_app, listeners_for_close, Hl).
  destruct (click_post (TNode l) w1) as (Hok2 & _ & Hn2 & Ho2 & Hl2);
    [done | rewrite Hs2; apply Forall_app_2; [done | apply menu_handler_close]|].
  change (dispatch run (TNode l) EClick w1) with w2 in Hok2, Hn2, Ho2, Hl2.
  rewrite Hs2, toggles_app, HA, toggles_close, Ho1 in Ho2, Hl2.
  cbn in Ho2, Hl2. rewrite ?app_nil_r in Hl2.
  assert (Hs3 : listeners_for (TNode h) EClick (listeners w2.1) = [HHamburgerClick])
    by (subst w2; rewrite Hl2, Hl1, listeners_for_app, listeners_for_close, HH, Hh0; done).
  destruct (click_post (TNode h) w2) as (Hok3 & _ & Hn3 & Ho3 & Hl3);
    [done | rewrite Hs3; by repeat constructor|].
  change (dispatch run (TNode h) EClick w2) with w3 in Hok3, Hn3, Ho3, Hl3.
  rewrite Hs3, Ho2, Hn2, Hn1 in Hl3. rewrite Hs3, Ho2 in Ho3.
  change (toggles [HHamburgerClick]) with 1 in Ho3, Hl3. cbn in Ho3, Hl3.
  rewrite ?app_nil_r in Hl3.
  assert (Hs4 : toggles (listeners_for (TNode l) EClick (listeners w3.1)) = 2)
    by (subst w3; rewrite Hl3, Hl2, Hl1, !listeners_for_app, !listeners_for_close, Hl,
          !toggles_app, HA, toggles_close; done).
  destruct (click_post (TNode l) w3) as (_ & _ & _ & Ho4 & _); [done| |].
  { rewrite Hl3, Hl2, Hl1, !listeners_for_app, !listeners_for_close.
    repeat apply Forall_app_2; auto using menu_handler_close. }
  change (dispatch run (TNode l) EClick w3) with w4 in Ho4.
  rewrite Hs4, Ho3 in Ho4. split_and!; done.
Qed.

End Clicks.

(** The menu's listeners run by a dispatcher that knows only them. *)
Definition menu_run (h : handler) (w : world) : world :=
  match h with
  | HNavLinkClose | HHamburgerClick => toggleMobileMenu w
  | HAnchorClick a => anchorClick a w
  | _ => w
  end.

(** A menu [0] holding the link [1] to [#about], a hamburger [2] with
    three bars [3], [4], [5], and the section [6] with id [about] at
    offset 600; the listeners of lines 36-49 registered. *)
Definition with_class (c : string) (e : elem) : elem := set_classes [c] e.

Definition menu_demo : world :=
  let es := [set_children [1] (with_class "nav-menu" new_elem);
             set_parent (Some 0) (set_attr "href" "#about"
               (with_class "nav-link" (mk_elem "a" [] ∅ ∅ "" false "" [] None 0%Q 0%Q (0%Q, 0%Q, 0%Q, 0%Q))));
             set_children [3; 4; 5] (with_class "hamburger" new_elem);
             set_parent (Some 2) (with_class "bar" new_elem);
             set_parent (Some 2) (with_class "bar" new_elem);
             set_parent (Some 2) (with_class "bar" new_elem);
             set_attr "id" "about" (mk_elem "section" [] ∅ ∅ "" false "" [] None 600%Q 500%Q (0%Q, 0%Q, 0%Q, 0%Q))] in
  let c := mk_ctl None (Some 2) (Some 0) None None 0%Q 0%Q false true [] None in
  setupHamburger (setupAnchors (world_of c es 375 700)).

Lemma second_opening_link_click_keeps_menu_open_witness :
  menu_open (dispatch menu_run (TNode 1) EClick
    (dispatch menu_run (TNode 2) EClick
      (dispatch menu_run (TNode 1) EClick
        (dispatch menu_run (TNode 2) EClick menu_demo)))) = true.
Proof.
  refine (proj2 (proj2 (proj2 (second_opening_link_click_keeps_menu_open menu_run
            (fun _ => eq_refl) (fun _ => eq_refl) (fun _ _ => eq_refl) menu_demo 2 1
            _ eq_refl eq_refl eq_refl _ _ eq_refl)))).
  - exists 0, 2. split_and!; [done | done | lia | eexists; reflexivity | eexists; reflexivity].
  - vm_compute. repeat constructor.
  - apply (bool_decide_eq_false_1 _). vm_compute. reflexivity.
Defined.

Lemma menu_demo_ok : menu_ok menu_demo.
Proof. exists 0, 2. split_and!; [done | done | lia | eexists; reflexivity | eexists; reflexivity]. Qed.

Lemma toggleMobileMenu_flips_witness :
  menu_open (toggleMobileMenu menu_demo) = true /\
  listeners (toggleMobileMenu menu_demo).1 = listeners menu_demo.1 ++ [close_reg 1].
Proof.
  destruct (toggleMobileMenu_flips menu_demo menu_demo_ok) as (Ho & _ & Hl).
  split; [exact Ho | exact Hl].
Defined.

(** The third bar gets [rotate(-45deg) translate(-6px, -6px)], where the
    stylesheet of lines 548-550 has [translate(6px, -6px)]. *)
Lemma toggleMobileMenu_bar_transform_witness :
  option_map (style_get "transform") (get_el (doc (toggleMobileMenu menu_demo).1) 5) =
    Some (Some (CTransform [Rotate (-45); Translate (-6) (-6)])).
Proof.
  rewrite (toggleMobileMenu_bar_transform menu_demo 0 2 2 5
             (with_class "bar" (set_parent (Some 2) new_elem)));
    try (eexists; reflexivity); try reflexivity; try lia.
  vm_compute. repeat constructor; set_solver.
Defined.

Lemma anchorClick_scrolls_witness :
  scroll_requests (win (anchorClick 1 menu_demo).1) = [(600 - 80)%Q].
Proof. apply (anchorClick_scrolls 1 menu_demo "about"). reflexivity. Defined.

(** A hamburger click on the demo page opens the menu. *)
Lemma menu_click_dispatch_witness :
  menu_open (dispatch menu_run (TNode 2) EClick menu_demo) = true.
Proof.
  pose proof (menu_click_dispatch menu_run (fun _ => eq_refl) (fun _ => eq_refl)
                (fun _ _ => eq_refl) (TNode 2) menu_demo menu_demo_ok) as H.
  destruct H as [H _]; [vm_compute; repeat constructor|].
  rewrite H. vm_compute. reflexivity.
Defined.

End Menu.
