(* ===== verification/Animate.v ===== *)
(** * Entrance animations: the intersection observer and the skill items

    [src/app.js] lines 84-103 ([setupIntersectionObserver] and the
    observer's callback), 193-207 ([animateSkills]), 209-223
    ([animateElement]) and 225-235 ([animateSkillBar]), with the timer
    callbacks they schedule.

    The observer watches the skill items and the project, contact and
    about cards; each intersecting entry marks its target [animated],
    hides it and schedules its fade-in after 100 ms.  [animateElement]
    meant to fill a skill item's progress bar too, but it tests
    [classList.contains('.skill-item')], with a dot, which no class
    written as [class="skill-item"] matches.  Separately, the constructor
    calls [animateSkills], which hides each skill item [index * 200] ms
    after start and shows it 100 ms later.

    Proved here: the observed set; an entry resets its target and
    schedules one fade-in, on every re-entry; a skill item whose classes
    carry no dot never gets its bar touched, so the bar keeps its width
    through the whole animation; the bar animation itself (if it ran)
    sets [level%] for a well-formed level and leaves [0%] for a malformed
    one; and in any order of the fade-in and skill callbacks in which
    each hide is followed by its show, the item ends visible. *)

From S2P Require Import Prelude Dom Timers World.
From Stdlib Require Import Ascii.

Module Animate.

(** [document.querySelectorAll('.skill-item, .project-card,
    .contact-card, .about-card')] of line 99. *)
Definition animate_classes : list string :=
  ["skill-item"; "project-card"; "contact-card"; "about-card"].

(** [setupIntersectionObserver()], lines 84-103: the observer watches
    every element of the four classes.  The threshold and the root
    margin decide when the browser delivers an entry, which the model
    takes as an input. *)
Definition setupIntersectionObserver (w : world) : world :=
  upd_ctl (set_observed (query_classes animate_classes (doc w.1))) w.

(** An [IntersectionObserverEntry]: its target and [isIntersecting]. *)
Record entry := Entry { target_el : nat; isIntersecting : bool }.

(** ** CSS percentages *)

Definition digit (a : ascii) : option nat :=
  let n := nat_of_ascii a in
  if Nat.leb 48 n && Nat.leb n 57 then Some (n - 48) else None.

(** The longest prefix of digits: its value, its length and the rest. *)
Fixpoint parse_digits (s : string) (acc : Q) (k : nat) : Q * nat * string :=
  match s with
  | String a s' =>
      match digit a with
      | Some d => parse_digits s' (acc * 10 + inject_Z (Z.of_nat d))%Q (S k)
      | None => (acc, k, s)
      end
  | EmptyString => (acc, k, EmptyString)
  end.

(** The value of [s + '%'] as a CSS percentage: [digits] or
    [digits.digits]; anything else (["undefined"], ["abc"], [""]) makes
    the declaration invalid, and an invalid assignment to [style.width]
    is ignored.  The sign, exponent and leading-dot forms, which no
    [data-level] of the page uses, are read as invalid too. *)
Definition css_percentage (s : string) : option Q :=
  match parse_digits s 0 0 with
  | (i, O, _) => None
  | (i, _, EmptyString) => Some i
  | (i, _, String "."%char r) =>
      match parse_digits r 0 0 with
      | (f, S k, EmptyString) => Some (i + f / inject_Z (10 ^ Z.of_nat (S k)))%Q
      | _ => None
      end
  | _ => None
  end.

(** ** The skill bar *)

(** [el.querySelector('.c')] *)
Definition query_first_within (d : document) (el : nat) (c : string) : option nat :=
  head (query_within d el c).

(** [animateSkillBar(skillItem)], lines 225-235. *)
Definition animateSkillBar (skillItem : nat) (w : world) : world :=
  match query_first_within (doc w.1) skillItem "skill-progress" with
  | Some progressBar =>
      let level := attr (doc w.1) "data-level" skillItem in
      set_timeout_w 500 (KSkillBar progressBar level)
        (upd_doc (upd_el progressBar (style_set "width" (CPct 0))) w)
  | None => w
  end.

(** The callback of lines 230-233: [level + '%'] with [level] undefined
    reads ["undefined%"]. *)
Definition skillBarFill (progressBar : nat) (level : option string) (w : world) : world :=
  let w1 := upd_doc (upd_el progressBar (style_set "transition" (CTransition "width" 2))) w in
  match level ≫= css_percentage with
  | Some q => upd_doc (upd_el progressBar (style_set "width" (CPct q))) w1
  | None => w1
  end.

(** ** Entrance *)

(** [animateElement(element)], lines 209-223. *)
Definition animateElement (element : nat) (w : world) : world :=
  let w1 := if has_class (doc w.1) ".skill-item" element
            then animateSkillBar element w else w in
  set_timeout_w 100 (KEntrance element)
    (upd_doc (upd_el element (style_set "transform" (CTransform [TranslateY 30])))
       (upd_doc (upd_el element (style_set "opacity" (CNum 0))) w1)).

(** The callback of lines 218-222. *)
Definition entranceShow (element : nat) (w : world) : world :=
  upd_doc (upd_el element (style_set "transform" (CTransform [TranslateY 0])))
    (upd_doc (upd_el element (style_set "opacity" (CNum 1)))
       (upd_doc (upd_el element (style_set "transition" (CTransition "all" (8 # 10)))) w)).

(** The observer's callback, lines 86-92. *)
Definition observerCallback (entries : list entry) (w : world) : world :=
  foldl (fun w' en =>
           if isIntersecting en
           then animateElement (target_el en)
                  (upd_doc (upd_el (target_el en) (class_add "animated")) w')
           else w') w entries.

(** ** [animateSkills] *)

(** [animateSkills()], lines 193-207. *)
Definition animateSkills (w : world) : world :=
  for_each_i (fun index item w' => set_timeout_w (N.of_nat index * 200) (KSkillHide item) w')
    0 (query_classes ["skill-item"] (doc w.1)) w.

(** The outer callback, lines 196-205. *)
Definition skillHide (item : nat) (w : world) : world :=
  set_timeout_w 100 (KSkillShow item)
    (upd_doc (upd_el item (style_set "transition" (CTransition "all" (6 # 10))))
      (upd_doc (upd_el item (style_set "transform" (CTransform [TranslateY 30])))
        (upd_doc (upd_el item (style_set "opacity" (CNum 0))) w))).

(** The inner callback, lines 201-204. *)
Definition skillShow (item : nat) (w : world) : world :=
  upd_doc (upd_el item (style_set "transform" (CTransform [TranslateY 0])))
    (upd_doc (upd_el item (style_set "opacity" (CNum 1))) w).

(** The node a callback of this file writes to; [true] for the other
    callbacks, which the theorems below exclude. *)
Definition touches (p : nat) (k : task) : bool :=
  match k with
  | KEntrance e | KSkillHide e | KSkillShow e => bool_decide (e = p)
  | KSkillBar b _ => bool_decide (b = p)
  | _ => true
  end.

(** Every hide of [i] in [ks] has a show of [i] after it. *)
Fixpoint hides_answered (i : nat) (ks : list task) : bool :=
  match ks with
  | [] => true
  | k :: ks' =>
      (if decide (k = KSkillHide i) then bool_decide (KSkillShow i ∈ ks') else true)
      && hides_answered i ks'
  end.

(** The callbacks this file schedules. *)
Definition anim_task (k : task) : bool :=
  match k with KEntrance _ | KSkillHide _ | KSkillShow _ | KSkillBar _ _ => true | _ => false end.

(** [i] is shown: opacity 1 and [translateY(0)]. *)
Definition visible (i : nat) (w : world) : Prop :=
  exists e, get_el (doc w.1) i = Some e /\ style_get "opacity" e = Some (CNum 1) /\
    style_get "transform" e = Some (CTransform [TranslateY 0]).

(** ** Lemmas *)

Lemma hides_answered_snoc i l k :
  hides_answered i (l ++ [k]) = true -> k ≠ KSkillShow i ->
  hides_answered i l = true /\ k ≠ KSkillHide i.
Proof.
  intros H Hk. induction l as [|x l IH]; simpl in *.
  - split; [done|]. intros ->. rewrite decide_True in H by done. discriminate.
  - apply andb_true_iff in H as [Hx Hl]. destruct (IH Hl) as [IH1 IH2].
    split; [|done]. rewrite IH1, andb_true_r. case_decide; [|done].
    apply bool_decide_eq_true_1 in Hx. apply bool_decide_eq_true_2. set_solver.
Qed.

Lemma visible_upd_other i n f w :
  n ≠ i -> visible i w -> visible i (upd_doc (upd_el n f) w).
Proof. intros Hn (e & He & H1 & H2). exists e. simpl. by rewrite get_upd_ne. Qed.

Lemma visible_style_other i n p v w :
  p ≠ "opacity" -> p ≠ "transform" -> visible i w ->
  visible i (upd_doc (upd_el n (style_set p v)) w).
Proof.
  intros Hp1 Hp2 Hv. destruct (decide (n = i)) as [->|Hn]; [|by apply visible_upd_other].
  destruct Hv as (e & He & H1 & H2). exists (style_set p v e). simpl.
  rewrite get_upd_eq, He. by rewrite !style_get_set_ne.
Qed.

Lemma visible_set_timeout i d k w : visible i w -> visible i (set_timeout_w d k w).
Proof. done. Qed.

(** The two writes of a fade-in or a show make [i] visible. *)
Lemma visible_show i w :
  is_Some (get_el (doc w.1) i) ->
  visible i (upd_doc (upd_el i (style_set "transform" (CTransform [TranslateY 0])))
               (upd_doc (upd_el i (style_set "opacity" (CNum 1))) w)).
Proof.
  intros [e He]. eexists. simpl. rewrite !get_upd_eq, He. split; [done|].
  simpl. rewrite style_get_set_ne, !style_get_set_eq by discriminate. done.
Qed.


(** Without the literal class [.skill-item], [animateElement] only hides
    its element and schedules the fade-in. *)
Lemma animateElement_plain el w :
  has_class (doc w.1) ".skill-item" el = false ->
  animateElement el w =
    set_timeout_w 100 (KEntrance el)
      (upd_doc (upd_el el (style_set "transform" (CTransform [TranslateY 30])))
         (upd_doc (upd_el el (style_set "opacity" (CNum 0))) w)).
Proof. intros H. unfold animateElement. by rewrite H. Qed.

(** What the observer's callback keeps of a node [pb] that no entry
    targets: its element, the [.skill-item] test of every node, and a
    queue of timers none of which writes to [pb]. *)
Definition keeps_node (pb : nat) (w0 w : world) : Prop :=
  get_el (doc w.1) pb = get_el (doc w0.1) pb /\
  Forall (fun t => touches pb (t_task t) = false) (timers w.2) /\
  forall m, has_class (doc w.1) ".skill-item" m = has_class (doc w0.1) ".skill-item" m.

Lemma observerCallback_keeps entries pb w0 w :
  Forall (fun en => has_class (doc w0.1) ".skill-item" (target_el en) = false /\
                    target_el en ≠ pb) entries ->
  keeps_node pb w0 w -> keeps_node pb w0 (observerCallback entries w).
Proof.
  revert w. induction entries as [|en entries IH]; intros w Hf Hk; [done|].
  apply Forall_cons in Hf as [[Hs Hne] Hf]. apply IH; [done|]. simpl.
  destruct (isIntersecting en); [|done].
  destruct Hk as (Hg & Ht & Hc).
  rewrite animateElement_plain
    by (simpl; rewrite has_class_add_other by done; by rewrite Hc).
  split_and!; simpl.
  - by rewrite !get_upd_ne.
  - apply Forall_app_2; [done|]. repeat constructor. simpl. by apply bool_decide_eq_false_2.
  - intros m. by rewrite !has_class_style_set, has_class_add_other.
Qed.

(** C22: what [animateSkillBar] does when it runs: the bar found by
    [querySelector('.skill-progress')] gets width [0%] and a callback
    500 ms later, which sets its width to [level%] when the item's
    [data-level] is a well-formed number and otherwise (missing or
    malformed) leaves it at [0%] without failing. *)
Theorem animateSkillBar_fill item pb w :
  query_first_within (doc w.1) item "skill-progress" = Some pb ->
  is_Some (get_el (doc w.1) pb) ->
  let level := attr (doc w.1) "data-level" item in
  let w1 := animateSkillBar item w in
  w1.2 = set_timeout 500 (KSkillBar pb level) w.2 /\
  style_get "width" <$> get_el (doc w1.1) pb = Some (Some (CPct 0)) /\
  style_get "width" <$> get_el (doc (skillBarFill pb level w1).1) pb =
    Some (Some (CPct (default 0%Q (level ≫= css_percentage)))).
Proof.
  intros Hq [e He] level w1. subst w1. unfold animateSkillBar. rewrite Hq. fold level.
  unfold skillBarFill. simpl. split_and!; [done | by rewrite get_upd_eq, He; simpl; rewrite style_get_set_eq |].
  case_match; simpl; rewrite !get_upd_eq, He; simpl;
    first [by rewrite style_get_set_eq
          | rewrite style_get_set_ne by discriminate; by rewrite style_get_set_eq].
Qed.

Section Run.

(** The page's dispatcher runs the callbacks of this file as written. *)
Variable run : task -> world -> world.
Hypothesis run_entrance : forall e w, run (KEntrance e) w = entranceShow e w.
Hypothesis run_hide : forall i w, run (KSkillHide i) w = skillHide i w.
Hypothesis run_show : forall i w, run (KSkillShow i) w = skillShow i w.
Hypothesis run_bar : forall b l w, run (KSkillBar b l) w = skillBarFill b l w.

(** A callback that does not write to [pb] keeps it, and schedules only
    callbacks that do not write to it. *)
Lemma run_keeps pb k x s :
  touches pb k = false ->
  get_el (doc (run k (x, s)).1) pb = get_el (doc x) pb /\
  exists extra, timers (run k (x, s)).2 = timers s ++ extra /\
    Forall (fun t => touches pb (t_task t) = false) extra.
Proof.
  intros H. destruct k; simpl in H; try discriminate; apply bool_decide_eq_false_1 in H.
  - rewrite run_hide. unfold skillHide. simpl. split; [by rewrite !get_upd_ne|].
    eexists. split; [done|]. repeat constructor. simpl. by apply bool_decide_eq_false_2.
  - rewrite run_show. unfold skillShow. simpl. split; [by rewrite !get_upd_ne|].
    exists []. by rewrite app_nil_r.
  - rewrite run_entrance. unfold entranceShow. simpl. split; [by rewrite !get_upd_ne|].
    exists []. by rewrite app_nil_r.
  - rewrite run_bar. unfold skillBarFill. case_match; simpl;
      (split; [by rewrite !get_upd_ne|]); exists []; by rewrite app_nil_r.
Qed.

Lemma run_present i k w :
  anim_task k = true -> is_Some (get_el (doc w.1) i) -> is_Some (get_el (doc (run k w).1) i).
Proof.
  intros Hk H. destruct k; try discriminate;
    rewrite ?run_entrance, ?run_hide, ?run_show, ?run_bar;
    unfold entranceShow, skillHide, skillShow, skillBarFill; try case_match; simpl;
    by repeat apply upd_el_is_Some.
Qed.

Lemma run_shows i k w :
  (k = KEntrance i \/ k = KSkillShow i) -> is_Some (get_el (doc w.1) i) -> visible i (run k w).
Proof.
  intros [-> | ->] H.
  - rewrite run_entrance. apply visible_show. simpl. by apply upd_el_is_Some.
  - rewrite run_show. by apply visible_show.
Qed.

Lemma run_keeps_visible i k w :
  anim_task k = true -> k ≠ KSkillHide i -> visible i w -> visible i (run k w).
Proof.
  intros Hk Hh Hv. destruct k as [|j|j|j|b l| | | | | | |]; try discriminate.
  - rewrite run_hide. unfold skillHide. apply visible_set_timeout.
    assert (j ≠ i) by congruence. by repeat (apply visible_upd_other; [done|]).
  - destruct (decide (j = i)) as [->|Hj]; [apply run_shows; [by right | by destruct Hv as (? & -> & _)]|].
    rewrite run_show. unfold skillShow. by repeat (apply visible_upd_other; [done|]).
  - destruct (decide (j = i)) as [->|Hj]; [apply run_shows; [by left | by destruct Hv as (? & -> & _)]|].
    rewrite run_entrance. unfold entranceShow. by repeat (apply visible_upd_other; [done|]).
  - rewrite run_bar. unfold skillBarFill. case_match;
      repeat apply visible_style_other; done.
Qed.

(** C23: the two animations of a skill item interleave safely.  Run any
    sequence of this file's callbacks in which every hide of item [i]
    ([animateSkills]) is followed by its show, and which contains a
    fade-in ([animateElement]) or a show of [i]: the item ends with
    opacity 1 and [translateY(0)], whatever the order. *)
Theorem skill_item_ends_visible i ks w :
  Forall (fun k => anim_task k = true) ks -> hides_answered i ks = true ->
  (KEntrance i ∈ ks \/ KSkillShow i ∈ ks) -> is_Some (get_el (doc w.1) i) ->
  visible i (foldl (fun w' k => run k w') w ks).
Proof.
  induction ks as [|k ks IH] using rev_ind; intros Hf Hh Hin Hp; [set_solver|].
  rewrite foldl_app. simpl. apply Forall_app in Hf as [Hf Hk]. apply Forall_inv in Hk.
  destruct (decide (k = KEntrance i \/ k = KSkillShow i)) as [Hs|Hs].
  - apply run_shows; [done|].
    clear IH Hh Hin. induction ks as [|x ks IHk] using rev_ind; [done|].
    rewrite foldl_app. apply Forall_app in Hf as [Hf Hx]. apply Forall_inv in Hx.
    by apply run_present, IHk.
  - destruct (hides_answered_snoc i ks k Hh) as [Hh' Hk']; [naive_solver|].
    apply run_keeps_visible; [done..|]. apply IH; [done|done| |done]. set_solver.
Qed.

(** C21: the skill bars never fill.  Take intersection entries whose
    targets do not carry the literal class [.skill-item] (no class
    written [class="skill-item"] does) and a node [pb] none of them
    targets, say the [.skill-progress] bar inside a skill item; if no
    pending timer writes to [pb], then neither the observer's callback
    nor any run of the timers afterwards changes [pb]: its width never
    becomes [level%]. *)
Theorem skill_bar_never_filled entries w pb fuel limit w' :
  Forall (fun en => has_class (doc w.1) ".skill-item" (target_el en) = false /\
                    target_el en ≠ pb) entries ->
  Forall (fun t => touches pb (t_task t) = false) (timers w.2) ->
  run_timers run fuel limit (observerCallback entries w) = Some w' ->
  get_el (doc w'.1) pb = get_el (doc w.1) pb.
Proof.
  intros Hf Ht Hr.
  destruct (observerCallback_keeps entries pb w w Hf) as (Hg & Ht' & _); [done|].
  set (I := fun y : world => get_el (doc y.1) pb = get_el (doc w.1) pb /\
              Forall (fun t => touches pb (t_task t) = false) (timers y.2)).
  enough (HI : I w') by apply HI.
  apply (run_timers_inv run I fuel limit (observerCallback entries w)); [| | done | done].
  - intros x s t s' [Hx Hs] E. destruct (pop_due_spec _ _ _ _ E) as (Hp & _ & _).
    rewrite Hp in Hs. apply Forall_cons in Hs as [Htt Hs'].
    destruct (run_keeps pb (t_task t) x s' Htt) as (Hg' & extra & Hex & Hfe).
    split; [by rewrite Hg'|]. rewrite Hex. by apply Forall_app_2.
  - intros x s [Hx Hs]. done.
Qed.

End Run.

(** The callbacks of this file, run by a dispatcher that knows only them. *)
Definition anim_run (k : task) (w : world) : world :=
  match k with
  | KEntrance e => entranceShow e w
  | KSkillHide i => skillHide i w
  | KSkillShow i => skillShow i w
  | KSkillBar b l => skillBarFill b l w
  | _ => w
  end.

(** A skill item [0] ([class="skill-item" data-level="90"]) holding its
    bar [1] ([class="skill-progress"]). *)
Definition skill_demo : world :=
  world_of blank_ctl
    [set_attr "data-level" "90" (set_children [1] (set_classes ["skill-item"] new_elem));
     set_parent (Some 0) (set_classes ["skill-progress"] new_elem)] 1280 800.

Lemma skill_bar_never_filled_witness :
  exists w', run_timers anim_run 5 1000 (observerCallback [Entry 0 true] skill_demo) = Some w' /\
    get_el (doc w'.1) 1 = get_el (doc skill_demo.1) 1.
Proof.
  eexists. split; [vm_compute; reflexivity|].
  apply (skill_bar_never_filled anim_run (fun _ _ => eq_refl) (fun _ _ => eq_refl)
           (fun _ _ => eq_refl) (fun _ _ _ => eq_refl) [Entry 0 true] skill_demo 1 5 1000).
  - constructor; [split; [reflexivity | simpl; lia] | constructor].
  - constructor.
  - vm_compute. reflexivity.
Defined.

Lemma animateSkillBar_fill_witness :
  style_get "width" <$> get_el (doc (skillBarFill 1 (Some "90") (animateSkillBar 0 skill_demo)).1) 1
    = Some (Some (CPct 90)).
Proof. apply (animateSkillBar_fill 0 1 skill_demo); [reflexivity | eexists; reflexivity]. Defined.

(** [animateSkills] hides item 0 and shows it, then the observer's
    fade-in runs: the item is visible. *)
Lemma skill_item_ends_visible_witness :
  visible 0 (foldl (fun w' k => anim_run k w') skill_demo [KSkillHide 0; KSkillShow 0; KEntrance 0]).
Proof.
  apply (skill_item_ends_visible anim_run (fun _ _ => eq_refl) (fun _ _ => eq_refl)
           (fun _ _ => eq_refl) (fun _ _ _ => eq_refl)).
  - repeat constructor.
  - reflexivity.
  - right. set_solver.
  - eexists. reflexivity.
Defined.

End Animate.
