(* ===== verification/Buttons.v ===== *)
(** * Cards and buttons: hover, touch, glow sweep and ripple

    [src/app.js] lines 237-272 ([setupProjectCards] and its four
    listeners), 274-286 ([setupCTAButtons]), 288-297 ([animateButton])
    and 299-339 ([createRipple]), with the timer callbacks they schedule.

    A project card lifts on [mouseenter] and drops on [mouseleave] unless
    the viewport is mobile (read when the event fires); on a page that
    was mobile at start it also gets touch listeners: [touchstart] adds
    [touch-active] and [touchend] removes it 150 ms later, with no
    cancellation.  A CTA button sweeps its [.btn-glow] on [mouseenter]
    and, on click, appends a ripple centred on the click point, removed
    600 ms later; the ripple keyframes are injected once.

    Proved here: the ripple's geometry and its whole life (appended as
    the button's last child, removed after its timer, the button's
    children restored); the ripple sheet is injected only when absent;
    and a timer from an earlier tap removes [touch-active] in the middle
    of a later touch that is still held. *)

From S2P Require Import Prelude Dom Timers World.

Module Buttons.

(** [setupProjectCards()], lines 237-272. *)
Definition setupProjectCards (w : world) : world :=
  foldl (fun w' card =>
           let w1 := add_listener (TNode card) EMouseLeave (HCardLeave card)
                       (add_listener (TNode card) EMouseEnter (HCardEnter card) w') in
           if isMobile (ctl w1.1)
           then add_listener (TNode card) ETouchEnd (HCardTouchEnd card)
                  (add_listener (TNode card) ETouchStart (HCardTouchStart card) w1)
           else w1)
    w (query_classes ["project-card"] (doc w.1)).

(** The [mouseenter] listener, lines 242-250. *)
Definition cardEnter (card : nat) (w : world) : world :=
  if isMobile (ctl w.1) then w
  else upd_doc (upd_el card (style_set "box-shadow" (CStr "0 20px 40px rgba(0, 204, 255, 0.3)")))
         (upd_doc (upd_el card (style_set "transition" (CTransition "all" (3 # 10))))
            (upd_doc (upd_el card (style_set "transform"
                                     (CTransform [TranslateY (-10); Scale (102 # 100)]))) w)).

(** The [mouseleave] listener, lines 252-257. *)
Definition cardLeave (card : nat) (w : world) : world :=
  if isMobile (ctl w.1) then w
  else upd_doc (upd_el card (style_set "box-shadow" CNone))
         (upd_doc (upd_el card (style_set "transform" (CTransform [TranslateY 0; Scale 1]))) w).

(** The [touchstart] listener, lines 261-263. *)
Definition cardTouchStart (card : nat) (w : world) : world :=
  upd_doc (upd_el card (class_add "touch-active")) w.

(** The [touchend] listener, lines 265-269. *)
Definition cardTouchEnd (card : nat) (w : world) : world :=
  set_timeout_w 150 (KTouchEnd card) w.

(** Its callback, line 267. *)
Definition touchEndTimer (card : nat) (w : world) : world :=
  upd_doc (upd_el card (class_remove "touch-active")) w.

(** [setupCTAButtons()], lines 274-286. *)
Definition setupCTAButtons (w : world) : world :=
  foldl (fun w' button =>
           add_listener (TNode button) EClick (HButtonClick button)
             (add_listener (TNode button) EMouseEnter (HButtonEnter button) w'))
    w (query_classes ["cta-button"] (doc w.1)).

(** [animateButton(button)], lines 288-297. *)
Definition animateButton (button : nat) (w : world) : world :=
  match head (query_within (doc w.1) button "btn-glow") with
  | Some glow => set_timeout_w 50 (KGlow glow)
                   (upd_doc (upd_el glow (style_set "left" (CPct (-100)))) w)
  | None => w
  end.

(** Its callback, lines 292-295. *)
Definition glowSweep (glow : nat) (w : world) : world :=
  upd_doc (upd_el glow (style_set "left" (CPct 100)))
    (upd_doc (upd_el glow (style_set "transition" (CTransition "left" (6 # 10)))) w).

(** The ripple's [style.cssText], lines 306-317: it replaces the whole
    inline style. *)
Definition ripple_style (x y size : Q) : gmap string cssval :=
  list_to_map
    [("position", CStr "absolute"); ("border-radius", CPct 50);
     ("background", CRgba 255 255 255 (3 # 10)); ("transform", CTransform [Scale 0]);
     ("animation", CAnim "ripple" (6 # 10)); ("left", CPx x); ("top", CPx y);
     ("width", CPx size); ("height", CPx size); ("pointer-events", CStr "none")].

(** The geometry of lines 301-304: the size and the top-left corner of
    the ripple in the button's box. *)
Definition ripple_box (clientX clientY : Q) (rect : Q * Q * Q * Q) : Q * Q * Q :=
  let '(rl, rt, rw, rh) := rect in
  let size := math_max rw rh in
  ((clientX - rl - size / 2)%Q, (clientY - rt - size / 2)%Q, size).

(** Lines 326-338: the keyframes sheet, when no element has its id. *)
Definition inject_ripple_styles (w : world) : world :=
  match get_by_id "ripple-styles" (doc w.1) with
  | Some _ => w
  | None =>
      let '(n, d1) := create_el (doc w.1) in
      upd_doc (fun _ => append_head n
                          (upd_el n (fun e => set_attr "id" "ripple-styles" (set_tag "style" e)) d1)) w
  end.

(** [createRipple(event, button)], lines 299-339. *)
Definition createRipple (clientX clientY : Q) (button : nat) (w : world) : world :=
  let '(ripple, d1) := create_el (doc w.1) in
  let rect := match get_el (doc w.1) button with
              | Some e => el_rect e
              | None => (0, 0, 0, 0)%Q
              end in
  let '(x, y, size) := ripple_box clientX clientY rect in
  let d2 := upd_el ripple (fun e => set_style_map (ripple_style x y size) (set_tag "span" e)) d1 in
  inject_ripple_styles
    (set_timeout_w 600 (KRippleRemove ripple) (upd_doc (fun _ => append_child button ripple d2) w)).

(** Its callback, line 322: [ripple.remove()]. *)
Definition rippleRemove (ripple : nat) (w : world) : world :=
  upd_doc (remove_el ripple) w.

(** Clicks on button [b] at the points [cs], in order, with no timer
    firing in between. *)
Definition ripple_clicks (b : nat) (cs : list (Q * Q)) (w : world) : world :=
  foldl (fun w' c => createRipple c.1 c.2 b w') w cs.

(** What a click needs of the page: a well-formed document and the
    button present. *)
Definition ripple_ok (b : nat) (w : world) : Prop :=
  doc_wf (doc w.1) /\ order_wf (doc w.1) /\ is_Some (get_el (doc w.1) b).

(** ** Lemmas *)

Lemma inject_ripple_styles_get w m :
  doc_wf (doc w.1) -> is_Some (get_el (doc w.1) m) ->
  get_el (doc (inject_ripple_styles w).1) m = get_el (doc w.1) m /\
  (inject_ripple_styles w).2 = w.2.
Proof.
  intros Hwf Hm. unfold inject_ripple_styles.
  destruct (get_by_id _ _); [done|]. split; [|done]. by apply append_head_fresh_other.
Qed.

(** The sheet of lines 326-338: added, with a fresh node, exactly when
    no connected node has its id. *)
Lemma inject_ripple_styles_ids w :
  doc_wf (doc w.1) -> order_wf (doc w.1) ->
  let d' := doc (inject_ripple_styles w).1 in
  doc_wf d' /\ order_wf d' /\ (forall m, is_Some (get_el (doc w.1) m) -> is_Some (get_el d' m)) /\
  ids_of "ripple-styles" d' =
    match ids_of "ripple-styles" (doc w.1) with [] => [doc_next (doc w.1)] | l => l end.
Proof.
  intros Hw Ho d'. unfold d', inject_ripple_styles. rewrite get_by_id_ids by discriminate.
  destruct (ids_of _ _) as [|n l] eqn:E; [|done].
  cbn [head create_el fst snd]. simpl (doc _).
  destruct (append_head_fresh_wf (doc w.1)
              (fun e => set_attr "id" "ripple-styles" (set_tag "style" e)) Hw Ho) as [H1 H2].
  split_and!; [exact H1 | exact H2 | |].
  - intros m Hm. by rewrite append_head_fresh_other.
  - rewrite ids_of_append_head_new, E by done. simpl. by rewrite lookup_insert_eq.
Qed.

(** [createRipple] before the sheet check: a fresh node with no [id]
    appended to the button, and the removal timer. *)
Lemma createRipple_unfold cx cy b w :
  let r := doc_next (doc w.1) in
  exists F, (forall e, el_attrs (F e) = el_attrs e) /\
    createRipple cx cy b w =
    inject_ripple_styles (set_timeout_w 600 (KRippleRemove r)
      (upd_doc (fun _ => append_child b r (upd_el r F (create_el (doc w.1)).2)) w)).
Proof.
  unfold createRipple. cbn zeta.
  destruct (ripple_box cx cy _) as [[x y] size].
  by exists (fun e => set_style_map (ripple_style x y size) (set_tag "span" e)).
Qed.

(** One click keeps what a click needs, and the sheet list only goes
    from empty to the one fresh sheet. *)
Lemma createRipple_ok cx cy b w :
  ripple_ok b w ->
  ripple_ok b (createRipple cx cy b w) /\
  ids_of "ripple-styles" (doc (createRipple cx cy b w).1) =
    match ids_of "ripple-styles" (doc w.1) with [] => [S (doc_next (doc w.1))] | l => l end.
Proof.
  intros (Hw & Ho & Hb). destruct (createRipple_unfold cx cy b w) as (F & HF & ->).
  set (r := doc_next (doc w.1)).
  assert (Hbr : b ≠ r) by (apply Hw in Hb; unfold r; lia).
  set (D := append_child b r (upd_el r F (create_el (doc w.1)).2)).
  assert (HwD : doc_wf D) by apply append_child_wf, upd_el_wf, create_el_wf, Hw.
  assert (HoD : order_wf D).
  { apply order_wf_append_child; [simpl; lia|]. by apply order_wf_upd, order_wf_create. }
  assert (HbD : is_Some (get_el D b)).
  { apply append_child_is_Some, upd_el_is_Some. by rewrite create_el_old. }
  assert (HiD : ids_of "ripple-styles" D = ids_of "ripple-styles" (doc w.1))
    by (by apply ids_of_append_fresh).
  destruct (inject_ripple_styles_ids
              (set_timeout_w 600 (KRippleRemove r) (upd_doc (fun _ => D) w)) HwD HoD)
    as (H1 & H2 & H3 & H4).
  split; [split_and!; [exact H1 | exact H2 | by apply H3]|].
  rewrite H4. change (doc (set_timeout_w 600 (KRippleRemove r) (upd_doc (fun _ => D) w)).1) with D.
  rewrite HiD. unfold D. by rewrite append_child_next.
Qed.

(** The ripple element as lines 300-319 build it. *)
Definition ripple_elem (button : nat) (x y size : Q) : elem :=
  set_parent (Some button) (set_style_map (ripple_style x y size) (set_tag "span" new_elem)).

(** [createRipple] on a present button: the fresh ripple is its last
    child, and one removal timer is queued. *)
Lemma createRipple_spec cx cy b w eb rl rt rw rh :
  doc_wf (doc w.1) -> get_el (doc w.1) b = Some eb -> el_rect eb = (rl, rt, rw, rh) ->
  let r := doc_next (doc w.1) in
  let '(x, y, size) := ripple_box cx cy (rl, rt, rw, rh) in
  let w1 := createRipple cx cy b w in
  children (doc w1.1) b = el_children eb ++ [r] /\
  get_el (doc w1.1) r = Some (ripple_elem b x y size) /\
  w1.2 = set_timeout 600 (KRippleRemove r) w.2.
Proof.
  intros Hwf He Hr r. simpl.
  assert (Hb : b < r) by (apply Hwf; by rewrite He).
  set (F := fun e => set_style_map (ripple_style (cx - rl - math_max rw rh / 2)
                       (cy - rt - math_max rw rh / 2) (math_max rw rh)) (set_tag "span" e)).
  set (d3 := append_child b r (upd_el r F (create_el (doc w.1)).2)).
  assert (Hwf3 : doc_wf d3)
    by (apply append_child_wf, upd_el_wf, create_el_wf, Hwf).
  assert (Hb3 : get_el d3 b = Some (set_children (el_children eb ++ [r]) eb)).
  { unfold d3, append_child. case_bool_decide; unfold get_el; simpl;
      rewrite lookup_alter_ne, lookup_alter_eq, lookup_alter_ne by lia;
      rewrite lookup_insert_ne by lia; fold (get_el (doc w.1) b); by rewrite He. }
  assert (Hr3 : get_el d3 r = Some (ripple_elem b (cx - rl - math_max rw rh / 2)
                                     (cy - rt - math_max rw rh / 2) (math_max rw rh))).
  { unfold d3. rewrite append_child_get_child by lia. rewrite get_upd_eq.
    replace (get_el (create_el (doc w.1)).2 r) with (Some new_elem)
      by (symmetry; apply create_el_new). done. }
  assert (Eq : createRipple cx cy b w =
    inject_ripple_styles (set_timeout_w 600 (KRippleRemove r) (upd_doc (fun _ => d3) w)))
    by (unfold createRipple; rewrite He, Hr; reflexivity).
  rewrite Eq.
  destruct (inject_ripple_styles_get
              (set_timeout_w 600 (KRippleRemove r) (upd_doc (fun _ => d3) w)) b) as [Eb E2];
    [done | simpl; by rewrite Hb3|].
  destruct (inject_ripple_styles_get
              (set_timeout_w 600 (KRippleRemove r) (upd_doc (fun _ => d3) w)) r) as [Er _];
    [done | simpl; by rewrite Hr3|].
  unfold children. rewrite Eb, Er, E2. simpl. rewrite Hb3, Hr3. done.
Qed.

(** C24: the ripple's life.  A click at [(cx, cy)] on a button whose box
    is [(rl, rt, rw, rh)] appends a fresh [span] as the button's last
    child, a square of side [max(rw, rh)] centred on the click point,
    and queues its removal 600 ms later; the removal gives the button its
    children back. *)
Theorem createRipple_lifecycle cx cy b w eb rl rt rw rh :
  doc_wf (doc w.1) -> get_el (doc w.1) b = Some eb -> el_rect eb = (rl, rt, rw, rh) ->
  doc_next (doc w.1) ∉ el_children eb ->
  let r := doc_next (doc w.1) in
  let w1 := createRipple cx cy b w in
  (exists e x y size, get_el (doc w1.1) r = Some e /\ el_tag e = "span" /\
     style_get "left" e = Some (CPx x) /\ style_get "top" e = Some (CPx y) /\
     style_get "width" e = Some (CPx size) /\ style_get "height" e = Some (CPx size) /\
     size = math_max rw rh /\ (x + size / 2 == cx - rl)%Q /\ (y + size / 2 == cy - rt)%Q) /\
  children (doc w1.1) b = el_children eb ++ [r] /\
  w1.2 = set_timeout 600 (KRippleRemove r) w.2 /\
  children (doc (rippleRemove r w1).1) b = el_children eb.
Proof.
  intros Hwf He Hr Hn r w1.
  assert (Hb : b < r) by (apply Hwf; by rewrite He).
  pose proof (createRipple_spec cx cy b w eb rl rt rw rh Hwf He Hr) as H.
  simpl in H. destruct H as (Hc & Hg & Ht).
  split_and!; [| done | done |].
  - eexists _, _, _, _. split; [exact Hg|].
    split_and!; try reflexivity; simpl; lra.
  - change (children (remove_el r (doc w1.1)) b = el_children eb).
    unfold w1, r in *. rewrite remove_el_children; [| by rewrite Hg | lia].
    rewrite Hc, filter_app, filter_neq_notin by done.
    rewrite filter_cons_False by (intros []; done). by rewrite app_nil_r.
Qed.

Lemma has_class_touch_start c w :
  is_Some (get_el (doc w.1) c) -> has_class (doc (cardTouchStart c w).1) "touch-active" c = true.
Proof. intros [e He]. unfold has_class. simpl. rewrite get_upd_eq, He. apply class_contains_add. Qed.

Section Touch.

(** The page's dispatcher runs the [touchend] timer as written. *)
Variable run : task -> world -> world.
Hypothesis run_touch : forall c w, run (KTouchEnd c) w = touchEndTimer c w.

(** C25: the [touch-active] timers are never cancelled.  A tap on card
    [c] at time [t0] queues a removal for [t0 + 150]; a second touch that
    starts at [t0 + 100] and is still held at [t0 + 200] sets the class,
    but the first tap's timer removes it in the middle of the touch. *)
Theorem touch_hold_loses_active c w :
  timers w.2 = [] -> is_Some (get_el (doc w.1) c) ->
  let t0 := now w.2 in
  let w1 := cardTouchEnd c (cardTouchStart c w) in
  exists w2 w4,
    run_timers run 1 (t0 + 100) w1 = Some w2 /\
    run_timers run 1 (t0 + 200) (cardTouchStart c w2) = Some w4 /\
    has_class (doc (cardTouchStart c w2).1) "touch-active" c = true /\
    has_class (doc w4.1) "touch-active" c = false.
Proof.
  intros Ht [e He] t0 w1.
  assert (Ht1 : timers w1.2 = [Timer (t0 + 150) (next_id w.2) (KTouchEnd c)])
    by (unfold w1, cardTouchEnd, set_timeout_w, set_timeout; simpl; by rewrite Ht).
  assert (Hs1 : is_Some (get_el (doc w1.1) c))
    by (simpl; apply upd_el_is_Some; by eexists).
  eexists. eexists. split; [apply (run_timers_single_late _ _ _ _ _ Ht1); simpl; lia|].
  split.
  - rewrite (run_timers_single run 0 (t0 + 200) _ (Timer (t0 + 150) (next_id w.2) (KTouchEnd c)));
      [| exact Ht1 | simpl; lia].
    cbn [t_task]. rewrite run_touch. apply run_timers_empty. done.
  - split; [apply has_class_touch_start; exact Hs1|].
    unfold has_class. simpl. rewrite !get_upd_eq, He. apply class_contains_remove.
Qed.

End Touch.

(** A page with the CTA button [0], 120x40 at (100, 200), and the
    project card [1]. *)
Definition button_el : elem :=
  mk_elem "button" ["cta-button"] ∅ ∅ "" false "" [] None 0%Q 0%Q (100%Q, 200%Q, 120%Q, 40%Q).

Definition button_demo : world :=
  world_of (set_isMobile true blank_ctl) [button_el; set_classes ["project-card"] new_elem] 375 700.

(** A click at (160, 220): the ripple is 120 pixels wide with its corner
    at (0, -40), and its removal restores the button's children. *)
Lemma createRipple_lifecycle_witness :
  children (doc (rippleRemove 2 (createRipple 160 220 0 button_demo)).1) 0 = [].
Proof.
  refine (proj2 (proj2 (proj2 (createRipple_lifecycle 160 220 0 button_demo button_el
            100 200 120 40 _ eq_refl eq_refl _)))).
  - apply doc_of_wf.
  - set_solver.
Defined.

Lemma ripple_clicks_keep b cs w n :
  ripple_ok b w -> ids_of "ripple-styles" (doc w.1) = [n] ->
  ripple_ok b (ripple_clicks b cs w) /\ ids_of "ripple-styles" (doc (ripple_clicks b cs w).1) = [n].
Proof.
  revert w. induction cs as [|c cs IH]; intros w Hok Hn; [done|].
  destruct (createRipple_ok c.1 c.2 b w Hok) as [Hok' Hi]. rewrite Hn in Hi. by apply IH.
Qed.

(** C33: the ripple sheet is injected once.  On a page with at most one
    [ripple-styles] sheet, any non-empty run of clicks on a present button
    leaves exactly one, the one that was there if there was one, and
    [getElementById('ripple-styles')] finds it. *)
Theorem ripple_sheet_once b cs w :
  cs ≠ [] -> ripple_ok b w -> length (ids_of "ripple-styles" (doc w.1)) <= 1 ->
  exists n, ids_of "ripple-styles" (doc (ripple_clicks b cs w).1) = [n] /\
    get_by_id "ripple-styles" (doc (ripple_clicks b cs w).1) = Some n /\
    (forall m, ids_of "ripple-styles" (doc w.1) = [m] -> n = m).
Proof.
  destruct cs as [|c cs]; intros Hne Hok Hl; [done|].
  destruct (createRipple_ok c.1 c.2 b w Hok) as [Hok' Hi].
  destruct (ids_of "ripple-styles" (doc w.1)) as [|m [|m' l]] eqn:E; simpl in Hl; [| |lia];
    destruct (ripple_clicks_keep b cs _ _ Hok' Hi) as [_ Hf]; simpl; rewrite get_by_id_ids, Hf by discriminate;
    eexists; split_and!; try done; congruence.
Qed.

(** Three clicks on the button of [button_demo]: one sheet, node 3. *)
Lemma ripple_sheet_once_witness :
  exists n, ids_of "ripple-styles" (doc (ripple_clicks 0 [(160, 220); (110, 210); (200, 230)]%Q button_demo).1) = [n].
Proof.
  destruct (ripple_sheet_once 0 [(160, 220); (110, 210); (200, 230)]%Q button_demo) as (n & H & _).
  - done.
  - split_and!; [apply doc_of_wf | apply doc_of_order_wf | by eexists].
  - vm_compute. lia.
  - by exists n.
Defined.

Definition touch_run (k : task) (w : world) : world :=
  match k with KTouchEnd c => touchEndTimer c w | _ => w end.

Lemma touch_hold_loses_active_witness :
  exists w2 w4,
    run_timers touch_run 1 100 (cardTouchEnd 1 (cardTouchStart 1 button_demo)) = Some w2 /\
    run_timers touch_run 1 200 (cardTouchStart 1 w2) = Some w4 /\
    has_class (doc (cardTouchStart 1 w2).1) "touch-active" 1 = true /\
    has_class (doc w4.1) "touch-active" 1 = false.
Proof.
  exact (touch_hold_loses_active touch_run (fun _ _ => eq_refl) 1 button_demo eq_refl
           (ex_intro _ _ eq_refl)).
Defined.

End Buttons.
