(* ===== verification/Easing.v ===== *)
(** * Animation utilities: the easing cubic and the floating loop

    [src/app.js] lines 465-467 ([easeInOutCubic]) and 470-485
    ([addFloatingAnimation] and its frame callback).  Neither is called
    by the rest of the program; they are modelled as the utilities they
    are.

    [easeInOutCubic] is the usual piecewise cubic: [4t^3] below one half
    and [(t - 1)(2t - 2)^2 + 1] from one half on.  Proved here: it
    respects [Qeq] (a [Proper] instance, so that setoid rewriting goes
    through it), maps [0, 1] into [0, 1], fixes 0, 1/2 and 1, and is
    monotone.  Its exact symmetry about (1/2, 1/2) holds in [Q] but not
    in doubles, and is not claimed.

    [addFloatingAnimation] starts a frame loop that never ends: every
    frame appends [translateY(sin(2 pi progress) * distance px)] to the
    element's transform and registers itself again.  [Math.sin] of a
    fraction of a turn is a parameter of the section: the loop's shape
    does not depend on it.  Proved here: [progress] stays in [0, 1); after
    any number of frames exactly one float callback is pending, and the
    transform list has grown by one [translateY] per frame, so the inline
    transform grows without bound. *)

From S2P Require Import Prelude Dom Timers World.
From Stdlib Require Import Qround.

Module Easing.

(** [easeInOutCubic(t)], lines 465-467. *)
Definition easeInOutCubic (t : Q) : Q :=
  if t <? 1 # 2 then (4 * t * t * t)%Q
  else ((t - 1) * (2 * t - 2) * (2 * t - 2) + 1)%Q.

(** JavaScript's [%] on numbers: the remainder of the division truncated
    toward zero, with the sign of the dividend. *)
Definition js_mod (a b : Q) : Q :=
  let q := (a / b)%Q in
  let t := if 0 <=? q then Qfloor q else (- Qfloor (- q))%Z in
  (a - b * inject_Z t)%Q.

(** [(elapsed % duration) / duration], line 476. *)
Definition float_progress (elapsed duration : Q) : Q := (js_mod elapsed duration / duration)%Q.

Section Float.

(** [x => Math.sin(x * Math.PI * 2)]: the sine of a fraction of a turn. *)
Variable sin_turn : Q -> Q.

(** The frame callback [animate] of lines 473-482, run with the frame's
    timestamp.  [start] is the variable the closure shares with
    [addFloatingAnimation]: [null] at first, and [!start] is also true
    for a start of 0. *)
Definition floatFrame (element : nat) (start : option N) (duration distance : Q)
    (w : world) : world :=
  let timestamp := now w.2 in
  let start' := match start with
                | Some s => if (s =? 0)%N then timestamp else s
                | None => timestamp
                end in
  let elapsed := inject_Z (Z.of_N timestamp - Z.of_N start') in
  let progress := float_progress elapsed duration in
  let y := (sin_turn progress * distance)%Q in
  request_frame_w (KFloat element (Some start') duration distance)
    (upd_doc (upd_el element (transform_append (TranslateY y))) w).

End Float.

(** [addFloatingAnimation(element, duration, distance)], lines 470-485. *)
Definition addFloatingAnimation (element : nat) (duration distance : Q) (w : world) : world :=
  request_frame_w (KFloat element None duration distance) w.

(** The defaults of line 470. *)
Definition addFloatingAnimation_default (element : nat) (w : world) : world :=
  addFloatingAnimation element 6000 20 w.

(** ** The easing cubic *)

#[export] Instance easeInOutCubic_proper : Proper (Qeq ==> Qeq) easeInOutCubic.
Proof.
  intros t u H. unfold easeInOutCubic. rewrite (Qltb_compat t u (1 # 2) H).
  case_q; by rewrite H.
Qed.

(** The second branch is the first one turned about (1/2, 1/2). *)
Lemma ease_upper t : ((t - 1) * (2 * t - 2) * (2 * t - 2) + 1 == 4 * (t - 1) * (t - 1) * (t - 1) + 1)%Q.
Proof. ring. Qed.

Lemma ease_lower_mono t u : (t <= u -> 4 * t * t * t <= 4 * u * u * u)%Q.
Proof. intros H. pose proof (Qcube_mono t u H). nra. Qed.

Lemma ease_mono t u : (t <= u)%Q -> (easeInOutCubic t <= easeInOutCubic u)%Q.
Proof.
  intros H. unfold easeInOutCubic.
  pose proof (ease_lower_mono t u H).
  pose proof (ease_lower_mono (t - 1) (u - 1) ltac:(lra)).
  do 2 case_q; rewrite ?ease_upper; try lra.
  pose proof (ease_lower_mono t (1 # 2) ltac:(lra)).
  pose proof (ease_lower_mono (- (1 # 2)) (u - 1) ltac:(lra)). lra.
Qed.

(** C26: [easeInOutCubic] is monotone, fixes 0, 1/2 and 1, and so maps
    [0, 1] into [0, 1]. *)
Theorem easeInOutCubic_monotone_range :
  (forall t u, t <= u -> easeInOutCubic t <= easeInOutCubic u)%Q /\
  (easeInOutCubic 0 == 0)%Q /\ (easeInOutCubic (1 # 2) == 1 # 2)%Q /\ (easeInOutCubic 1 == 1)%Q /\
  (forall t, 0 <= t <= 1 -> 0 <= easeInOutCubic t <= 1)%Q.
Proof.
  assert (E0 : (easeInOutCubic 0 == 0)%Q) by reflexivity.
  assert (E1 : (easeInOutCubic 1 == 1)%Q) by reflexivity.
  split_and!; [exact ease_mono | done | reflexivity | done |].
  intros t [H0 H1]. pose proof (ease_mono 0 t H0). pose proof (ease_mono t 1 H1). lra.
Qed.

(** ** The floating loop *)

Lemma js_mod_bounds a b : (0 <= a -> 0 < b -> 0 <= js_mod a b < b)%Q.
Proof.
  intros Ha Hb. unfold js_mod.
  assert (Hq : (0 <= a / b)%Q) by (apply Qle_shift_div_l; lra).
  destruct (Qle_bool_spec 0 (a / b)); [|lra].
  pose proof (Qfloor_le (a / b)) as Hl. pose proof (Qlt_floor (a / b)) as Hu.
  rewrite inject_Z_plus in Hu. change (inject_Z 1) with 1%Q in Hu.
  assert (E : (a == b * (a / b))%Q) by (field; lra).
  set (q := (a / b)%Q) in *. set (f := inject_Z (Qfloor q)) in *.
  assert (Hf1 : (0 <= b * (q - f))%Q) by (apply Qmult_le_0_compat; lra).
  assert (Hf2 : (b * (q - f) < b * 1)%Q) by (apply Qmult_lt_l; lra).
  split; nra.
Qed.

(** C27: on a clock that does not go back ([elapsed >= 0]) and with a
    positive duration, the [progress] of line 476 lies in [0, 1). *)
Theorem float_progress_bounds elapsed duration :
  (0 <= elapsed)%Q -> (0 < duration)%Q -> (0 <= float_progress elapsed duration < 1)%Q.
Proof.
  intros He Hd. unfold float_progress. destruct (js_mod_bounds elapsed duration He Hd).
  split.
  - apply Qle_shift_div_l; lra.
  - apply Qlt_shift_div_r; lra.
Qed.

Lemma float_progress_bounds_witness : (0 <= float_progress 7000 6000 < 1)%Q.
Proof. apply float_progress_bounds; lra. Defined.

Section Loop.

Variable sin_turn : Q -> Q.
Variable run : task -> world -> world.
Hypothesis run_float : forall el st d k w, run (KFloat el st d k) w = floatFrame sin_turn el st d k w.

(** Frames at the timestamps [ts], in order. *)
Definition frames_at (ts : list N) (w : world) : world :=
  foldl (fun w' t => run_frame run (w'.1, clock_to t w'.2)) w ts.

(** One frame of the loop: it re-registers itself and appends one
    [translateY]. *)
Lemma float_frame_step el st d k t w e fs :
  frames w.2 = [KFloat el st d k] -> get_el (doc w.1) el = Some e -> transform_of e = Some fs ->
  let w' := run_frame run (w.1, clock_to t w.2) in
  (exists st', frames w'.2 = [KFloat el st' d k]) /\
  exists e' y, get_el (doc w'.1) el = Some e' /\ transform_of e' = Some (fs ++ [TranslateY y]).
Proof.
  intros Hf He Ht w'. unfold w', run_frame, clock_to. simpl. rewrite Hf. simpl.
  rewrite run_float. unfold floatFrame. simpl. split; [by eexists|].
  eexists _, _. split; [by rewrite get_upd_eq, He|]. by apply transform_of_append.
Qed.

(** C28: the floating loop never ends.  From one pending float
    callback, after frames at any list of timestamps exactly one float
    callback is still pending, and the element's transform has grown by
    one [translateY] per frame: nothing bounds its length. *)
Theorem float_loop_never_ends el st d k ts w e fs :
  frames w.2 = [KFloat el st d k] -> get_el (doc w.1) el = Some e -> transform_of e = Some fs ->
  let w' := frames_at ts w in
  (exists st', frames w'.2 = [KFloat el st' d k]) /\
  exists e' ys, get_el (doc w'.1) el = Some e' /\ length ys = length ts /\
    transform_of e' = Some (fs ++ (TranslateY <$> ys)).
Proof.
  revert st w e fs. induction ts as [|t ts IH]; intros st w e fs Hf He Ht; simpl.
  - split; [by eexists|]. exists e, []. by rewrite app_nil_r.
  - destruct (float_frame_step el st d k t w e fs Hf He Ht) as ((st' & Hf') & e' & y & He' & Ht').
    destruct (IH st' _ e' _ Hf' He' Ht') as (Hl & e'' & ys & H1 & H2 & H3).
    split; [done|]. exists e'', (y :: ys). split_and!; [done | simpl; lia |].
    by rewrite H3, <- app_assoc.
Qed.

End Loop.

(** The loop of [addFloatingAnimation_default] on a blank element,
    with [Math.sin] taken as 0 for the run. *)
Definition float_run (k : task) (w : world) : world :=
  match k with KFloat el st d k' => floatFrame (fun _ => 0%Q) el st d k' w | _ => w end.

Definition float_demo : world := addFloatingAnimation_default 0 (world_of blank_ctl [new_elem] 1280 800).

Lemma float_loop_never_ends_witness :
  exists st', frames (frames_at float_run [16; 33; 50]%N float_demo).2 = [KFloat 0 st' 6000 20].
Proof.
  exact (proj1 (float_loop_never_ends (fun _ => 0%Q) float_run (fun _ _ _ _ _ => eq_refl)
                  0 None 6000 20 [16; 33; 50]%N float_demo new_elem [] eq_refl eq_refl eq_refl)).
Defined.

End Easing.
