(* ===== verification/Page.v ===== *)
(** * The page: the constructor, the bootstrap and the dispatchers

    [src/app.js] lines 4-11 (the constructor), 33-82
    ([setupEventListeners]), 509-517 (the [DOMContentLoaded] listener and
    its [loaded] timer) and 519-585 (the statements run when the script
    loads: the interaction style sheet and the [load] listener).

    [page_handler] runs a listener of [World.handler] as its arrow
    function does, and [page_task] runs a closure of [World.task]; they
    are the [run] that the [Section]s of [Form], [Menu], [Animate],
    [Buttons] and [Easing] take as a parameter.  Those sections'
    hypotheses are equations between [run] on one constructor and the
    callback it stands for, which [page_task] and [page_handler] satisfy
    by computation; [page_task_load] is the load hypothesis of
    [Timers.run_timers_total] for the page's closures.

    Proved here: the bootstrap registers the mousemove listener only on
    a page that is a desktop when it loads, so a page loaded on a phone
    and then widened has parallax bindings that no pointer event ever
    drives; and the timer queue of the page always drains: every run of
    due timers terminates, with fuel bounded by a load measure. *)

From S2P Require Import Prelude Dom Timers World Pointer Viewport Scroll Form Menu Animate Buttons Easing.

Module Page.

(** Lines 51-56: the submit listener, when the form exists. *)
Definition register_submit (w : world) : world :=
  match contactForm (ctl w.1) with
  | Some f => add_listener (TNode f) ESubmit HFormSubmit w
  | None => w
  end.

(** Lines 59-65: the mousemove listener, on a desktop only. *)
Definition register_mousemove (w : world) : world :=
  if isMobile (ctl w.1) then w else add_listener TDocument EMouseMove HMouseMove w.

(** [setupEventListeners()], lines 33-82. *)
Definition setupEventListeners (w : world) : world :=
  Buttons.setupCTAButtons (Buttons.setupProjectCards
    (add_listener TWindow EResize HResize (add_listener TWindow EScroll HScroll
      (register_mousemove (register_submit (Menu.setupHamburger (Menu.setupAnchors w))))))).

(** [new CloudPortfolio()], lines 4-11. *)
Definition constructor (w : world) : world :=
  Animate.animateSkills (Viewport.setupParallax (Viewport.createParticles
    (Animate.setupIntersectionObserver (setupEventListeners (Viewport.init w))))).

(** [document.body] *)
Definition body (d : document) : option nat :=
  head (filter (fun n => bool_decide (option_map el_tag (get_el d n) = Some "body")) (doc_order d)).

(** The [DOMContentLoaded] listener, lines 509-517. *)
Definition onDOMContentLoaded (w : world) : world :=
  set_timeout_w 500 KBodyLoaded (constructor w).

(** Its timer, line 515. *)
Definition bodyLoaded (w : world) : world :=
  upd_doc (upd_opt (body (doc w.1)) (class_add "loaded")) w.

(** What the script does when it loads, lines 509 and 519-585: the
    bootstrap listener, the interaction style sheet appended to the head
    (without an id, and without a presence check), and the [load]
    listener when the browser has service workers. *)
Definition script_load (serviceWorker : bool) (w : world) : world :=
  let w1 := add_listener TDocument EDOMContentLoaded HDOMContentLoaded w in
  let '(n, d1) := create_el (doc w1.1) in
  let w2 := upd_doc (fun _ => append_head n (upd_el n (set_tag "style") d1)) w1 in
  if serviceWorker then add_listener TWindow ELoad HWindowLoad w2 else w2.

(** The data of the event being dispatched: the pointer position of a
    mouse event. *)
Record event := Event { clientX : Q; clientY : Q }.

(** A listener run on an event.  [handleFormSubmit] may throw; the
    browser reports the error and goes on with the next listener, and
    nothing was changed before the throw. *)
Definition page_handler (sin_turn : Q -> Q) (ev : event) (h : handler) (w : world) : world :=
  match h with
  | HAnchorClick a => Menu.anchorClick a w
  | HHamburgerClick | HNavLinkClose => Menu.toggleMobileMenu w
  | HFormSubmit => match Form.handleFormSubmit w with Some w' => w' | None => w end
  | HMouseMove => Pointer.onMouseMove (clientX ev) (clientY ev) w
  | HScroll => Scroll.handleScroll w
  | HResize => Viewport.handleResize w
  | HCardEnter c => Buttons.cardEnter c w
  | HCardLeave c => Buttons.cardLeave c w
  | HCardTouchStart c => Buttons.cardTouchStart c w
  | HCardTouchEnd c => Buttons.cardTouchEnd c w
  | HButtonEnter b => Buttons.animateButton b w
  | HButtonClick b => Buttons.createRipple (clientX ev) (clientY ev) b w
  | HDOMContentLoaded => onDOMContentLoaded w
  | HWindowLoad => w
  end.

(** A closure run by the timer or the frame queue. *)
Definition page_task (sin_turn : Q -> Q) (k : task) (w : world) : world :=
  match k with
  | KParallaxFrame => Pointer.parallaxFrame w
  | KSkillHide i => Animate.skillHide i w
  | KSkillShow i => Animate.skillShow i w
  | KEntrance e => Animate.entranceShow e w
  | KSkillBar b l => Animate.skillBarFill b l w
  | KTouchEnd c => Buttons.touchEndTimer c w
  | KGlow g => Buttons.glowSweep g w
  | KRippleRemove r => Buttons.rippleRemove r w
  | KFormSent b o => Form.formSent b o w
  | KFormReset b o => Form.formReset b o w
  | KBodyLoaded => bodyLoaded w
  | KFloat el st d k' => Easing.floatFrame sin_turn el st d k' w
  end.

(** ** Lemmas *)

(** A registration on an element or on the window. *)
Definition not_doc (l : listener) : Prop := l_target l ≠ TDocument.

Lemma not_doc_node n e h : not_doc (Listener (TNode n) e h).
Proof. unfold not_doc. simpl. congruence. Qed.

Lemma not_doc_window e h : not_doc (Listener TWindow e h).
Proof. unfold not_doc. simpl. congruence. Qed.

Lemma setupAnchors_only_adds : only_adds not_doc Menu.setupAnchors.
Proof.
  intros w. exact (only_adds_foldl not_doc _ _
    (fun a => only_adds_add _ _ _ _ (not_doc_node _ _ _)) w).
Qed.

Lemma setupHamburger_only_adds : only_adds not_doc Menu.setupHamburger.
Proof.
  intros w. unfold Menu.setupHamburger.
  destruct (hamburger (ctl w.1)), (navMenu (ctl w.1)); try exact (only_adds_id _ w).
  exact (only_adds_add _ _ _ _ (not_doc_node _ _ _) w).
Qed.

Lemma setupProjectCards_only_adds : only_adds not_doc Buttons.setupProjectCards.
Proof.
  intros w. apply (only_adds_foldl not_doc). intros card w'. cbv zeta.
  pose proof (not_doc_node card) as Hn.
  destruct (isMobile _).
  - exact (only_adds_comp _ _ _ (only_adds_comp _ _ _ (only_adds_add _ _ _ _ (Hn _ _))
             (only_adds_add _ _ _ _ (Hn _ _)))
           (only_adds_comp _ _ _ (only_adds_add _ _ _ _ (Hn _ _))
             (only_adds_add _ _ _ _ (Hn _ _))) w').
  - exact (only_adds_comp _ _ _ (only_adds_add _ _ _ _ (Hn _ _))
             (only_adds_add _ _ _ _ (Hn _ _)) w').
Qed.

Lemma setupCTAButtons_only_adds : only_adds not_doc Buttons.setupCTAButtons.
Proof.
  intros w. apply (only_adds_foldl not_doc). intros b.
  apply only_adds_comp; apply only_adds_add, not_doc_node.
Qed.

(** [only_adds] on the worlds whose controller satisfies [C]. *)
Definition only_adds_if (C : controller -> Prop) (P : listener -> Prop) (f : world -> world) : Prop :=
  forall w, C (ctl w.1) ->
    exists extra, f w = (set_listeners (listeners w.1 ++ extra) w.1, w.2) /\ Forall P extra.

Lemma only_adds_if_of C P f : only_adds P f -> only_adds_if C P f.
Proof. intros H w _. apply H. Qed.

Lemma only_adds_if_comp C P f g :
  only_adds_if C P f -> only_adds_if C P g -> only_adds_if C P (fun w => g (f w)).
Proof.
  intros Hf Hg w Hc. destruct (Hf w Hc) as (e1 & -> & H1).
  destruct (Hg (set_listeners (listeners w.1 ++ e1) w.1, w.2)) as (e2 & -> & H2); [done|].
  exists (e1 ++ e2). split; [|by apply Forall_app_2]. simpl. by rewrite app_assoc.
Qed.

Lemma register_submit_only_adds : only_adds not_doc register_submit.
Proof.
  intros w. unfold register_submit. destruct (contactForm (ctl w.1)).
  - exact (only_adds_add _ _ _ _ (not_doc_node _ _ _) w).
  - exact (only_adds_id _ w).
Qed.

Lemma register_mousemove_mobile :
  only_adds_if (fun c => isMobile c = true) not_doc register_mousemove.
Proof. intros w Hm. unfold register_mousemove. rewrite Hm. exact (only_adds_id _ w). Qed.

(** On a page that is mobile, [setupEventListeners] registers nothing on
    the document. *)
Lemma setupEventListeners_mobile :
  only_adds_if (fun c => isMobile c = true) not_doc setupEventListeners.
Proof.
  pose proof (only_adds_if_of (fun c => isMobile c = true) not_doc) as Of.
  pose proof (only_adds_if_comp (fun c => isMobile c = true) not_doc) as Comp.
  unfold setupEventListeners.
  apply (Comp _ Buttons.setupCTAButtons); [| apply Of, setupCTAButtons_only_adds].
  apply (Comp _ Buttons.setupProjectCards); [| apply Of, setupProjectCards_only_adds].
  apply (Comp _ (add_listener TWindow EResize HResize)); [| apply Of, only_adds_add, not_doc_window].
  apply (Comp _ (add_listener TWindow EScroll HScroll)); [| apply Of, only_adds_add, not_doc_window].
  apply (Comp _ register_mousemove); [| apply register_mousemove_mobile].
  apply (Comp _ register_submit); [| apply Of, register_submit_only_adds].
  apply (Comp _ Menu.setupHamburger); [| apply Of, setupHamburger_only_adds].
  apply Of, setupAnchors_only_adds.
Qed.

Lemma create_particle_listeners cont w :
  listeners (Viewport.create_particle cont w).1 = listeners w.1.
Proof.
  unfold Viewport.create_particle.
  change (Viewport.draw4 (set_doc (create_el (doc w.1)).2 w.1))
    with ((rng w.1 (rng_next w.1), rng w.1 (S (rng_next w.1)),
           rng w.1 (S (S (rng_next w.1))), rng w.1 (S (S (S (rng_next w.1)))),
           mk_page (ctl w.1) (create_el (doc w.1)).2 (win w.1) (listeners w.1) (rng w.1)
             (S (S (S (S (rng_next w.1))))))).
  done.
Qed.

Lemma createParticles_listeners w : listeners (Viewport.createParticles w).1 = listeners w.1.
Proof.
  unfold Viewport.createParticles. destruct (particles (ctl w.1)) as [cont|]; [|done].
  destruct (isMobile (ctl w.1)); [done|].
  assert (H : forall k, listeners (Nat.iter k (Viewport.create_particle cont) w).1 = listeners w.1).
  { induction k as [|k IH]; [done|].
    change (Nat.iter (S k) (Viewport.create_particle cont) w)
      with (Viewport.create_particle cont (Nat.iter k (Viewport.create_particle cont) w)).
    by rewrite create_particle_listeners. }
  unfold Viewport.inject_particle_styles. case_match; [apply H|].
  destruct (create_el _). rewrite upd_doc_listeners. apply H.
Qed.

Lemma animateSkills_page w : (Animate.animateSkills w).1 = w.1.
Proof.
  unfold Animate.animateSkills. apply (for_each_i_inv (fun w' : world => w'.1 = w.1)); [|done].
  intros. done.
Qed.

Lemma createParticles_mobile w : isMobile (ctl w.1) = true -> Viewport.createParticles w = w.
Proof. intros H. unfold Viewport.createParticles. rewrite H. by destruct (particles _). Qed.

Lemma setupParallax_mobile w : isMobile (ctl w.1) = true -> Viewport.setupParallax w = w.
Proof. intros H. unfold Viewport.setupParallax. by rewrite H. Qed.

(** What the bootstrap leaves on a page that is mobile when it loads:
    the document and the window as they were, the mobile class, and no
    new registration on the document. *)
Lemma boot_mobile w :
  Viewport.mobile_width (innerWidth (win w.1)) = true ->
  let w' := onDOMContentLoaded w in
  isMobile (ctl w'.1) = true /\ doc w'.1 = doc w.1 /\ win w'.1 = win w.1 /\
  listeners_for TDocument EMouseMove (listeners w'.1) =
    listeners_for TDocument EMouseMove (listeners w.1).
Proof.
  intros Hm w'. unfold w', onDOMContentLoaded, constructor.
  rewrite set_timeout_w_page, animateSkills_page.
  set (w0 := Viewport.init w).
  assert (H0 : isMobile (ctl w0.1) = true) by exact Hm.
  destruct (setupEventListeners_mobile w0 H0) as (extra & E & Hx). rewrite E.
  set (w2 := Animate.setupIntersectionObserver _).
  assert (H2 : isMobile (ctl w2.1) = true) by exact H0.
  rewrite createParticles_mobile, setupParallax_mobile by exact H2.
  split_and!; [exact H2 | reflexivity | reflexivity |]. by apply listeners_for_extra.
Qed.

(** C29: the pointer is dead on a page widened after loading on a
    phone.  The page loads at a mobile width, the bootstrap runs, then
    the window is widened to a desktop width: the page is a desktop with
    its parallax bindings set, but no mousemove listener was ever
    registered, so a mousemove changes nothing and the bindings never
    move. *)
Theorem mobile_boot_pointer_dead sin_turn ev w wd ht :
  Viewport.mobile_width (innerWidth (win w.1)) = true -> doc_wf (doc w.1) ->
  listeners_for TDocument EMouseMove (listeners w.1) = [] ->
  Viewport.mobile_width wd = false ->
  let w1 := Viewport.onResize wd ht (onDOMContentLoaded w) in
  isMobile (ctl w1.1) = false /\ is_Some (parallaxElements (ctl w1.1)) /\
  dispatch (page_handler sin_turn ev) TDocument EMouseMove w1 = w1.
Proof.
  intros Hm Hwf Hl Hd w1. unfold w1.
  destruct (boot_mobile w Hm) as (Hb & Hdoc & _ & Hlb).
  revert Hb Hdoc Hlb. generalize (onDOMContentLoaded w) as wb. intros wb Hb Hdoc Hlb.
  unfold Viewport.onResize.
  rewrite Viewport.handleResize_to_desktop by (simpl; first [exact Hb | exact Hd]).
  set (w2 := upd_ctl (set_isMobile false) (Viewport.resize_window wd ht wb)).
  assert (Hwf2 : doc_wf (doc w2.1)) by (simpl; by rewrite Hdoc).
  destruct (Viewport.createParticles_keeps _ Hwf2) as (Hc & _).
  assert (Hmob : isMobile (ctl (Viewport.createParticles w2).1) = false) by (by rewrite Hc).
  unfold Viewport.setupParallax. rewrite Hmob. split_and!.
  - exact Hmob.
  - by eexists.
  - apply dispatch_none. rewrite upd_ctl_listeners, createParticles_listeners. simpl.
    by rewrite Hlb, Hl.
Qed.

(** How much timer work a closure may schedule: a skill hide schedules
    its show and a "sent" timer its reset, which schedule nothing. *)
Definition page_weight (k : task) : nat :=
  match k with KSkillHide _ | KFormSent _ _ => 1 | _ => 0 end.

Lemma load_set_timeout_w d k w :
  load page_weight (timers (set_timeout_w d k w).2) = load page_weight (timers w.2) + S (page_weight k).
Proof. unfold load. simpl. rewrite sum_list_with_app. simpl. lia. Qed.

Lemma load_upd_doc f w : load page_weight (timers (upd_doc f w).2) = load page_weight (timers w.2).
Proof. done. Qed.

(** No closure schedules more timer work than its weight. *)
Lemma page_task_load sin_turn k w :
  load page_weight (timers (page_task sin_turn k w).2) <= load page_weight (timers w.2) + page_weight k.
Proof.
  destruct k; cbn [page_task page_weight].
  - unfold Pointer.parallaxFrame, Pointer.updateParallax. repeat case_match; simpl; lia.
  - unfold Animate.skillHide. rewrite load_set_timeout_w. simpl. lia.
  - unfold Animate.skillShow. simpl. lia.
  - unfold Animate.entranceShow. simpl. lia.
  - unfold Animate.skillBarFill. case_match; simpl; lia.
  - unfold Buttons.touchEndTimer. simpl. lia.
  - unfold Buttons.glowSweep. simpl. lia.
  - unfold Buttons.rippleRemove. simpl. lia.
  - unfold Form.formSent. rewrite load_set_timeout_w. simpl. lia.
  - unfold Form.formReset. case_match; simpl; lia.
  - unfold bodyLoaded. simpl. lia.
  - unfold Easing.floatFrame. simpl. lia.
Qed.

(** C30: the page's timers always drain.  Whatever the page's state,
    running the due timers with as much fuel as the queue's load (one per
    timer plus the timers it may schedule) finishes. *)
Theorem page_timers_drain sin_turn fuel limit w :
  load page_weight (timers w.2) <= fuel -> is_Some (run_timers (page_task sin_turn) fuel limit w).
Proof. apply run_timers_total. intros k w'. apply page_task_load. Qed.

(** A page loaded at 375 pixels with one element. *)
Definition boot_demo : world := world_of blank_ctl [new_elem] 375 700.

Lemma mobile_boot_pointer_dead_witness :
  dispatch (page_handler (fun _ => 0%Q) (Event 0 0)) TDocument EMouseMove
    (Viewport.onResize 1280 800 (onDOMContentLoaded boot_demo)) =
  Viewport.onResize 1280 800 (onDOMContentLoaded boot_demo).
Proof.
  exact (proj2 (proj2 (mobile_boot_pointer_dead (fun _ => 0%Q) (Event 0 0) boot_demo 1280 800
           eq_refl (doc_of_wf _) eq_refl eq_refl))).
Defined.

(** The bootstrap's queue: the [loaded] timer; one unit of fuel drains
    it. *)
Lemma page_timers_drain_witness :
  is_Some (run_timers (page_task (fun _ => 0%Q)) 1 1000 (onDOMContentLoaded boot_demo)).
Proof. apply page_timers_drain. vm_compute. lia. Defined.

End Page.
